(** * Chat relay and persistence pipeline of the Ollama chat backend

    A shallow embedding of [Backend/config.py], [Backend/ollama_client.py],
    [Backend/database.py], [Backend/qr_handler.py] and the routes of
    [Backend/server.py], followed by the properties of the relay that the
    specification states and by further properties of the code.

    Conventions.
    - A Python value that comes out of [json.loads] / [response.json()] is a
      [json]; a Python [dict] with string keys is a [gmap string json].
    - [time.time()] and the sampling temperature are IEEE binary64 numbers
      ([float]); token counts and HTTP status codes are integers ([Z]).
    - Code that raises returns a [result]; code that touches the database,
      the log or the response stream runs in the monad [M], which threads the
      database and collects the events of the run in order. *)

From Stdlib Require Import ZArith String List Floats DecimalString Sorted.
From stdpp Require Import gmap strings list.

#[local] Set Warnings "-register-all,-inexact-float".
#[local] Open Scope string_scope.
#[local] Open Scope Z_scope.
#[local] Open Scope list_scope.

(* ===================================================================== *)
(** ** Python values and exceptions *)
(* ===================================================================== *)

Inductive json :=
| JNull
| JBool (b : bool)
| JInt (z : Z)
| JFloat (f : float)
| JStr (s : string)
| JArr (l : list json)
| JObj (kv : gmap string json).

Inductive exn_class :=
| TypeError
| AttributeError
| KeyError
| SqliteError        (* sqlite3.Error and its subclasses *)
| RequestException   (* requests.RequestException and its subclasses *)
| JSONDecodeError    (* json.JSONDecodeError *)
| OtherError.        (* any other subclass of Exception *)

Record exn := Exn { exn_cls : exn_class; exn_msg : string }.

(** [str(e)] *)
Definition str_exn (e : exn) : string := exn_msg e.

Inductive result (A : Type) :=
| Ok (a : A)
| Raise (e : exn).
Arguments Ok {A} a.
Arguments Raise {A} e.

(** The texts of the interpreter's own exceptions are those of CPython 3.11. *)
Definition type_name (v : json) : string :=
  match v with
  | JNull => "NoneType"
  | JBool _ => "bool"
  | JInt _ => "int"
  | JFloat _ => "float"
  | JStr _ => "str"
  | JArr _ => "list"
  | JObj _ => "dict"
  end.

(** [needle in hay] on two [str]: substring test. *)
Fixpoint str_contains (needle hay : string) : bool :=
  String.prefix needle hay ||
  match hay with
  | EmptyString => false
  | String _ hay' => str_contains needle hay'
  end.

(** [key in v] for a string [key]: key membership on a dict, element
    membership on a list, substring test on a str, [TypeError] otherwise. *)
Definition py_in (key : string) (v : json) : result bool :=
  match v with
  | JObj kv => Ok (bool_decide (is_Some (kv !! key)))
  | JArr l => Ok (existsb (fun x => match x with JStr s => String.eqb s key | _ => false end) l)
  | JStr s => Ok (str_contains key s)
  | _ => Raise (Exn TypeError ("argument of type '" +:+ type_name v +:+ "' is not iterable"))
  end.

(** [v[key]] for a string [key]. *)
Definition py_getitem (v : json) (key : string) : result json :=
  match v with
  | JObj kv =>
      match kv !! key with
      | Some x => Ok x
      | None => Raise (Exn KeyError key)
      end
  | JArr _ => Raise (Exn TypeError "list indices must be integers or slices, not str")
  | JStr _ => Raise (Exn TypeError "string indices must be integers, not 'str'")
  | _ => Raise (Exn TypeError ("'" +:+ type_name v +:+ "' object is not subscriptable"))
  end.

(** [v.get(key, dflt)]: only a dict has the method. *)
Definition py_get (v : json) (key : string) (dflt : json) : result json :=
  match v with
  | JObj kv => Ok (default dflt (kv !! key))
  | _ => Raise (Exn AttributeError ("'" +:+ type_name v +:+ "' object has no attribute 'get'"))
  end.

(** Truthiness of an optional string: [None] and [""] are falsy. *)
Definition truthy (s : option string) : bool :=
  match s with
  | Some (String _ _) => true
  | _ => false
  end.

(** [x is not None] *)
Definition is_not_None (v : json) : bool :=
  match v with
  | JNull => false
  | _ => true
  end.

(** The double quote character, as a string. *)
Definition dquote : string := String (Ascii.ascii_of_nat 34) EmptyString.

(** [f"{n}"] for an integer. *)
Definition str_int (n : Z) : string := NilZero.string_of_int (Z.to_int n).

(** [{"error": msg}] *)
Definition error_dict (msg : string) : json := JObj {[ "error" := JStr msg ]}.

(* ===================================================================== *)
(** ** config.py *)
(* ===================================================================== *)

Module config.

Record model_params := {
  temperature : float;
  max_tokens : Z;
  top_p : float;
  repeat_penalty : float;
}.

(** The values [config.py] reads from the process environment (each with
    the literal default of [default_settings] below). *)
Record settings := {
  OLLAMA_API_URL : string;
  DEFAULT_MODEL : string;
  LLAMA3 : model_params;
  MISTRAL : model_params;
  GEMMA : model_params;
}.

Definition MODEL_PARAMS (cfg : settings) : gmap string model_params :=
  <[ "llama3" := LLAMA3 cfg ]> (<[ "mistral" := MISTRAL cfg ]> (<[ "gemma" := GEMMA cfg ]> ∅)).

(** [config.py] with no environment variable set. *)
Definition default_settings : settings := {|
  OLLAMA_API_URL := "http://localhost:11434";
  DEFAULT_MODEL := "llama3";
  LLAMA3 := {| temperature := 0.7; max_tokens := 2048; top_p := 0.9; repeat_penalty := 1.1 |};
  MISTRAL := {| temperature := 0.72; max_tokens := 2048; top_p := 0.9; repeat_penalty := 1.1 |};
  GEMMA := {| temperature := 0.7; max_tokens := 2048; top_p := 0.9; repeat_penalty := 1.05 |};
|}.

End config.
Import config.

(** What [requests.get] / [requests.post] does for one call: it raises, or
    it returns a response with a status code, a text and what
    [response.json()] makes of the body. *)
Inductive http_outcome :=
| HttpRaises (e : exn)
| HttpResponse (status_code : Z) (text : string) (body : result json).

(** One line of a streamed body as [iter_lines] hands it over: empty, or
    with what [json.loads] makes of it. *)
Inductive wire_line :=
| Blank
| Line (loaded : result json).

(** What a streaming [requests.post] does: it raises, or it returns a
    response whose body is read line by line, the reading ending by itself
    or in an exception. *)
Inductive stream_outcome :=
| StreamRaises (e : exn)
| StreamResponse (status_code : Z) (lines : list wire_line) (broken : option exn).

(** The messages and the body of a request to [/api/chat]. *)
Record chat_message := {
  role : string;
  content : json;
}.

Record request_body := {
  rb_model : string;
  rb_messages : list chat_message;
  rb_stream : bool;
  rb_temperature : float;     (* options.temperature *)
  rb_num_predict : Z;         (* options.num_predict *)
}.

(* ===================================================================== *)
(** ** The world of a handler: database, environment, events *)
(* ===================================================================== *)

(** Rows of the tables [chats] and [messages] of [CREATE_TABLES_SQL]; a
    table is the list of its rows in insertion order. Timestamps are the
    instants that [datetime.now().isoformat()] prints (their text order,
    which SQLite sorts by, is the order of the instants). *)
Record chat_row := {
  c_id : string;
  c_title : string;
  c_model : string;
  c_created_at : Z;
  c_updated_at : Z;
}.

Record message_row := {
  m_id : string;
  m_chat_id : string;
  m_role : string;
  m_content : json;      (* a [JStr] in every row that [add_message] writes *)
  m_timestamp : Z;
}.

(** [tick] counts the database calls made so far; the [n]-th call draws
    its uuid, its clock reading and its luck from the environment. *)
Record world := {
  chats : list chat_row;
  messages : list message_row;
  tick : nat;
}.

Record environment := {
  uuid4 : nat -> string;               (* str(uuid.uuid4()) *)
  datetime_now : nat -> Z;             (* datetime.datetime.now() *)
  sqlite_fault : nat -> option string; (* a sqlite3.Error the call runs into *)
  real_text : float -> string;         (* the text SQLite stores for a REAL *)
}.

(** The frames of the event stream, [data: <json>\n\n] each. *)
Inductive frame :=
| FChatId (chat_id : string)        (* {"chat_id": ...} *)
| FContent (delta : string)         (* {"content": ...} *)
| FDone (message_id : string)       (* {"done": true, "message_id": ...} *)
| FError (error : json).            (* {"error": ...} *)

(** What a run does that can be observed from outside, in order. *)
Inductive event :=
| EvPost (url : string) (body : request_body)   (* requests.post *)
| EvInsertChat (row : chat_row)                 (* committed INSERT INTO chats *)
| EvInsertMessage (row : message_row)           (* committed INSERT INTO messages *)
| EvDeleteChat (chat_id : string)               (* committed DELETE FROM chats *)
| EvStorageError (fn : string) (e : exn)        (* logger.error of database.py *)
| EvYield (f : frame).                          (* a frame handed to the transport *)

Definition M (A : Type) : Type := world -> result A * world * list event.

Definition ret {A} (a : A) : M A := fun w => (Ok a, w, []).

Definition raise {A} (e : exn) : M A := fun w => (Raise e, w, []).

Definition bind {A B} (m : M A) (k : A -> M B) : M B := fun w =>
  match m w with
  | (Ok a, w1, evs1) =>
      match k a w1 with
      | (r, w2, evs2) => (r, w2, evs1 ++ evs2)
      end
  | (Raise e, w1, evs1) => (Raise e, w1, evs1)
  end.

(** [try: m except Exception as e: handler(e)] *)
Definition try_except {A} (m : M A) (handler : exn -> M A) : M A := fun w =>
  match m w with
  | (Ok a, w1, evs1) => (Ok a, w1, evs1)
  | (Raise e, w1, evs1) =>
      match handler e w1 with
      | (r, w2, evs2) => (r, w2, evs1 ++ evs2)
      end
  end.

Definition emit (ev : event) : M unit := fun w => (Ok tt, w, [ev]).

Definition lift {A} (r : result A) : M A :=
  match r with
  | Ok a => ret a
  | Raise e => raise e
  end.

Notation "x <- m ;; k" := (bind m (fun x => k))
  (at level 100, m at next level, right associativity, only parsing).
Notation "m ;; k" := (bind m (fun _ => k))
  (at level 100, right associativity, only parsing).

(** [yield f"data: {json.dumps(...)}\n\n"] *)
Definition yield (f : frame) : M unit := emit (EvYield f).

(* ===================================================================== *)
(** ** ollama_client.py *)
(* ===================================================================== *)

Module ollama_client.

Record models_cache_t := {
  timestamp : float;
  data : json;          (* JNull is Python's None *)
}.

Record OllamaClient := {
  api_url : string;
  models_cache : models_cache_t;
  models_cache_time : float;
}.

(** [OllamaClient.__init__] *)
Definition OllamaClient_init (cfg : settings) (url : option string) : OllamaClient := {|
  api_url := if truthy url then default "" url else OLLAMA_API_URL cfg;
  models_cache := {| timestamp := 0; data := JNull |};
  models_cache_time := 300;
|}.

(** How a call of [get_models] was served. *)
Inductive served :=
| FromCache
| Refreshed
| RefreshFailed.

Definition live_calls (s : served) : nat :=
  match s with
  | FromCache => 0
  | _ => 1
  end%nat.

(** The guard of the cache branch of [get_models]. *)
Definition cache_valid (self : OllamaClient) (current_time : float) : bool :=
  is_not_None (data (models_cache self)) &&
  PrimFloat.ltb (PrimFloat.sub current_time (timestamp (models_cache self))) (models_cache_time self).

Definition set_timestamp (self : OllamaClient) (t : float) : OllamaClient :=
  {| api_url := api_url self;
     models_cache := {| timestamp := t; data := data (models_cache self) |};
     models_cache_time := models_cache_time self |}.

Definition set_data (self : OllamaClient) (d : json) : OllamaClient :=
  {| api_url := api_url self;
     models_cache := {| timestamp := timestamp (models_cache self); data := d |};
     models_cache_time := models_cache_time self |}.

(** [OllamaClient.get_models]: [current_time] is what [time.time()] returns
    and [net] what [requests.get] does if it is called. *)
Definition get_models (self : OllamaClient) (force_refresh : bool)
    (current_time : float) (net : http_outcome) : json * OllamaClient * served :=
  if negb force_refresh && cache_valid self current_time then
    (data (models_cache self), self, FromCache)
  else
    match net with
    | HttpResponse status_code _ body =>
        if status_code =? 200 then
          let self1 := set_timestamp self current_time in
          match body with
          | Ok d => (d, set_data self1 d, Refreshed)
          | Raise e =>
              (error_dict ("Verbindungsfehler bei Modellabfrage: " +:+ str_exn e),
               self1, RefreshFailed)
          end
        else
          (error_dict ("Fehler beim Abrufen der Modelle: " +:+ str_int status_code),
           self, RefreshFailed)
    | HttpRaises e =>
        (error_dict ("Verbindungsfehler bei Modellabfrage: " +:+ str_exn e),
         self, RefreshFailed)
    end.

(** [MODEL_PARAMS.get(model, MODEL_PARAMS.get(DEFAULT_MODEL, {}))]; the
    empty dict is [None]. *)
Definition model_config (cfg : settings) (model : string) : option model_params :=
  match MODEL_PARAMS cfg !! model with
  | Some c => Some c
  | None => MODEL_PARAMS cfg !! DEFAULT_MODEL cfg
  end.

(** The first lines of [chat], [chat_stream] and [generate]: the defaults
    for the parameters the caller left at [None]. *)
Definition resolve_options (cfg : settings) (model : string)
    (temperature_arg : option float) (max_tokens_arg : option Z) : float * Z :=
  let model_config := model_config cfg model in
  let temperature :=
    match temperature_arg with
    | Some t => t
    | None => match model_config with Some c => temperature c | None => 0.7%float end
    end in
  let max_tokens :=
    match max_tokens_arg with
    | Some n => n
    | None => match model_config with Some c => max_tokens c | None => 2048 end
    end in
  (temperature, max_tokens).

Definition build_request (cfg : settings) (stream : bool) (model message : string)
    (history : list chat_message)
    (temperature_arg : option float) (max_tokens_arg : option Z) : request_body :=
  let '(temperature, max_tokens) := resolve_options cfg model temperature_arg max_tokens_arg in
  {| rb_model := model;
     rb_messages := history ++ [ {| role := "user"; content := JStr message |} ];
     rb_stream := stream;
     rb_temperature := temperature;
     rb_num_predict := max_tokens |}.

(** What [OllamaClient.chat] returns for what the request did: the
    decoded body of a 200 answer, an error dict for everything else. *)
Definition chat_result (net : http_outcome) : json :=
  match net with
  | HttpResponse status_code _ body =>
      if status_code =? 200 then
        match body with
        | Ok v => v
        | Raise e => error_dict ("Verbindungsfehler bei Chat-Anfrage: " +:+ str_exn e)
        end
      else error_dict ("Fehler bei der Chat-Anfrage: " +:+ str_int status_code)
  | HttpRaises e => error_dict ("Verbindungsfehler bei Chat-Anfrage: " +:+ str_exn e)
  end.

(** [OllamaClient.chat]: one blocking request. *)
Definition chat (cfg : settings) (self : OllamaClient) (model message : string)
    (history : list chat_message)
    (temperature_arg : option float) (max_tokens_arg : option Z)
    (net : http_outcome) : M json :=
  let request_body := build_request cfg false model message history temperature_arg max_tokens_arg in
  emit (EvPost (api_url self +:+ "/api/chat") request_body) ;;
  ret (chat_result net).

(** The loop over [response.iter_lines()]: the chunks it yields, and the
    exception that leaves the loop, if one does. The except clause inside
    the loop catches [json.JSONDecodeError] only, and it does not leave the
    loop. *)
Fixpoint stream_lines (lines : list wire_line) (broken : option exn) : list json * option exn :=
  match lines with
  | [] => ([], broken)
  | Blank :: rest => stream_lines rest broken
  | Line (Ok chunk) :: rest =>
      let '(chunks, leaving) := stream_lines rest broken in
      (chunk :: chunks, leaving)
  | Line (Raise e) :: rest =>
      match exn_cls e with
      | JSONDecodeError =>
          let '(chunks, leaving) := stream_lines rest broken in
          (error_dict ("Fehler beim Parsen der Antwort: " +:+ str_exn e) :: chunks, leaving)
      | _ => ([], Some e)
      end
  end.

(** The outer [except requests.RequestException] of [chat_stream]. *)
Definition catch_request_exception (r : list json * option exn) : list json * option exn :=
  match r with
  | (chunks, Some e) =>
      match exn_cls e with
      | RequestException =>
          (chunks ++ [error_dict ("Verbindungsfehler bei Stream-Anfrage: " +:+ str_exn e)], None)
      | _ => r
      end
  | _ => r
  end.

(** The chunks the generator [chat_stream] yields when it is run to its
    end, and the exception it ends in, if any. *)
Definition stream_chunks (net : stream_outcome) : list json * option exn :=
  catch_request_exception
    match net with
    | StreamRaises e => ([], Some e)
    | StreamResponse status_code lines broken =>
        if negb (status_code =? 200) then
          ([error_dict ("Fehler bei der Stream-Anfrage: " +:+ str_int status_code)], None)
        else stream_lines lines broken
    end.

(** [OllamaClient.chat_stream], started: the request goes out, the
    chunks come back. *)
Definition chat_stream (cfg : settings) (self : OllamaClient) (model message : string)
    (history : list chat_message)
    (temperature_arg : option float) (max_tokens_arg : option Z)
    (net : stream_outcome) : M (list json * option exn) :=
  let request_body := build_request cfg true model message history temperature_arg max_tokens_arg in
  emit (EvPost (api_url self +:+ "/api/chat") request_body) ;;
  ret (stream_chunks net).

(** The module's single instance. *)
Definition ollama_client (cfg : settings) : OllamaClient := OllamaClient_init cfg None.

End ollama_client.
Import ollama_client.

(* ===================================================================== *)
(** ** database.py *)
(* ===================================================================== *)

Module database.
Section Database.
Context (E : environment).

Definition chat_ids (w : world) : list string := c_id <$> chats w.

Definition message_ids (w : world) : list string := m_id <$> messages w.

(** What sqlite3 does with a Python value bound to the NOT NULL TEXT
    column [content]: it stores a text, it raises a [sqlite3.Error], or
    it raises [OverflowError], which is no [sqlite3.Error]. *)
Inductive binding :=
| Bound (text : string)
| Refused (msg : string)
| TooLarge.

(** A [str] is stored as it is; an [int] of 64 bits, a [bool] and a
    [float] are stored as their text (the column has TEXT affinity); an
    [int] beyond 64 bits cannot be converted; [None] and NaN (which
    SQLite takes for NULL) violate the constraint; a list or a dict
    cannot be bound. *)
Definition bind_content (v : json) : binding :=
  match v with
  | JStr s => Bound s
  | JBool b => Bound (if b then "1" else "0")
  | JInt n =>
      if (- 2 ^ 63 <=? n) && (n <? 2 ^ 63) then Bound (str_int n) else TooLarge
  | JFloat f =>
      if PrimFloat.is_nan f then Refused "NOT NULL constraint failed: messages.content"
      else Bound (real_text E f)
  | JNull => Refused "NOT NULL constraint failed: messages.content"
  | JArr _ | JObj _ =>
      Refused ("Error binding parameter 4: type '" +:+ type_name v +:+ "' is not supported")
  end.

(** The content a message is stored with. *)
Definition stored_content (v : json) : json :=
  match bind_content v with
  | Bound text => JStr text
  | _ => v
  end.

Definition next_tick (w : world) : world :=
  {| chats := chats w; messages := messages w; tick := S (tick w) |}.

(** The except branch of the writing functions: log, roll back, re-raise. *)
Definition fail_write {A} (fn msg : string) (w : world) : result A * world * list event :=
  let e := Exn SqliteError msg in
  (Raise e, next_tick w, [EvStorageError fn e]).

Definition create_chat (title model : string) : M string := fun w =>
  let chat_id := uuid4 E (tick w) in
  let now := datetime_now E (tick w) in
  match sqlite_fault E (tick w) with
  | Some msg => fail_write "create_chat" msg w
  | None =>
      if decide (chat_id ∈ chat_ids w) then
        fail_write "create_chat" "UNIQUE constraint failed: chats.id" w
      else
        let row := {| c_id := chat_id; c_title := title; c_model := model;
                      c_created_at := now; c_updated_at := now |} in
        (Ok chat_id,
         {| chats := chats w ++ [row]; messages := messages w; tick := S (tick w) |},
         [EvInsertChat row])
  end.

(** [UPDATE chats SET updated_at = ? WHERE id = ?] on one row *)
Definition touch (now : Z) (chat_id : string) (c : chat_row) : chat_row :=
  if decide (c_id c = chat_id) then
    {| c_id := c_id c; c_title := c_title c; c_model := c_model c;
       c_created_at := c_created_at c; c_updated_at := now |}
  else c.

(** Errors are logged and swallowed. *)
Definition update_chat_timestamp (chat_id : string) : M unit := fun w =>
  let now := datetime_now E (tick w) in
  match sqlite_fault E (tick w) with
  | Some msg =>
      (Ok tt, next_tick w, [EvStorageError "update_chat_timestamp" (Exn SqliteError msg)])
  | None =>
      (Ok tt,
       {| chats := touch now chat_id <$> chats w; messages := messages w; tick := S (tick w) |},
       [])
  end.

(** The INSERT of [add_message] and its commit. *)
Definition insert_message (chat_id role : string) (content : json) : M string := fun w =>
  let message_id := uuid4 E (tick w) in
  let now := datetime_now E (tick w) in
  match sqlite_fault E (tick w) with
  | Some msg => fail_write "add_message" msg w
  | None =>
      match bind_content content with
      | Refused msg => fail_write "add_message" msg w
      | TooLarge =>
          (* not caught by [except sqlite3.Error]: nothing is logged *)
          (Raise (Exn OtherError "Python int too large to convert to SQLite INTEGER"),
           next_tick w, [])
      | Bound text =>
          if decide (message_id ∈ message_ids w) then
            fail_write "add_message" "UNIQUE constraint failed: messages.id" w
          else if decide (chat_id ∈ chat_ids w) then
            let row := {| m_id := message_id; m_chat_id := chat_id; m_role := role;
                          m_content := JStr text; m_timestamp := now |} in
            (Ok message_id,
             {| chats := chats w; messages := messages w ++ [row]; tick := S (tick w) |},
             [EvInsertMessage row])
          else
            fail_write "add_message" "FOREIGN KEY constraint failed" w
      end
  end.

Definition add_message (chat_id role : string) (content : json) : M string :=
  message_id <- insert_message chat_id role content ;;
  update_chat_timestamp chat_id ;;
  ret message_id.

(** [ORDER BY timestamp]: rows with equal timestamps keep their
    insertion order, as the data model of the specification has it. *)
Fixpoint insert_by_timestamp (r : message_row) (l : list message_row) : list message_row :=
  match l with
  | [] => [r]
  | x :: l' =>
      if m_timestamp r <=? m_timestamp x then r :: l
      else x :: insert_by_timestamp r l'
  end.

Definition order_by_timestamp (l : list message_row) : list message_row :=
  foldr insert_by_timestamp [] l.

(** [SELECT * FROM messages WHERE chat_id = ? ORDER BY timestamp] *)
Definition select_messages (chat_id : string) (w : world) : list message_row :=
  order_by_timestamp (filter (fun m => m_chat_id m = chat_id) (messages w)).

(** [SELECT * FROM chats WHERE id = ?] and [fetchone] *)
Definition select_chat (chat_id : string) (w : world) : option chat_row :=
  find (fun c => bool_decide (c_id c = chat_id)) (chats w).

Definition get_chat_messages (chat_id : string) : M (list message_row) := fun w =>
  match sqlite_fault E (tick w) with
  | Some msg =>
      (Ok [], next_tick w, [EvStorageError "get_chat_messages" (Exn SqliteError msg)])
  | None => (Ok (select_messages chat_id w), next_tick w, [])
  end.

Definition get_chat (chat_id : string) : M (option (chat_row * list message_row)) := fun w =>
  match sqlite_fault E (tick w) with
  | Some msg => (Ok None, next_tick w, [EvStorageError "get_chat" (Exn SqliteError msg)])
  | None =>
      match select_chat chat_id w with
      | None => (Ok None, next_tick w, [])
      | Some chat => (Ok (Some (chat, select_messages chat_id w)), next_tick w, [])
      end
  end.

(** [DELETE FROM chats WHERE id = ?]; the messages of a deleted chat go
    with it (ON DELETE CASCADE). A statement that matches no row is no
    error. *)
Definition delete_chat (chat_id : string) : M bool := fun w =>
  match sqlite_fault E (tick w) with
  | Some msg => (Ok false, next_tick w, [EvStorageError "delete_chat" (Exn SqliteError msg)])
  | None =>
      (Ok true,
       {| chats := filter (fun c => c_id c ≠ chat_id) (chats w);
          messages := if decide (chat_id ∈ chat_ids w)
                      then filter (fun m => m_chat_id m ≠ chat_id) (messages w)
                      else messages w;
          tick := S (tick w) |},
       [EvDeleteChat chat_id])
  end.

End Database.
End database.
Import database.

(* ===================================================================== *)
(** ** server.py: the chat handlers *)
(* ===================================================================== *)

(** [generate] rebinds [chat_id] through a [nonlocal] declaration written
    after the first use of the name; it is read here as declared at the head
    of the generator. A [str] is the list of its characters. *)

Module server.

(** The JSON object of a request body, with the fields the handlers read;
    [None] is a missing key. *)
Record turn_request := {
  req_model : option string;
  req_message : option string;
  req_chat_id : option string;
  req_temperature : option float;
  req_max_tokens : option Z;
}.

(** The replies of [/api/chat]. *)
Inductive chat_reply :=
| Reply400 (error : string)
| Reply500 (error : json)
| ReplyOk (chat_id : string) (response : json) (message_id : string)
| ReplyWarning (warning : string) (response : json) (error : string).

(** The replies of [/api/chat/stream]: a rejection, or an event stream
    (whose frames are the [EvYield] events of the run). *)
Inductive stream_reply :=
| StreamReply400 (error : string)
| EventStream.

(** The replies of [GET] and [DELETE /api/chats/<chat_id>]. *)
Inductive chat_by_id_reply :=
| ChatFound (chat : chat_row) (messages : list message_row)
| ChatNotFound404 (error : string).

Inductive delete_reply :=
| DeleteOk (message : string)
| DeleteFailed500 (error : string).

Section Handlers.
Context (E : environment) (cfg : settings).

(** [message[:50] + ('...' if len(message) > 50 else '')] *)
Definition title_of (message : string) : string :=
  substring 0 50 message +:+ (if (50 <? String.length message)%nat then "..." else "").

(** The history the handlers load before the request goes out. *)
Definition load_history (chat_id : option string) : M (list chat_message) :=
  match chat_id with
  | Some (String _ _ as id) =>
      messages <- get_chat_messages E id ;;
      ret ((fun msg => {| role := m_role msg; content := m_content msg |}) <$> messages)
  | _ => ret []
  end.

(** [response.get("message", {}).get("content", "")] *)
Definition response_content (response : json) : result json :=
  match py_get response "message" (JObj ∅) with
  | Ok m => py_get m "content" (JStr "")
  | Raise e => Raise e
  end.

(** The try block of [chat]. *)
Definition store_turn (chat_id : option string) (model message : string)
    (response : json) : M chat_reply :=
  chat_id <- match chat_id with
             | Some (String _ _ as id) => ret id
             | _ => create_chat E (title_of message) model
             end ;;
  user_message_id <- add_message E chat_id "user" (JStr message) ;;
  assistant_content <- lift (response_content response) ;;
  assistant_message_id <- add_message E chat_id "assistant" assistant_content ;;
  ret (ReplyOk chat_id assistant_content assistant_message_id).

Definition chat (data : turn_request) (net : http_outcome) : M chat_reply :=
  match req_model data, req_message data with
  | Some model, Some message =>
      let chat_id := req_chat_id data in
      history <- load_history chat_id ;;
      response <- ollama_client.chat cfg (ollama_client cfg) model message history
                    (req_temperature data) (req_max_tokens data) net ;;
      has_error <- lift (py_in "error" response) ;;
      if has_error : bool then
        error <- lift (py_getitem response "error") ;;
        ret (Reply500 error)
      else
        try_except (store_turn chat_id model message response)
          (fun e =>
             assistant_content <- lift (response_content response) ;;
             ret (ReplyWarning "Antwort erhalten, aber Fehler beim Speichern"
                    assistant_content (str_exn e)))
  | _, _ => ret (Reply400 "Modell und Nachricht sind erforderlich")
  end.

(** ["message" in chunk and "content" in chunk["message"]] *)
Definition has_content (chunk : json) : result bool :=
  match py_in "message" chunk with
  | Ok true =>
      match py_getitem chunk "message" with
      | Ok m => py_in "content" m
      | Raise e => Raise e
      end
  | r => r
  end.

(** The for loop of [generate] over the chunks of the upstream stream,
    [leaving] being the exception the stream ends in, if any. The result
    is [None] when the loop is left by [return], and the accumulated text
    when it runs to its end. *)
Fixpoint relay (chunks : list json) (leaving : option exn) (full_response : string)
    : M (option string) :=
  match chunks with
  | [] =>
      match leaving with
      | Some e => raise e
      | None => ret (Some full_response)
      end
  | chunk :: rest =>
      is_error <- lift (py_in "error" chunk) ;;
      if is_error : bool then
        error <- lift (py_getitem chunk "error") ;;
        yield (FError error) ;;
        ret None
      else
        with_content <- lift (has_content chunk) ;;
        if with_content : bool then
          m <- lift (py_getitem chunk "message") ;;
          content <- lift (py_getitem m "content") ;;
          match content with
          | JStr delta =>
              (* full_response += content *)
              yield (FContent delta) ;;
              relay rest leaving (full_response +:+ delta)
          | _ =>
              raise (Exn TypeError ("can only concatenate str (not " +:+ dquote
                                    +:+ type_name content +:+ dquote +:+ ") to str"))
          end
        else relay rest leaving full_response
  end.

(** The first part of [generate]: the conversation and the user's
    message. *)
Definition open_turn (chat_id : option string) (model message : string) : M string :=
  match chat_id with
  | Some (String _ _ as id) =>
      add_message E id "user" (JStr message) ;;
      ret id
  | _ =>
      new_chat_id <- create_chat E (title_of message) model ;;
      add_message E new_chat_id "user" (JStr message) ;;
      yield (FChatId new_chat_id) ;;
      ret new_chat_id
  end.

(** The try block of [generate]. *)
Definition stream_turn (chat_id model message : string) (history : list chat_message)
    (temperature_arg : option float) (max_tokens_arg : option Z)
    (net : stream_outcome) : M unit :=
  stream <- chat_stream cfg (ollama_client cfg) model message history
              temperature_arg max_tokens_arg net ;;
  end_of_loop <- relay (fst stream) (snd stream) "" ;;
  match end_of_loop with
  | None => ret tt
  | Some full_response =>
      assistant_message_id <- add_message E chat_id "assistant" (JStr full_response) ;;
      yield (FDone assistant_message_id)
  end.

(** The except branch of [generate]. *)
Definition stream_failed (e : exn) : M unit := yield (FError (JStr (str_exn e))).

(** The generator [generate] of [stream_chat], run to its end. *)
Definition generate (chat_id : option string) (model message : string)
    (history : list chat_message)
    (temperature_arg : option float) (max_tokens_arg : option Z)
    (net : stream_outcome) : M unit :=
  chat_id <- open_turn chat_id model message ;;
  try_except
    (stream_turn chat_id model message history temperature_arg max_tokens_arg net)
    stream_failed.

Definition stream_chat (data : turn_request) (net : stream_outcome) : M stream_reply :=
  match req_model data, req_message data with
  | Some model, Some message =>
      let chat_id := req_chat_id data in
      history <- load_history chat_id ;;
      generate chat_id model message history (req_temperature data) (req_max_tokens data) net ;;
      ret EventStream
  | _, _ => ret (StreamReply400 "Modell und Nachricht sind erforderlich")
  end.

Definition get_chat_by_id (chat_id : string) : M chat_by_id_reply :=
  chat <- get_chat E chat_id ;;
  match chat with
  | Some (c, messages) => ret (ChatFound c messages)
  | None => ret (ChatNotFound404 "Chat nicht gefunden")
  end.

Definition delete_chat_by_id (chat_id : string) : M delete_reply :=
  success <- delete_chat E chat_id ;;
  if success : bool then ret (DeleteOk "Chat erfolgreich gelöscht")
  else ret (DeleteFailed500 "Fehler beim Löschen des Chats").

End Handlers.
End server.
Import server.

(* ===================================================================== *)
(** ** database.py: the list of conversations *)
(* ===================================================================== *)

Module chat_list.
Section ChatList.
Context (E : environment).

(** [ORDER BY updated_at DESC]: rows with equal [updated_at] keep their
    insertion order. *)
Fixpoint insert_by_updated_at (r : chat_row) (l : list chat_row) : list chat_row :=
  match l with
  | [] => [r]
  | x :: l' =>
      if c_updated_at x <=? c_updated_at r then r :: l
      else x :: insert_by_updated_at r l'
  end.

Definition order_by_updated_at_desc (l : list chat_row) : list chat_row :=
  foldr insert_by_updated_at [] l.

(** [get_all_chats]: an error is logged and answered with the empty
    list. *)
Definition get_all_chats : M (list chat_row) := fun w =>
  match sqlite_fault E (tick w) with
  | Some msg => (Ok [], next_tick w, [EvStorageError "get_all_chats" (Exn SqliteError msg)])
  | None => (Ok (order_by_updated_at_desc (chats w)), next_tick w, [])
  end.

(** [GET /api/chats]: [{"chats": chats}] *)
Definition get_chats : M (list chat_row) := get_all_chats.

End ChatList.
End chat_list.
Import chat_list.

(* ===================================================================== *)
(** ** database.py: the servers table *)
(* ===================================================================== *)

Module servers.

(** A row of the table [servers]; [is_default] is the INTEGER column. *)
Record server_row := {
  s_id : string;
  s_name : string;
  s_url : string;
  s_last_connected : Z;
  s_is_default : Z;
}.

(** No function of the chats and the messages touches the table
    [servers] and none of this table touches theirs: the table is followed
    on its own, [calls] counting the database calls made on it, each of
    which draws its uuid, its clock reading and its luck from the
    environment. *)
Record registry := {
  rows : list server_row;
  calls : nat;
}.

Section Servers.
Context (E : environment) (cfg : settings).

Definition server_ids (db : registry) : list string := s_id <$> rows db.

Definition next_call (db : registry) : registry :=
  {| rows := rows db; calls := S (calls db) |}.

(** [WHERE is_default = 1] *)
Definition is_default (s : server_row) : bool := s_is_default s =? 1.

(** [INSERT INTO servers ...] with the primary key checked. *)
Definition insert_server (row : server_row) (table : list server_row)
    : result (list server_row) :=
  if decide (s_id row ∈ s_id <$> table) then
    Raise (Exn SqliteError "UNIQUE constraint failed: servers.id")
  else Ok (table ++ [row]).

(** The row [add_default_server] inserts. *)
Definition default_server (db : registry) : server_row :=
  {| s_id := uuid4 E (calls db); s_name := "Lokaler Ollama-Server";
     s_url := OLLAMA_API_URL cfg; s_last_connected := datetime_now E (calls db);
     s_is_default := 1 |}.

(** [init_db], as far as the table [servers] goes: the local server is
    inserted as the default when the table holds no default; a
    [sqlite3.Error] is rolled back and raised again. *)
Definition init_db (db : registry) : result unit * registry :=
  match sqlite_fault E (calls db) with
  | Some msg => (Raise (Exn SqliteError msg), next_call db)
  | None =>
      if (length (filter is_default (rows db)) =? 0)%nat then
        match insert_server (default_server db) (rows db) with
        | Ok table => (Ok tt, {| rows := table; calls := S (calls db) |})
        | Raise e => (Raise e, next_call db)
        end
      else (Ok tt, next_call db)
  end.

(** [UPDATE servers SET is_default = 0] on one row *)
Definition unset_default (s : server_row) : server_row :=
  {| s_id := s_id s; s_name := s_name s; s_url := s_url s;
     s_last_connected := s_last_connected s; s_is_default := 0 |}.

(** [save_server]: the UPDATE and the INSERT are one transaction, rolled
    back as a whole when the INSERT fails. *)
Definition save_server (name url : string) (as_default : bool) (db : registry)
    : result string * registry :=
  let server_id := uuid4 E (calls db) in
  let now := datetime_now E (calls db) in
  match sqlite_fault E (calls db) with
  | Some msg => (Raise (Exn SqliteError msg), next_call db)
  | None =>
      let table := if as_default then unset_default <$> rows db else rows db in
      let row := {| s_id := server_id; s_name := name; s_url := url;
                    s_last_connected := now;
                    s_is_default := if as_default then 1 else 0 |} in
      match insert_server row table with
      | Ok table' => (Ok server_id, {| rows := table'; calls := S (calls db) |})
      | Raise e => (Raise e, next_call db)
      end
  end.

(** [get_default_server]: the first row with [is_default = 1], [None]
    when there is none and when the call fails. *)
Definition get_default_server (db : registry) : option server_row * registry :=
  match sqlite_fault E (calls db) with
  | Some _ => (None, next_call db)
  | None => (find is_default (rows db), next_call db)
  end.

(** [ORDER BY last_connected DESC]: rows with equal [last_connected] keep
    their insertion order. *)
Fixpoint insert_by_last_connected (r : server_row) (l : list server_row) : list server_row :=
  match l with
  | [] => [r]
  | x :: l' =>
      if s_last_connected x <=? s_last_connected r then r :: l
      else x :: insert_by_last_connected r l'
  end.

Definition order_by_last_connected_desc (l : list server_row) : list server_row :=
  foldr insert_by_last_connected [] l.

Definition get_all_servers (db : registry) : list server_row * registry :=
  match sqlite_fault E (calls db) with
  | Some _ => ([], next_call db)
  | None => (order_by_last_connected_desc (rows db), next_call db)
  end.

(** [UPDATE servers SET last_connected = ? WHERE id = ?] on one row *)
Definition reconnect (now : Z) (server_id : string) (s : server_row) : server_row :=
  if decide (s_id s = server_id) then
    {| s_id := s_id s; s_name := s_name s; s_url := s_url s;
       s_last_connected := now; s_is_default := s_is_default s |}
  else s.

(** [update_server_connection]: errors are logged and swallowed. *)
Definition update_server_connection (server_id : string) (db : registry) : registry :=
  match sqlite_fault E (calls db) with
  | Some _ => next_call db
  | None =>
      {| rows := reconnect (datetime_now E (calls db)) server_id <$> rows db;
         calls := S (calls db) |}
  end.

End Servers.
End servers.
Import servers.

(* ===================================================================== *)
(** ** server.py: the routes of the models and of the servers *)
(* ===================================================================== *)

Module routes.

(** The replies of [GET /api/models]. *)
Inductive models_reply :=
| Models200 (result : json)
| Models500 (error : json).

(** The port of a connect request: a str or an int, as the handler's
    docstring has it. *)
Inductive port_value :=
| PortStr (s : string)
| PortInt (n : Z).

(** The JSON object of the body of [POST /api/server/connect], with the
    fields the handler reads; [None] is a missing key. *)
Record connect_request := {
  conn_name : option string;
  conn_ip : option string;
  conn_port : option port_value;
  conn_is_default : option bool;
}.

(** The replies of [POST /api/server/connect]. *)
Inductive connect_reply :=
| Connect400 (error : string)
| ConnectFailed500 (error : json)                  (* {"success": false, "error": ...} *)
| Connected (server_id : string) (models : json).  (* {"success": true, ...} *)

(** The replies of [GET /api/server/default]. *)
Inductive default_server_reply :=
| DefaultServer (server : server_row)
| NoDefaultServer404 (error : string).

(** [c.lower()] for a character of [A-Z]; no other character lowers to a
    letter of ["true"]. *)
Definition lower_char (c : Ascii.ascii) : Ascii.ascii :=
  let n := Ascii.nat_of_ascii c in
  if ((65 <=? n) && (n <=? 90))%nat then Ascii.ascii_of_nat (n + 32) else c.

Fixpoint lower (s : string) : string :=
  match s with
  | EmptyString => EmptyString
  | String c s' => String (lower_char c) (lower s')
  end.

(** [request.args.get('force_refresh', 'false').lower() == 'true'] *)
Definition force_refresh_arg (arg : option string) : bool :=
  String.eqb (lower (default "false" arg)) "true".

(** [f"{port}"] *)
Definition port_text (port : port_value) : string :=
  match port with
  | PortStr s => s
  | PortInt n => str_int n
  end.

(** [f"http://{ip}:{port}"] *)
Definition server_url (ip : string) (port : port_value) : string :=
  "http://" +:+ ip +:+ ":" +:+ port_text port.

Section Routes.
Context (E : environment) (cfg : settings).

(** [GET /api/models], on the client [self] of the module:
    the reply, or the exception that leaves the handler, and the client
    after the call. *)
Definition get_models (arg : option string) (self : OllamaClient)
    (current_time : float) (net : http_outcome) : result models_reply * OllamaClient :=
  let force_refresh := force_refresh_arg arg in
  let answer := ollama_client.get_models self force_refresh current_time net in
  let result := answer.1.1 in
  let self' := answer.1.2 in
  match py_in "error" result with
  | Ok true =>
      match py_getitem result "error" with
      | Ok error => (Ok (Models500 error), self')
      | Raise e => (Raise e, self')
      end
  | Ok false => (Ok (Models200 result), self')
  | Raise e => (Raise e, self')
  end.

(** [POST /api/server/connect]: the listing is asked of a client made for
    the occasion, whose cache is empty. *)
Definition connect_server (data : connect_request) (current_time : float)
    (net : http_outcome) (db : registry) : connect_reply * registry :=
  match conn_name data, conn_ip data, conn_port data with
  | Some name, Some ip, Some port =>
      let as_default := default false (conn_is_default data) in
      let url := server_url ip port in
      let test_client := OllamaClient_init cfg (Some url) in
      let result := (ollama_client.get_models test_client false current_time net).1.1 in
      match py_in "error" result with
      | Ok true =>
          match py_getitem result "error" with
          | Ok error => (ConnectFailed500 error, db)
          | Raise e => (ConnectFailed500 (JStr (str_exn e)), db)
          end
      | Ok false =>
          match save_server E name url as_default db with
          | (Ok server_id, db') => (Connected server_id result, db')
          | (Raise e, db') => (ConnectFailed500 (JStr (str_exn e)), db')
          end
      | Raise e => (ConnectFailed500 (JStr (str_exn e)), db)
      end
  | _, _, _ => (Connect400 "Name, IP-Adresse und Port sind erforderlich", db)
  end.

(** [GET /api/servers]: [{"servers": servers}] *)
Definition get_servers (db : registry) : list server_row * registry :=
  get_all_servers E db.

(** [GET /api/server/default] *)
Definition get_default_server_info (db : registry) : default_server_reply * registry :=
  match get_default_server E db with
  | (Some server, db') => (DefaultServer server, db')
  | (None, db') => (NoDefaultServer404 "Kein Standard-Server gefunden", db')
  end.

End Routes.
End routes.

(* ===================================================================== *)
(** ** ollama_client.py: the other calls of the client *)
(* ===================================================================== *)

Module ollama_calls.

(** The body of a request to [/api/generate]. *)
Record generate_body := {
  gb_model : string;
  gb_prompt : string;
  gb_stream : bool;
  gb_temperature : float;     (* options.temperature *)
  gb_num_predict : Z;         (* options.num_predict *)
}.

(** The body of a request to [/api/embeddings]. *)
Record embed_body := {
  eb_model : string;
  eb_prompt : string;
}.

(** [OllamaClient._check_connection], for what [requests.get] does. *)
Definition _check_connection (net : http_outcome) : bool :=
  match net with
  | HttpResponse status_code _ _ => status_code =? 200
  | HttpRaises _ => false
  end.

(** What a blocking call returns for what its request did, [failed] and
    [unreachable] being the texts of its two error messages. *)
Definition call_result (failed unreachable : string) (net : http_outcome) : json :=
  match net with
  | HttpResponse status_code _ body =>
      if status_code =? 200 then
        match body with
        | Ok v => v
        | Raise e => error_dict (unreachable +:+ str_exn e)
        end
      else error_dict (failed +:+ str_int status_code)
  | HttpRaises e => error_dict (unreachable +:+ str_exn e)
  end.

(** [OllamaClient.generate]: the URL and the body posted, and the
    result. *)
Definition generate (cfg : settings) (self : OllamaClient) (model prompt : string)
    (temperature_arg : option float) (max_tokens_arg : option Z)
    (net : http_outcome) : string * generate_body * json :=
  let '(temperature, max_tokens) := resolve_options cfg model temperature_arg max_tokens_arg in
  let request_body :=
    {| gb_model := model; gb_prompt := prompt; gb_stream := false;
       gb_temperature := temperature; gb_num_predict := max_tokens |} in
  (api_url self +:+ "/api/generate", request_body,
   call_result "Fehler bei der Generierungsanfrage: "
     "Verbindungsfehler bei Generierungsanfrage: " net).

(** [OllamaClient.embed] *)
Definition embed (self : OllamaClient) (model text : string)
    (net : http_outcome) : string * embed_body * json :=
  (api_url self +:+ "/api/embeddings", {| eb_model := model; eb_prompt := text |},
   call_result "Fehler bei der Embedding-Anfrage: "
     "Verbindungsfehler bei Embedding-Anfrage: " net).

End ollama_calls.

(* ===================================================================== *)
(** ** qr_handler.py *)
(* ===================================================================== *)

Module qr_handler.

(** The values of [config.py] that [qr_handler.py] imports. *)
Record qr_settings := {
  LOCAL_IP : string;
  SERVER_PORT : Z;
  OLLAMA_API_PORT : Z;
  QRCODE_ERROR_CORRECTION : string;
  QRCODE_BOX_SIZE : Z;
  QRCODE_BORDER : Z;
}.

Inductive error_level :=
| ERROR_CORRECT_L
| ERROR_CORRECT_M
| ERROR_CORRECT_Q
| ERROR_CORRECT_H.

(** *** [str] and [int] of the interpreter

    [limit] is [sys.get_int_max_str_digits()]: the longest decimal text
    an [int] is converted to or from, [0] when there is no limit (as in
    the interpreters before the limit was introduced). *)

Definition exceeds (limit digits : nat) : bool := ((0 <? limit) && (limit <? digits))%nat.

(** [str(n)] *)
Definition py_str_int (limit : nat) (n : Z) : result string :=
  if exceeds limit (String.length (str_int (Z.abs n))) then
    Raise (Exn OtherError
             ("Exceeds the limit (" +:+ str_int (Z.of_nat limit)
              +:+ " digits) for integer string conversion; "
              +:+ "use sys.set_int_max_str_digits() to increase the limit"))
  else Ok (str_int n).

(** The characters [int] skips around a literal, among those below 256. *)
Definition is_space (c : Ascii.ascii) : bool :=
  let n := Ascii.nat_of_ascii c in
  (((9 <=? n) && (n <=? 13)) || (n =? 32) || (n =? 133) || (n =? 160))%nat.

Definition is_digit (c : Ascii.ascii) : bool :=
  let n := Ascii.nat_of_ascii c in ((48 <=? n) && (n <=? 57))%nat.

Definition is_char (k : nat) (c : Ascii.ascii) : bool := (Ascii.nat_of_ascii c =? k)%nat.

Fixpoint skip_space (s : string) : string :=
  match s with
  | String c s' => if is_space c then skip_space s' else s
  | EmptyString => s
  end.

Fixpoint all_space (s : string) : bool :=
  match s with
  | String c s' => is_space c && all_space s'
  | EmptyString => true
  end.

(** The digits of a decimal literal, single underscores between digits
    allowed, up to the white space that ends the text: their number, or
    [None] when the text is no literal. *)
Fixpoint literal_digits (after_digit : bool) (s : string) : option nat :=
  match s with
  | EmptyString => if after_digit then Some 0%nat else None
  | String c s' =>
      if is_digit c then S <$> literal_digits true s'
      else if is_char 95 c then
        if after_digit then literal_digits false s' else None
      else if after_digit && all_space s then Some 0%nat
      else None
  end.

(** Whether [int(s)] takes the text [s]: white space, an optional sign,
    a literal, white space. *)
Definition int_literal (limit : nat) (s : string) : bool :=
  let unsigned :=
    match skip_space s with
    | String c s' => if is_char 43 c || is_char 45 c then s' else String c s'
    | EmptyString => EmptyString
    end in
  match literal_digits false unsigned with
  | Some digits => negb (exceeds limit digits)
  | None => false
  end.

(** What [int(v)] does: it returns, it raises [ValueError], or it raises
    something else. *)
Inductive int_outcome :=
| IntOk
| IntValueError
| IntRaises (e : exn).

Definition py_int (limit : nat) (v : json) : int_outcome :=
  match v with
  | JInt _ | JBool _ => IntOk
  | JFloat f =>
      if PrimFloat.is_nan f then IntValueError
      else if PrimFloat.is_infinity f then
        IntRaises (Exn OtherError "cannot convert float infinity to integer")
      else IntOk
  | JStr s => if int_literal limit s then IntOk else IntValueError
  | JNull | JArr _ | JObj _ =>
      IntRaises (Exn TypeError
                   ("int() argument must be a string, a bytes-like object or a real number, not '"
                    +:+ type_name v +:+ "'"))
  end.

(** [x or y] on an optional string *)
Definition or_else (x : option string) (y : string) : string :=
  if truthy x then default y x else y.

Section QrHandler.
Context (cfg : qr_settings) (limit : nat).

(** What [qrcode] and the image library make of the data: the base64
    text of the PNG, or the exception they raise. *)
Context (png_base64 : json -> error_level -> Z -> Z -> result string).

Definition connection_data (type name ip port : string) : json :=
  JObj (<[ "type" := JStr type ]> (<[ "name" := JStr name ]>
       (<[ "ip" := JStr ip ]> (<[ "port" := JStr port ]> ∅)))).

Definition create_connection_data (server_name ip_address : option string) (port : option Z)
    : result json :=
  let server_name := default ("Ollama-Server (" +:+ LOCAL_IP cfg +:+ ")") server_name in
  let ip_address := default (LOCAL_IP cfg) ip_address in
  let port := default (OLLAMA_API_PORT cfg) port in
  match py_str_int limit port with
  | Ok port_text => Ok (connection_data "ollama_server" server_name ip_address port_text)
  | Raise e => Raise e
  end.

(** [ERROR_CORRECTION_LEVELS.get(error_correction.upper(), ERROR_CORRECT_H)] *)
Definition level_of (error_correction : string) : error_level :=
  match error_correction with
  | "L" | "l" => ERROR_CORRECT_L
  | "M" | "m" => ERROR_CORRECT_M
  | "Q" | "q" => ERROR_CORRECT_Q
  | _ => ERROR_CORRECT_H
  end.

(** [generate_qr_code] with the defaults of the configuration: the
    exception of the library is logged and raised again. *)
Definition generate_qr_code (data : json) : result (string * json) :=
  match png_base64 data (level_of (QRCODE_ERROR_CORRECTION cfg))
          (QRCODE_BOX_SIZE cfg) (QRCODE_BORDER cfg) with
  | Ok img_str => Ok ("data:image/png;base64," +:+ img_str, data)
  | Raise e => Raise e
  end.

Definition generate_server_qr (server_name custom_ip : option string)
    : result (string * json) :=
  match create_connection_data server_name (Some (or_else custom_ip (LOCAL_IP cfg)))
          (Some (OLLAMA_API_PORT cfg)) with
  | Ok server_data => generate_qr_code server_data
  | Raise e => Raise e
  end.

Definition generate_backend_qr (server_name custom_ip : option string)
    : result (string * json) :=
  match py_str_int limit (SERVER_PORT cfg) with
  | Ok port_text =>
      generate_qr_code
        (connection_data "ollama_backend"
           (or_else server_name ("Ollama-Backend (" +:+ LOCAL_IP cfg +:+ ")"))
           (or_else custom_ip (LOCAL_IP cfg)) port_text)
  | Raise e => Raise e
  end.

(** [all(field in qr_data for field in fields)] *)
Fixpoint all_in (fields : list string) (qr_data : json) : result bool :=
  match fields with
  | [] => Ok true
  | field :: rest =>
      match py_in field qr_data with
      | Ok true => all_in rest qr_data
      | r => r
      end
  end.

(** [qr_data["type"] in ["ollama_server", "ollama_backend"]] *)
Definition known_type (t : json) : bool :=
  match t with
  | JStr s => String.eqb s "ollama_server" || String.eqb s "ollama_backend"
  | _ => false
  end.

Definition verify_qr_data (qr_data : json) : result bool :=
  match all_in ["type"; "ip"; "port"] qr_data with
  | Ok true =>
      match py_getitem qr_data "type" with
      | Ok t =>
          if known_type t then
            match py_getitem qr_data "port" with
            | Ok port =>
                match py_int limit port with
                | IntOk => Ok true
                | IntValueError => Ok false
                | IntRaises e => Raise e
                end
            | Raise e => Raise e
            end
          else Ok false
      | Raise e => Raise e
      end
  | r => r
  end.

(** The replies of [/api/qrcode/server] and [/api/qrcode/backend]. *)
Inductive qrcode_reply :=
| QrCode (qrcode : string) (server : json)
| QrFailed500 (error : string).

Definition qrcode_route (generated : result (string * json)) : qrcode_reply :=
  match generated with
  | Ok (qr_code, server_data) => QrCode qr_code server_data
  | Raise e => QrFailed500 ("QR-Code konnte nicht generiert werden: " +:+ str_exn e)
  end.

(** [generate_server_qrcode] and [generate_backend_qrcode], for the name
    and the ip of the query string or of the body. *)
Definition generate_server_qrcode (server_name custom_ip : option string) : qrcode_reply :=
  qrcode_route (generate_server_qr server_name custom_ip).

Definition generate_backend_qrcode (server_name custom_ip : option string) : qrcode_reply :=
  qrcode_route (generate_backend_qr server_name custom_ip).

End QrHandler.
End qr_handler.

(* ===================================================================== *)
(** ** The vocabulary of the properties *)
(* ===================================================================== *)

(** *** Generation parameters *)

(** The precedence as the specification words it: the explicit request
    value, else the per-model configured default, else the configured
    default of the global default model ([fallback] when that model has
    no configuration either). *)
Definition spec_precedence {A} (explicit per_model global_default : option A) (fallback : A) : A :=
  match explicit, per_model, global_default with
  | Some x, _, _ => x
  | None, Some x, _ => x
  | None, None, Some x => x
  | None, None, None => fallback
  end.

(** *** The metadata cache *)

(** A refresh that fails the way the specification lists: the server
    answers with a status other than 200, or the request raises. *)
Definition refresh_fails (net : http_outcome) : Prop :=
  match net with
  | HttpResponse status_code _ _ => status_code ≠ 200
  | HttpRaises _ => True
  end.

(** An error dict made by [get_models] (as opposed to a snapshot). *)
Definition is_error_result (v : json) : Prop := ∃ msg, v = error_dict msg.

(** *** The chunks of the streaming client *)

(** A chunk that carries an error, by the test of the relay. *)
Definition carries_error (chunk : json) : Prop := py_in "error" chunk = Ok true.

(** The chunk a line of the body gives. *)
Definition chunk_of_line (l : wire_line) : option json :=
  match l with
  | Blank => None
  | Line (Ok chunk) => Some chunk
  | Line (Raise e) => Some (error_dict ("Fehler beim Parsen der Antwort: " +:+ str_exn e))
  end.

(** A line that [json.loads] takes, or refuses with a
    [json.JSONDecodeError]. *)
Definition parses_or_malformed (l : wire_line) : Prop :=
  match l with
  | Line (Raise e) => exn_cls e = JSONDecodeError
  | _ => True
  end.

(** A chunk sequence closed by its one error chunk, as the specification
    words it for a call with a malformed line: exactly one error chunk, and
    nothing after it. *)
Definition closed_by_error_chunk (net : stream_outcome) : Prop :=
  ∃ before bad,
    (stream_chunks net).1 = before ++ [bad]
    ∧ carries_error bad
    ∧ Forall (fun chunk => ¬ carries_error chunk) before.

(** A chunk of the wire contract: a JSON object whose [message], if it has
    one, is an object whose [content], if it has one, is a string. *)
Definition wire_chunk (chunk : json) : Prop :=
  match chunk with
  | JObj kv =>
      match kv !! "message" with
      | None => True
      | Some (JObj m) =>
          match m !! "content" with
          | None | Some (JStr _) => True
          | Some _ => False
          end
      | Some _ => False
      end
  | _ => False
  end.

(** The content delta of a chunk of the wire contract. *)
Definition delta_of (chunk : json) : option string :=
  match chunk with
  | JObj kv =>
      match kv !! "message" with
      | Some (JObj m) =>
          match m !! "content" with
          | Some (JStr delta) => Some delta
          | _ => None
          end
      | _ => None
      end
  | _ => None
  end.

(** *** The events of a run *)

(** The requests sent to the upstream server. *)
Definition posts (evs : list event) : list request_body :=
  omap (fun ev => match ev with EvPost _ body => Some body | _ => None end) evs.

(** The frames handed to the caller. *)
Definition frames (evs : list event) : list frame :=
  omap (fun ev => match ev with EvYield f => Some f | _ => None end) evs.

(** The conversations and the messages written. *)
Definition inserted_chats (evs : list event) : list chat_row :=
  omap (fun ev => match ev with EvInsertChat row => Some row | _ => None end) evs.

Definition inserted_messages (evs : list event) : list message_row :=
  omap (fun ev => match ev with EvInsertMessage row => Some row | _ => None end) evs.

Definition is_assistant (row : message_row) : Prop := m_role row = "assistant".

Definition assistant_messages (evs : list event) : list message_row :=
  filter is_assistant (inserted_messages evs).

(** The writes that failed: the errors [create_chat] and [add_message]
    log before they re-raise them. *)
Definition failed_writes (evs : list event) : list exn :=
  omap (fun ev => match ev with
                  | EvStorageError fn e =>
                      if bool_decide (fn = "create_chat" ∨ fn = "add_message") then Some e else None
                  | _ => None
                  end) evs.

(** Events that are neither a request, a write, a failed write nor a
    frame: the logged errors of the functions that swallow them. *)
Definition quiet (evs : list event) : Prop :=
  Forall (fun ev => match ev with
                    | EvStorageError fn _ => fn ≠ "create_chat" ∧ fn ≠ "add_message"
                    | _ => False
                    end) evs.

(** The frames of a list of content deltas. *)
Definition content_events (deltas : list string) : list event :=
  (fun delta => EvYield (FContent delta)) <$> deltas.

(** *** The frames, by kind *)

Definition chat_id_frames (fs : list frame) : list string :=
  omap (fun f => match f with FChatId chat_id => Some chat_id | _ => None end) fs.

Definition content_deltas (fs : list frame) : list string :=
  omap (fun f => match f with FContent delta => Some delta | _ => None end) fs.

Definition done_frames (fs : list frame) : list string :=
  omap (fun f => match f with FDone message_id => Some message_id | _ => None end) fs.

Definition error_frames (fs : list frame) : list json :=
  omap (fun f => match f with FError error => Some error | _ => None end) fs.

(** The concatenation of a list of strings, in order. *)
Definition join (l : list string) : string := foldr String.append "" l.

(** *** The database *)

(** Referential integrity: every message belongs to a stored chat. *)
Definition db_wf (w : world) : Prop :=
  ∀ m, m ∈ messages w → m_chat_id m ∈ chat_ids w.

(** A chat list in which the rows of one chat may have had their
    [updated_at] refreshed. *)
Definition refreshed (chat_id : string) (cs cs' : list chat_row) : Prop :=
  cs' = cs ∨ ∃ now, cs' = touch now chat_id <$> cs.

(** *** A turn *)

(** The way a turn reaches the upstream server. *)
Inductive upstream :=
| Blocking (net : http_outcome)
| Streaming (net : stream_outcome).

(** A first turn that completes, and what the caller learns from it:
    the blocking handler answers with the conversation id, the text and
    the id of the assistant message; the streaming handler announces the
    conversation id, forwards the text in deltas and closes with a done
    frame carrying the id of the assistant message. *)
Definition completes (E : environment) (cfg : settings)
    (mode : upstream) (data : turn_request) (w w' : world)
    (evs : list event) (chat_id : string) (text : json) (message_id : string) : Prop :=
  match mode with
  | Blocking net =>
      server.chat E cfg data net w = (Ok (ReplyOk chat_id text message_id), w', evs)
  | Streaming net =>
      stream_chat E cfg data net w = (Ok EventStream, w', evs)
      ∧ chat_id_frames (frames evs) = [chat_id]
      ∧ done_frames (frames evs) = [message_id]
      ∧ text = JStr (join (content_deltas (frames evs)))
  end.

(** The events of a turn, whatever its outcome. *)
Definition turn_events (E : environment) (cfg : settings)
    (mode : upstream) (data : turn_request) (w : world) : list event :=
  match mode with
  | Blocking net => (server.chat E cfg data net w).2
  | Streaming net => (stream_chat E cfg data net w).2
  end.

(** *** Lists and histories *)

(** A list of conversations with the most recently updated first. *)
Definition newest_first (l : list chat_row) : Prop :=
  StronglySorted (fun a b => c_updated_at b ≤ c_updated_at a) l.

(** A list of servers with the most recently connected first. *)
Definition latest_connection_first (l : list server_row) : Prop :=
  StronglySorted (fun a b => s_last_connected b ≤ s_last_connected a) l.

(** The stored messages as the upstream request carries them. *)
Definition as_history (l : list message_row) : list chat_message :=
  (fun msg => {| role := m_role msg; content := m_content msg |}) <$> l.

(** The history a follow-up turn of conversation [id] sends upstream from
    the tables [w]: the messages of the conversation in the order of
    their timestamps, or nothing when the read fails. *)
Definition conversation_so_far (E : environment) (id : string) (w : world) : list chat_message :=
  match sqlite_fault E (tick w) with
  | Some _ => []
  | None => as_history (select_messages id w)
  end.

(** *** The servers table *)

(** The rows [get_default_server] chooses from. *)
Definition defaults (db : registry) : list server_row := filter is_default (rows db).

(** The calls of [database.py] on the table [servers]. *)
Inductive registry_call :=
| CallInitDb
| CallSaveServer (name url : string) (as_default : bool)
| CallUpdateServerConnection (server_id : string)
| CallGetDefaultServer
| CallGetAllServers.

(** The table after one call, and after a sequence of calls. *)
Definition after_call (E : environment) (cfg : settings)
    (db : registry) (c : registry_call) : registry :=
  match c with
  | CallInitDb => (init_db E cfg db).2
  | CallSaveServer name url as_default => (save_server E name url as_default db).2
  | CallUpdateServerConnection server_id => update_server_connection E server_id db
  | CallGetDefaultServer => (get_default_server E db).2
  | CallGetAllServers => (get_all_servers E db).2
  end.

Definition after_calls (E : environment) (cfg : settings)
    (db : registry) (cs : list registry_call) : registry :=
  foldl (after_call E cfg) db cs.

(** The rows stored under a URL. *)
Definition stored_under (url : string) (db : registry) : list server_row :=
  filter (fun s => s_url s = url) (rows db).

(** *** The connect request *)

(** The three required fields of a connect request, when all are there. *)
Definition conn_name_ip_port (data : routes.connect_request)
    : option (string * string * routes.port_value) :=
  match routes.conn_name data, routes.conn_ip data, routes.conn_port data with
  | Some name, Some ip, Some port => Some (name, ip, port)
  | _, _, _ => None
  end.

(** *** The calls of the client *)

(** A request that did not bring back a decoded body: it raised, it was
    answered with a status other than 200, or the body of the answer
    does not decode. *)
Definition request_failed (net : http_outcome) : Prop :=
  match net with
  | HttpResponse 200 _ (Ok _) => False
  | _ => True
  end.

(** A streaming request the transport breaks, when it is opened or
    while the body is read. *)
Definition transport_breaks (net : stream_outcome) (e : exn) : Prop :=
  exn_cls e = RequestException
  ∧ match net with
    | StreamRaises e' => e' = e
    | StreamResponse status_code _ broken => status_code = 200 ∧ broken = Some e
    end.

(** The lines of the body of a streaming request. *)
Definition body_lines (net : stream_outcome) : list wire_line :=
  match net with
  | StreamRaises _ => []
  | StreamResponse _ lines _ => lines
  end.

(* ===================================================================== *)
(** ** Concrete environments and inputs *)
(* ===================================================================== *)

Module examples.

(** Ids ["uuid-0"], ["uuid-1"], ...; a clock that advances by one per
    reading; a database that never fails. *)
Definition E0 : environment := {|
  uuid4 := fun n => "uuid-" +:+ str_int (Z.of_nat n);
  datetime_now := fun n => Z.of_nat n;
  sqlite_fault := fun _ => None;
  real_text := fun f => if PrimFloat.eqb f 1.5 then "1.5" else "0.0";
|}.

(** The same, with the database failing at its [k]-th call. *)
Definition E_fault (k : nat) : environment := {|
  uuid4 := uuid4 E0;
  datetime_now := datetime_now E0;
  sqlite_fault := fun n => if (n =? k)%nat then Some "database is locked" else None;
  real_text := real_text E0;
|}.

Definition w0 : world := {| chats := []; messages := []; tick := 0 |}.

(** [{"message": {"content": s}}] and the terminal [{"done": true}] *)
Definition content_chunk (s : string) : json :=
  JObj {[ "message" := JObj {[ "content" := JStr s ]} ]}.

Definition done_chunk : json := JObj {[ "done" := JBool true ]}.

Definition bad_line : wire_line := Line (Raise (Exn JSONDecodeError "Expecting value")).

(** [{model: "llama3", message: "Hello"}] *)
Definition hello : turn_request := {|
  req_model := Some "llama3";
  req_message := Some "Hello";
  req_chat_id := None;
  req_temperature := None;
  req_max_tokens := None;
|}.

Definition hi_there : stream_outcome :=
  StreamResponse 200
    [Line (Ok (content_chunk "Hi")); Line (Ok (content_chunk " there")); Line (Ok done_chunk)]
    None.

Definition snapshot : json := JObj {[ "models" := JArr [JStr "llama3"] ]}.

(** A content chunk, then a line that does not parse, then more content. *)
Definition broken_stream : stream_outcome :=
  StreamResponse 200
    [Line (Ok (content_chunk "Hi")); bad_line; Line (Ok (content_chunk " there"))] None.

(** The whole answer in one blocking response. *)
Definition hi_there_blocking : http_outcome :=
  HttpResponse 200 "" (Ok (content_chunk "Hi there")).

(** The tables after the turn [hello], answered ["Hi there"]. *)
Definition w_hello : world := {|
  chats := [ {| c_id := "uuid-0"; c_title := "Hello"; c_model := "llama3";
                c_created_at := 0; c_updated_at := 4 |} ];
  messages := [ {| m_id := "uuid-1"; m_chat_id := "uuid-0"; m_role := "user";
                   m_content := JStr "Hello"; m_timestamp := 1 |};
                {| m_id := "uuid-3"; m_chat_id := "uuid-0"; m_role := "assistant";
                   m_content := JStr "Hi there"; m_timestamp := 3 |} ];
  tick := 5;
|}.

(** An upstream server that is down, and one that answers with a page
    that is no JSON. *)
Definition unavailable : http_outcome :=
  HttpResponse 503 "Service Unavailable" (Raise (Exn JSONDecodeError "Expecting value")).

Definition not_json : http_outcome :=
  HttpResponse 200 "<html>" (Raise (Exn JSONDecodeError "Expecting value")).

(** A second message in the conversation of [w_hello]. *)
Definition hello_again : turn_request := {|
  req_model := Some "llama3";
  req_message := Some "And you?";
  req_chat_id := Some "uuid-0";
  req_temperature := None;
  req_max_tokens := None;
|}.

(** The table [servers] before [init_db], and after it. *)
Definition db_empty : registry := {| rows := []; calls := 0 |}.

Definition db_local : registry := {|
  rows := [ {| s_id := "uuid-0"; s_name := "Lokaler Ollama-Server";
               s_url := "http://localhost:11434"; s_last_connected := 0;
               s_is_default := 1 |} ];
  calls := 1;
|}.

(** [{name: "LAN", ip: "192.168.0.5", port: 11434, is_default: true}] *)
Definition connect_lan : routes.connect_request := {|
  routes.conn_name := Some "LAN";
  routes.conn_ip := Some "192.168.0.5";
  routes.conn_port := Some (routes.PortInt 11434);
  routes.conn_is_default := Some true;
|}.

(** A server that answers the listing. *)
Definition listing : http_outcome := HttpResponse 200 "{...}" (Ok snapshot).

(** [config.py] with no environment variable set, on a host whose local
    address is 192.168.0.2, and an image library that returns. *)
Definition qr_defaults : qr_handler.qr_settings := {|
  qr_handler.LOCAL_IP := "192.168.0.2";
  qr_handler.SERVER_PORT := 5000;
  qr_handler.OLLAMA_API_PORT := 11434;
  qr_handler.QRCODE_ERROR_CORRECTION := "H";
  qr_handler.QRCODE_BOX_SIZE := 10;
  qr_handler.QRCODE_BORDER := 4;
|}.

Definition png_stub (data : json) (level : qr_handler.error_level) (box_size border : Z)
    : result string :=
  Ok "iVBORw0KGgo=".

(** The environment [E0] with a clock that is set back between its
    readings. *)
Definition E_back : environment := {|
  uuid4 := uuid4 E0;
  datetime_now := fun n => 100 - Z.of_nat n;
  sqlite_fault := sqlite_fault E0;
  real_text := real_text E0;
|}.

End examples.

Import examples.

(* ===================================================================== *)
(** ** Generation parameters *)
(* ===================================================================== *)

Section GenerationParameters.
Context (cfg : settings).

Lemma model_config_cases (model : string) :
  model_config cfg model = MODEL_PARAMS cfg !! model ∧ is_Some (MODEL_PARAMS cfg !! model)
  ∨ model_config cfg model = MODEL_PARAMS cfg !! DEFAULT_MODEL cfg ∧ MODEL_PARAMS cfg !! model = None.
Proof.
  unfold model_config.
  destruct (MODEL_PARAMS cfg !! model) as [c|] eqn:Hm; [left|right]; eauto.
Qed.

Lemma resolve_options_precedence (model : string) (t_arg : option float) (n_arg : option Z) :
  resolve_options cfg model t_arg n_arg =
    (spec_precedence t_arg (temperature <$> MODEL_PARAMS cfg !! model)
       (temperature <$> MODEL_PARAMS cfg !! DEFAULT_MODEL cfg) 0.7%float,
     spec_precedence n_arg (max_tokens <$> MODEL_PARAMS cfg !! model)
       (max_tokens <$> MODEL_PARAMS cfg !! DEFAULT_MODEL cfg) 2048).
Proof.
  unfold resolve_options, model_config.
  destruct t_arg, n_arg, (MODEL_PARAMS cfg !! model), (MODEL_PARAMS cfg !! DEFAULT_MODEL cfg);
    reflexivity.
Qed.

Lemma resolve_options_source (model : string) (t_arg : option float) (n_arg : option Z) :
  resolve_options cfg model t_arg n_arg =
    (default (default 0.7%float (temperature <$> model_config cfg model)) t_arg,
     default (default 2048 (max_tokens <$> model_config cfg model)) n_arg).
Proof.
  unfold resolve_options.
  destruct t_arg, n_arg, (model_config cfg model); reflexivity.
Qed.

Lemma build_request_options stream model message history t_arg n_arg :
  (rb_temperature (build_request cfg stream model message history t_arg n_arg),
   rb_num_predict (build_request cfg stream model message history t_arg n_arg))
  = resolve_options cfg model t_arg n_arg.
Proof.
  unfold build_request. destruct (resolve_options cfg model t_arg n_arg). reflexivity.
Qed.

(** C9. The request that [OllamaClient.chat] and [OllamaClient.chat_stream]
    send carries, for the temperature and for the token limit, the
    explicit value of the call if there is one, else the configured
    default of the requested model, else that of the global default
    model; and the two defaults are read from one and the same
    configuration, never one from each of two models. *)
Theorem generation_parameters_precedence
    (self : OllamaClient) (model message : string) (history : list chat_message)
    (t_arg : option float) (n_arg : option Z) :
  let per_model := MODEL_PARAMS cfg !! model in
  let global_default := MODEL_PARAMS cfg !! DEFAULT_MODEL cfg in
  let url := api_url self +:+ "/api/chat" in
  ∀ stream : bool,
    let body := build_request cfg stream model message history t_arg n_arg in
    (∀ net w, (ollama_client.chat cfg self model message history t_arg n_arg net w).2
              = [EvPost url (build_request cfg false model message history t_arg n_arg)])
    ∧ (∀ net w, (chat_stream cfg self model message history t_arg n_arg net w).2
                = [EvPost url (build_request cfg true model message history t_arg n_arg)])
    ∧ rb_temperature body
      = spec_precedence t_arg (temperature <$> per_model) (temperature <$> global_default) 0.7%float
    ∧ rb_num_predict body
      = spec_precedence n_arg (max_tokens <$> per_model) (max_tokens <$> global_default) 2048
    ∧ ∃ source : option model_params,
        (source = per_model ∧ is_Some per_model ∨ source = global_default ∧ per_model = None)
        ∧ rb_temperature body = default (default 0.7%float (temperature <$> source)) t_arg
        ∧ rb_num_predict body = default (default 2048 (max_tokens <$> source)) n_arg.
Proof.
  intros per_model global_default url stream body.
  pose proof (build_request_options stream model message history t_arg n_arg) as Hopts.
  fold body in Hopts.
  split; [|split; [|split; [|split]]].
  - intros net w. reflexivity.
  - intros net w. reflexivity.
  - rewrite resolve_options_precedence in Hopts. injection Hopts as Ht Hn. exact Ht.
  - rewrite resolve_options_precedence in Hopts. injection Hopts as Ht Hn. exact Hn.
  - exists (model_config cfg model). split.
    + destruct (model_config_cases model) as [[-> ?]|[-> ?]]; auto.
    + rewrite resolve_options_source in Hopts. injection Hopts as Ht Hn. auto.
Qed.

End GenerationParameters.

(* ===================================================================== *)
(** ** The metadata cache *)
(* ===================================================================== *)

Section ModelCache.

Lemma get_models_from_cache self t net :
  cache_valid self t = true →
  get_models self false t net = (data (models_cache self), self, FromCache).
Proof. intros H. unfold get_models. rewrite H. reflexivity. Qed.

(** C6. Two calls of [get_models] on one client, neither forcing a
    refresh, the first of which returns a snapshot (from the cache or
    from a refresh that succeeds) and the second of which falls in the
    TTL window of the snapshot the cache then holds: both return the same
    snapshot, the second one from the cache, leaving the client as it
    was, and at most one live call is made. *)
Theorem cached_models_idempotent
    (self self1 self2 : OllamaClient) (t1 t2 : float) (net1 net2 : http_outcome)
    (r1 r2 : json) (s1 s2 : served) :
  get_models self false t1 net1 = (r1, self1, s1) →
  get_models self1 false t2 net2 = (r2, self2, s2) →
  s1 ≠ RefreshFailed →
  cache_valid self1 t2 = true →
  r2 = r1 ∧ self2 = self1 ∧ s2 = FromCache ∧ (live_calls s1 + live_calls s2 ≤ 1)%nat.
Proof.
  intros H1 H2 Hok Hvalid.
  rewrite (get_models_from_cache _ _ _ Hvalid) in H2. injection H2 as <- <- <-.
  assert (data (models_cache self1) = r1) as Hsame.
  { unfold get_models in H1.
    destruct (negb false && cache_valid self t1).
    - injection H1 as <- <- <-. reflexivity.
    - destruct net1 as [e|status text [d|e]];
        repeat match type of H1 with
               | context [if ?b then _ else _] => destruct b
               end;
        injection H1 as <- <- <-; try congruence; reflexivity. }
  repeat split; auto.
  destruct s1; simpl; lia.
Qed.

(** A refresh attempt of [get_models] (the cache is empty, or expired,
    or the refresh is forced) that fails by a status other than 200 or
    by an exception of the request returns an error dict and leaves the
    cache, snapshot and timestamp, as it was. *)
Lemma failed_refresh_keeps_cache
    (self : OllamaClient) (force_refresh : bool) (t : float) (net : http_outcome) :
  force_refresh = true ∨ cache_valid self t = false →
  refresh_fails net →
  ∃ r, get_models self force_refresh t net = (r, self, RefreshFailed) ∧ is_error_result r.
Proof.
  intros Hattempt Hfails. unfold get_models.
  assert (negb force_refresh && cache_valid self t = false) as ->.
  { destruct Hattempt as [-> | ->]; [reflexivity | apply andb_false_r]. }
  destruct net as [e|status text body]; simpl in Hfails.
  - eexists. split; [reflexivity | eexists; reflexivity].
  - destruct (Z.eqb_spec status 200) as [->|_]; [congruence|].
    eexists. split; [reflexivity | eexists; reflexivity].
Qed.

(** X6. A refresh that fails after the status check: when a refresh is
    attempted and the server answers 200 with a body that does not
    decode, the caller gets
    an error dict and the old snapshot stays, but the timestamp of the
    cache has moved to the time of the call (the assignment precedes
    [response.json()]). *)
Theorem undecodable_refresh_moves_timestamp
    (self : OllamaClient) (force_refresh : bool) (t : float) (text : string) (e : exn) :
  force_refresh = true ∨ cache_valid self t = false →
  ∃ r, get_models self force_refresh t (HttpResponse 200 text (Raise e))
       = (r, set_timestamp self t, RefreshFailed) ∧ is_error_result r.
Proof.
  intros Hattempt. unfold get_models.
  assert (negb force_refresh && cache_valid self t = false) as ->.
  { destruct Hattempt as [-> | ->]; [reflexivity | apply andb_false_r]. }
  simpl. eexists. split; [reflexivity | eexists; reflexivity].
Qed.

(** X7. A forced refresh never reads the cache: it makes one live call
    whatever the cache holds, and a decoded 200 answer becomes both the
    result and the new snapshot, stamped with the time of the call. *)
Theorem forced_refresh_goes_live (self : OllamaClient) (t : float) (net : http_outcome) :
  live_calls (get_models self true t net).2 = 1%nat
  ∧ ∀ text d,
      get_models self true t (HttpResponse 200 text (Ok d))
      = (d, set_data (set_timestamp self t) d, Refreshed).
Proof.
  split; [|reflexivity].
  unfold get_models. simpl.
  destruct net as [e|status_code text [d|e]]; [reflexivity|..];
    destruct (status_code =? 200); reflexivity.
Qed.

End ModelCache.

(* ===================================================================== *)
(** ** The chunks of the streaming client *)
(* ===================================================================== *)

Section StreamingClient.

Lemma carries_error_error_dict msg : carries_error (error_dict msg).
Proof.
  unfold carries_error, error_dict, py_in.
  rewrite lookup_singleton_eq. reflexivity.
Qed.

Lemma stream_lines_chunks lines broken :
  Forall parses_or_malformed lines →
  stream_lines lines broken = (omap chunk_of_line lines, broken).
Proof.
  induction 1 as [|l lines Hl _ IH]; [reflexivity|].
  destruct l as [|[chunk|e]]; simpl in *.
  - exact IH.
  - rewrite IH. reflexivity.
  - rewrite Hl, IH. reflexivity.
Qed.

(** C2, as the client does it. In a body answered with status 200 whose
    lines either parse or fail with a JSON decode error, every line that
    fails to parse gives one error chunk, in the place of that line, and
    the sequence goes on: the chunks are those of the non-empty lines, one
    each, in order, the lines after a malformed one included. *)
Theorem malformed_line_yields_error_chunk_and_stream_continues
    (before after : list wire_line) (e : exn) (broken : option exn) :
  exn_cls e = JSONDecodeError →
  Forall parses_or_malformed before →
  Forall parses_or_malformed after →
  let bad := error_dict ("Fehler beim Parsen der Antwort: " +:+ str_exn e) in
  stream_chunks (StreamResponse 200 (before ++ Line (Raise e) :: after) broken)
  = catch_request_exception
      (omap chunk_of_line before ++ bad :: omap chunk_of_line after, broken)
  ∧ carries_error bad.
Proof.
  intros He Hbefore Hafter bad. split; [|apply carries_error_error_dict].
  unfold stream_chunks. simpl.
  rewrite stream_lines_chunks.
  - rewrite omap_app. reflexivity.
  - apply Forall_app. split; [assumption|]. constructor; assumption.
Qed.

(** C2 as stated fails: a malformed line followed by a well-formed one
    gives an error chunk followed by a content chunk. *)
Lemma malformed_line_does_not_close_stream :
  let net := StreamResponse 200
               [bad_line; Line (Ok (content_chunk "Hi"))] None in
  stream_chunks net
  = ([error_dict "Fehler beim Parsen der Antwort: Expecting value"; content_chunk "Hi"],
     None)
  ∧ ¬ closed_by_error_chunk net.
Proof.
  split; [reflexivity|].
  intros (before & bad & Hchunks & Hbad & _).
  change ([error_dict "Fehler beim Parsen der Antwort: Expecting value";
           content_chunk "Hi"] = before ++ [bad]) in Hchunks.
  destruct before as [|c1 [|c2 [|c3 before]]]; simplify_eq/=.
  vm_compute in Hbad. discriminate.
Qed.

Lemma malformed_line_witness :
  stream_chunks
    (StreamResponse 200 [Line (Ok done_chunk); bad_line; Blank;
                         Line (Ok (content_chunk "Hi"))] None)
  = ([done_chunk; error_dict "Fehler beim Parsen der Antwort: Expecting value";
      content_chunk "Hi"], None)
  ∧ carries_error (error_dict "Fehler beim Parsen der Antwort: Expecting value").
Proof.
  apply (malformed_line_yields_error_chunk_and_stream_continues
           [Line (Ok done_chunk)] [Blank; Line (Ok (content_chunk "Hi"))]
           (Exn JSONDecodeError "Expecting value") None).
  - reflexivity.
  - repeat constructor.
  - repeat constructor.
Defined.

End StreamingClient.

(* ===================================================================== *)
(** ** Request validation *)
(* ===================================================================== *)

Section Validation.
Context (E : environment) (cfg : settings).

(** C3, as the handlers do it. A turn request without the key [model]
    or without the key [message] is answered with status 400 by [chat]
    and by [stream_chat] alike, with nothing done before: no request to
    the upstream server, no database call, no frame. *)
Theorem missing_field_rejected_before_any_io
    (data : turn_request) (net : http_outcome) (snet : stream_outcome) (w : world) :
  req_model data = None ∨ req_message data = None →
  server.chat E cfg data net w
    = (Ok (Reply400 "Modell und Nachricht sind erforderlich"), w, [])
  ∧ stream_chat E cfg data snet w
    = (Ok (StreamReply400 "Modell und Nachricht sind erforderlich"), w, []).
Proof.
  intros Hmissing. unfold server.chat, stream_chat.
  destruct (req_model data), (req_message data), Hmissing; try discriminate; split; reflexivity.
Qed.

End Validation.

(** C3 as stated fails for empty strings: a request whose message is the
    empty string is not rejected; it goes to the upstream server and is
    stored. *)
Lemma empty_message_is_not_rejected :
  let data := {| req_model := Some "llama3"; req_message := Some "";
                 req_chat_id := None; req_temperature := None; req_max_tokens := None |} in
  let net := HttpResponse 200 "" (Ok (content_chunk "Hi")) in
  let run := server.chat E0 default_settings data net w0 in
  run.1.1 = Ok (ReplyOk "uuid-0" (JStr "Hi") "uuid-3")
  ∧ posts run.2
    = [ {| rb_model := "llama3";
           rb_messages := [ {| role := "user"; content := JStr "" |} ];
           rb_stream := false;
           rb_temperature := 0.7;
           rb_num_predict := 2048 |} ].
Proof. split; reflexivity. Qed.

Lemma missing_field_witness :
  let data := {| req_model := Some "llama3"; req_message := None;
                 req_chat_id := None; req_temperature := None; req_max_tokens := None |} in
  server.chat E0 default_settings data (HttpRaises (Exn RequestException "")) w0
    = (Ok (Reply400 "Modell und Nachricht sind erforderlich"), w0, [])
  ∧ stream_chat E0 default_settings data hi_there w0
    = (Ok (StreamReply400 "Modell und Nachricht sind erforderlich"), w0, []).
Proof.
  apply (missing_field_rejected_before_any_io E0 default_settings).
  right. reflexivity.
Defined.

(* ===================================================================== *)
(** ** Unknown conversation ids *)
(* ===================================================================== *)

Section UnknownChat.
Context (E : environment).

Lemma select_chat_unknown (chat_id : string) (w : world) :
  chat_id ∉ chat_ids w → select_chat chat_id w = None.
Proof.
  unfold select_chat, chat_ids. induction (chats w) as [|c cs IH]; [reflexivity|].
  rewrite fmap_cons, not_elem_of_cons. intros [Hne Hcs]. simpl.
  rewrite bool_decide_eq_false_2 by congruence. auto.
Qed.

Lemma filter_unknown_chat (chat_id : string) (w : world) :
  chat_id ∉ chat_ids w → filter (fun c => c_id c ≠ chat_id) (chats w) = chats w.
Proof.
  unfold chat_ids. induction (chats w) as [|c cs IH]; [reflexivity|].
  rewrite fmap_cons, not_elem_of_cons. intros [Hne Hcs].
  rewrite filter_cons_True by congruence. f_equal. auto.
Qed.

(** C10, as the handlers do it. For a conversation id that is not in
    storage: reading it is answered with the 404 "not found" error;
    deleting it is answered as a success, with the tables left as they
    were, unless the database call itself fails, which is answered with
    the 500 error. *)
Theorem unknown_chat_read_not_found_delete_succeeds (chat_id : string) (w : world) :
  chat_id ∉ chat_ids w →
  (get_chat_by_id E chat_id w).1 = (Ok (ChatNotFound404 "Chat nicht gefunden"), next_tick w)
  ∧ (delete_chat_by_id E chat_id w).1
    = (Ok match sqlite_fault E (tick w) with
          | Some _ => DeleteFailed500 "Fehler beim Löschen des Chats"
          | None => DeleteOk "Chat erfolgreich gelöscht"
          end,
       next_tick w).
Proof.
  intros Hunknown. split.
  - unfold get_chat_by_id, bind, get_chat.
    destruct (sqlite_fault E (tick w)); [reflexivity|].
    rewrite select_chat_unknown by assumption. reflexivity.
  - unfold delete_chat_by_id, bind, delete_chat.
    destruct (sqlite_fault E (tick w)); [reflexivity|]. simpl.
    rewrite filter_unknown_chat by assumption.
    rewrite decide_False by assumption. reflexivity.
Qed.

End UnknownChat.

(** C10 as stated fails for deletion: deleting an id that storage does
    not hold is answered as a success. *)
Lemma delete_unknown_chat_reports_success :
  ("no-such-chat" ∉ chat_ids w0)
  ∧ delete_chat_by_id E0 "no-such-chat" w0
    = (Ok (DeleteOk "Chat erfolgreich gelöscht"), next_tick w0,
       [EvDeleteChat "no-such-chat"]).
Proof. split; [apply not_elem_of_nil | reflexivity]. Qed.

Lemma unknown_chat_witness :
  (get_chat_by_id E0 "no-such-chat" w0).1
    = (Ok (ChatNotFound404 "Chat nicht gefunden"), next_tick w0)
  ∧ (delete_chat_by_id E0 "no-such-chat" w0).1
    = (Ok (DeleteOk "Chat erfolgreich gelöscht"), next_tick w0).
Proof.
  apply (unknown_chat_read_not_found_delete_succeeds E0 "no-such-chat" w0).
  apply not_elem_of_nil.
Defined.

(* ===================================================================== *)
(** ** What the storage functions do *)
(* ===================================================================== *)

Lemma quiet_nil : quiet [].
Proof. constructor. Qed.

Lemma quiet_projections evs :
  quiet evs →
  posts evs = [] ∧ frames evs = [] ∧ inserted_chats evs = []
  ∧ inserted_messages evs = [] ∧ failed_writes evs = [].
Proof.
  induction 1 as [|ev evs Hev _ IH]; [repeat split|].
  destruct IH as (Hp & Hf & Hc & Hm & Hw).
  destruct ev; try contradiction. destruct Hev as [Hc' Ha'].
  unfold posts, frames, inserted_chats, inserted_messages, failed_writes in *. simpl.
  rewrite bool_decide_eq_false_2 by tauto. auto.
Qed.

Section StorageFacts.
Context (E : environment).

Lemma create_chat_spec title model w r w' evs :
  create_chat E title model w = (r, w', evs) →
  (∃ e, r = Raise e ∧ w' = next_tick w ∧ evs = [EvStorageError "create_chat" e])
  ∨ (∃ row,
       r = Ok (c_id row)
       ∧ w' = {| chats := chats w ++ [row]; messages := messages w; tick := S (tick w) |}
       ∧ evs = [EvInsertChat row]
       ∧ (c_id row ∉ chat_ids w)
       ∧ c_title row = title ∧ c_model row = model).
Proof.
  unfold create_chat, fail_write. intros H.
  destruct (sqlite_fault E (tick w)); [left; simplify_eq; eauto|].
  destruct (decide _); [left; simplify_eq; eauto|].
  right. simplify_eq.
  exists {| c_id := uuid4 E (tick w); c_title := title; c_model := model;
            c_created_at := datetime_now E (tick w); c_updated_at := datetime_now E (tick w) |}.
  split_and!; try reflexivity. assumption.
Qed.

Lemma update_chat_timestamp_spec chat_id w :
  ∃ w' evs,
    update_chat_timestamp E chat_id w = (Ok tt, w', evs)
    ∧ quiet evs
    ∧ messages w' = messages w
    ∧ tick w' = S (tick w)
    ∧ refreshed chat_id (chats w) (chats w').
Proof.
  unfold update_chat_timestamp, refreshed.
  destruct (sqlite_fault E (tick w)); do 2 eexists; (split; [reflexivity|]).
  - split_and!; auto. constructor; [|constructor]. split; discriminate.
  - split_and!; eauto. constructor.
Qed.

Lemma touch_ids now chat_id (cs : list chat_row) :
  c_id <$> (touch now chat_id <$> cs) = c_id <$> cs.
Proof.
  rewrite <- list_fmap_compose. apply list_fmap_ext. intros i c _.
  unfold compose, touch. destruct (decide _); reflexivity.
Qed.

Lemma refreshed_ids chat_id (cs cs' : list chat_row) :
  refreshed chat_id cs cs' → c_id <$> cs' = c_id <$> cs.
Proof. intros [->|[now ->]]; [reflexivity | apply touch_ids]. Qed.

Lemma touch_other now chat_id (cs : list chat_row) :
  chat_id ∉ c_id <$> cs → touch now chat_id <$> cs = cs.
Proof.
  induction cs as [|c cs IH]; [reflexivity|].
  rewrite !fmap_cons, not_elem_of_cons. intros [Hne Hcs].
  rewrite IH by assumption. f_equal. unfold touch. rewrite decide_False; congruence.
Qed.

(** What [add_message] does, for any content: it fails with the error
    logged, or with the [OverflowError] of a content that is too large
    an [int], which nobody logs; or the row is written with the content
    as the column stores it. *)
Lemma add_message_cases chat_id role content w r w' evs :
  add_message E chat_id role content w = (r, w', evs) →
  (∃ e, r = Raise e ∧ w' = next_tick w
        ∧ (evs = [EvStorageError "add_message" e]
           ∨ evs = [] ∧ bind_content E content = TooLarge))
  ∨ (∃ row q text,
       bind_content E content = Bound text
       ∧ r = Ok (m_id row)
       ∧ evs = EvInsertMessage row :: q ∧ quiet q
       ∧ row = {| m_id := uuid4 E (tick w); m_chat_id := chat_id; m_role := role;
                  m_content := JStr text; m_timestamp := datetime_now E (tick w) |}
       ∧ messages w' = messages w ++ [row]
       ∧ refreshed chat_id (chats w) (chats w')
       ∧ tick w' = S (S (tick w))
       ∧ (chat_id ∈ chat_ids w)
       ∧ (m_id row ∉ message_ids w)).
Proof.
  unfold add_message, bind, insert_message, fail_write. intros H.
  destruct (sqlite_fault E (tick w)); [left; simplify_eq; eauto 6|].
  destruct (bind_content E content) as [text|msg|] eqn:Hbind;
    [|left; simplify_eq; eauto 6|left; simplify_eq; eauto 6].
  destruct (decide (_ ∈ message_ids w)); [left; simplify_eq; eauto 6|].
  destruct (decide (_ ∈ chat_ids w)); [|left; simplify_eq; eauto 6].
  right.
  match type of H with
  | context [update_chat_timestamp E chat_id ?w1] =>
      destruct (update_chat_timestamp_spec chat_id w1) as (w2 & q & Hq & Hquiet & Hm & Ht & Hc);
      rewrite Hq in H
  end.
  simpl in *. simplify_eq.
  exists {| m_id := uuid4 E (tick w); m_chat_id := chat_id; m_role := role;
            m_content := JStr text; m_timestamp := datetime_now E (tick w) |}, q, text.
  split_and!; try reflexivity; try assumption.
  rewrite app_nil_r. reflexivity.
Qed.

(** The same for a [str], which is stored as it is. *)
Lemma add_message_spec chat_id role (content : string) w r w' evs :
  add_message E chat_id role (JStr content) w = (r, w', evs) →
  (∃ e, r = Raise e ∧ w' = next_tick w ∧ evs = [EvStorageError "add_message" e])
  ∨ (∃ row q,
       r = Ok (m_id row)
       ∧ evs = EvInsertMessage row :: q ∧ quiet q
       ∧ row = {| m_id := uuid4 E (tick w); m_chat_id := chat_id; m_role := role;
                  m_content := JStr content; m_timestamp := datetime_now E (tick w) |}
       ∧ messages w' = messages w ++ [row]
       ∧ refreshed chat_id (chats w) (chats w')
       ∧ tick w' = S (S (tick w))
       ∧ (chat_id ∈ chat_ids w)
       ∧ (m_id row ∉ message_ids w)).
Proof.
  intros H. apply add_message_cases in H
    as [(e & -> & -> & [-> | [_ Hlarge]])|(row & q & text & Hbind & Hrest)].
  - left. eauto.
  - discriminate.
  - right. injection Hbind as <-. exists row, q. exact Hrest.
Qed.

(** Referential integrity is kept by every function that writes. *)
Lemma create_chat_wf title model w r w' evs :
  create_chat E title model w = (r, w', evs) → db_wf w → db_wf w'.
Proof.
  intros H Hwf.
  apply create_chat_spec in H as [(e & _ & -> & _)|(row & _ & -> & _)]; [exact Hwf|].
  intros m Hm. unfold chat_ids. simpl. rewrite fmap_app. apply elem_of_app. left.
  apply Hwf. exact Hm.
Qed.

Lemma add_message_wf chat_id role content w r w' evs :
  add_message E chat_id role content w = (r, w', evs) → db_wf w → db_wf w'.
Proof.
  intros H Hwf.
  apply add_message_cases in H
    as [(e & _ & -> & _)|(row & q & text & _ & _ & _ & _ & Hrow & Hmsgs & Hchats & _ & Hknown & _)];
    [exact Hwf|].
  assert (chat_ids w' = chat_ids w) as Hids by (apply (refreshed_ids chat_id); exact Hchats).
  intros m Hm. rewrite Hids. rewrite Hmsgs in Hm.
  apply elem_of_app in Hm as [Hm|Hm]; [apply Hwf; exact Hm|].
  apply list_elem_of_singleton in Hm as ->. subst row. exact Hknown.
Qed.

Lemma delete_chat_wf chat_id w r w' evs :
  delete_chat E chat_id w = (r, w', evs) → db_wf w → db_wf w'.
Proof.
  unfold delete_chat. intros H Hwf.
  destruct (sqlite_fault E (tick w)); simplify_eq; [exact Hwf|].
  assert (∀ m, m ∈ messages w → m_chat_id m ≠ chat_id →
               m_chat_id m ∈ c_id <$> filter (fun c => c_id c ≠ chat_id) (chats w)) as Hkept.
  { intros m Hm Hne. apply Hwf in Hm. apply list_elem_of_fmap in Hm as (c & Hc & Hcin).
    apply list_elem_of_fmap. exists c. split; [exact Hc|].
    apply list_elem_of_filter. split; [congruence | exact Hcin]. }
  intros m Hm. unfold chat_ids. simpl in *.
  destruct (decide (chat_id ∈ chat_ids w)) as [Hin|Hout].
  - apply list_elem_of_filter in Hm as [Hne Hm]. auto.
  - apply Hkept; [exact Hm|]. intros Heq. apply Hout. rewrite <- Heq. apply Hwf. exact Hm.
Qed.

(** X4. The three writes keep the foreign key of the schema: if every
    message belongs to a stored conversation before [create_chat],
    [add_message] or [delete_chat], so it does after, whether the call
    succeeds or fails. *)
Theorem writes_keep_referential_integrity (w : world) :
  db_wf w →
  (∀ title model, db_wf (create_chat E title model w).1.2)
  ∧ (∀ chat_id role content, db_wf (add_message E chat_id role content w).1.2)
  ∧ (∀ chat_id, db_wf (delete_chat E chat_id w).1.2).
Proof.
  intros Hwf. split_and!.
  - intros title model.
    destruct (create_chat E title model w) as [[r w'] evs] eqn:H.
    exact (create_chat_wf _ _ _ _ _ _ H Hwf).
  - intros chat_id role content.
    destruct (add_message E chat_id role content w) as [[r w'] evs] eqn:H.
    exact (add_message_wf _ _ _ _ _ _ _ H Hwf).
  - intros chat_id.
    destruct (delete_chat E chat_id w) as [[r w'] evs] eqn:H.
    exact (delete_chat_wf _ _ _ _ _ H Hwf).
Qed.

End StorageFacts.

(* ===================================================================== *)
(** ** What the relay loop does *)
(* ===================================================================== *)

Lemma append_assoc (s1 s2 s3 : string) : (s1 +:+ s2) +:+ s3 = s1 +:+ (s2 +:+ s3).
Proof.
  induction s1 as [|c s1 IH]; [reflexivity|].
  change (String c ((s1 +:+ s2) +:+ s3) = String c (s1 +:+ (s2 +:+ s3))).
  f_equal. exact IH.
Qed.

Lemma append_nil_r (s : string) : s +:+ "" = s.
Proof.
  induction s as [|c s IH]; [reflexivity|].
  change (String c (s +:+ "") = String c s). f_equal. exact IH.
Qed.

Lemma content_events_frames deltas : frames (content_events deltas) = FContent <$> deltas.
Proof. induction deltas as [|d ds IH]; [reflexivity|]. simpl. f_equal. exact IH. Qed.

Lemma content_events_projections deltas :
  posts (content_events deltas) = []
  ∧ inserted_chats (content_events deltas) = []
  ∧ inserted_messages (content_events deltas) = []
  ∧ failed_writes (content_events deltas) = [].
Proof. induction deltas as [|d ds IH]; [repeat split|]. exact IH. Qed.

Lemma content_frames_deltas deltas :
  content_deltas (FContent <$> deltas) = deltas
  ∧ done_frames (FContent <$> deltas) = []
  ∧ error_frames (FContent <$> deltas) = [].
Proof.
  induction deltas as [|d ds (IH1 & IH2 & IH3)]; [repeat split|].
  split_and!; simpl; [f_equal|..]; assumption.
Qed.

Lemma chat_id_frames_content deltas : chat_id_frames (FContent <$> deltas) = [].
Proof. induction deltas as [|d ds IH]; [reflexivity | exact IH]. Qed.

Section RelayLoop.
Context (E : environment) (cfg : settings).

(** How the loop can end, with the frames it has yielded by then: it
    runs to its end, having forwarded the deltas it accumulated; or it
    returns at an error chunk, after one error frame; or an exception
    leaves it. It never touches the database. *)
Lemma relay_spec chunks leaving full w r w' evs :
  relay chunks leaving full w = (r, w', evs) →
  w' = w
  ∧ ∃ deltas,
      match r with
      | Ok (Some full') =>
          evs = content_events deltas
          ∧ full' = full +:+ join deltas
          ∧ leaving = None
          ∧ Forall (fun chunk => ¬ carries_error chunk) chunks
      | Ok None =>
          (∃ error, evs = content_events deltas ++ [EvYield (FError error)])
          ∧ Exists carries_error chunks
      | Raise e => evs = content_events deltas
      end.
Proof.
  revert full w r w' evs.
  induction chunks as [|chunk rest IH]; intros full w r w' evs H.
  { simpl in H. destruct leaving; unfold raise, ret in H; simplify_eq.
    - split; [reflexivity|]. exists []. reflexivity.
    - split; [reflexivity|]. exists []. split_and!; auto. symmetry. apply append_nil_r. }
  simpl in H. unfold bind, lift in H.
  destruct (py_in "error" chunk) as [[|]|e] eqn:Herr; simpl in H.
  - (* an error chunk *)
    destruct (py_getitem chunk "error") as [error|e]; simpl in H; simplify_eq.
    + split; [reflexivity|]. exists []. split; [eauto|]. constructor. exact Herr.
    + split; [reflexivity|]. exists []. reflexivity.
  - assert (¬ carries_error chunk) as Hnoerr by (unfold carries_error; congruence).
    destruct (has_content chunk) as [[|]|e]; simpl in H.
    + destruct (py_getitem chunk "message") as [m|e]; simpl in H;
        [|simplify_eq; split; [reflexivity|]; exists []; reflexivity].
      destruct (py_getitem m "content") as [content|e]; simpl in H;
        [|simplify_eq; split; [reflexivity|]; exists []; reflexivity].
      destruct content as [| | | |delta| |];
        try (unfold raise in H; simplify_eq; split; [reflexivity|]; exists []; reflexivity).
      unfold yield, emit in H. simpl in H.
      destruct (relay rest leaving (full +:+ delta) w) as [[r1 w1] evs1] eqn:Hrest.
      apply IH in Hrest as (-> & deltas & Hr1). simplify_eq.
      split; [reflexivity|]. exists (delta :: deltas).
      destruct r as [[full'|]|e]; simpl.
      * destruct Hr1 as (-> & -> & -> & Hrest). split_and!; auto.
        apply append_assoc.
      * destruct Hr1 as ((error & ->) & Hex). split; [eauto|]. constructor 2. exact Hex.
      * rewrite Hr1. reflexivity.
    + destruct (relay rest leaving full w) as [[r1 w1] evs1] eqn:Hrest.
      apply IH in Hrest as (-> & deltas & Hr1). simplify_eq.
      split; [reflexivity|]. exists deltas.
      destruct r as [[full'|]|e]; simpl.
      * destruct Hr1 as (-> & -> & -> & Hrest). split_and!; auto.
      * destruct Hr1 as (Herror & Hex). split; [exact Herror|]. constructor 2. exact Hex.
      * exact Hr1.
    + simplify_eq. split; [reflexivity|]. exists []. reflexivity.
  - simplify_eq. split; [reflexivity|]. exists []. reflexivity.
Qed.

(** On chunks of the wire contract none of which carries an error, and
    with no exception at the end of the stream, the loop runs to its end
    and forwards the delta of every chunk that has one. *)
Lemma relay_wire chunks full w :
  Forall wire_chunk chunks →
  Forall (fun chunk => ¬ carries_error chunk) chunks →
  relay chunks None full w
  = (Ok (Some (full +:+ join (omap delta_of chunks))), w,
     content_events (omap delta_of chunks)).
Proof.
  intros Hwire. revert full.
  induction Hwire as [|chunk rest Hchunk _ IH]; intros full Hnoerr.
  { simpl. unfold ret. rewrite append_nil_r. reflexivity. }
  apply Forall_cons in Hnoerr as [Hne Hrest].
  simpl. unfold bind, lift.
  assert (py_in "error" chunk = Ok false) as ->.
  { unfold carries_error in Hne. destruct chunk; try contradiction.
    simpl in *. destruct (bool_decide _); congruence. }
  simpl.
  destruct chunk as [| | | | | |kv]; try contradiction.
  unfold has_content, delta_of, py_in, py_getitem. simpl in Hchunk.
  destruct (kv !! "message") as [[| | | | | |m]|] eqn:Hm; try contradiction.
  - rewrite bool_decide_eq_true_2 by eauto. simpl.
    destruct (m !! "content") as [[| | | |delta| |]|] eqn:Hc; try contradiction.
    + rewrite bool_decide_eq_true_2 by eauto. simpl.
      rewrite IH by assumption. simpl. rewrite append_assoc. reflexivity.
    + rewrite bool_decide_eq_false_2 by (intros [? ?]; discriminate). simpl.
      rewrite IH by assumption. reflexivity.
  - rewrite bool_decide_eq_false_2 by (intros [? ?]; discriminate). simpl.
    rewrite IH by assumption. reflexivity.
Qed.

End RelayLoop.

(* ===================================================================== *)
(** ** Projections of a trace in pieces *)
(* ===================================================================== *)

Lemma posts_app evs1 evs2 : posts (evs1 ++ evs2) = posts evs1 ++ posts evs2.
Proof. apply omap_app. Qed.

Lemma frames_app evs1 evs2 : frames (evs1 ++ evs2) = frames evs1 ++ frames evs2.
Proof. apply omap_app. Qed.

Lemma inserted_chats_app evs1 evs2 :
  inserted_chats (evs1 ++ evs2) = inserted_chats evs1 ++ inserted_chats evs2.
Proof. apply omap_app. Qed.

Lemma inserted_messages_app evs1 evs2 :
  inserted_messages (evs1 ++ evs2) = inserted_messages evs1 ++ inserted_messages evs2.
Proof. apply omap_app. Qed.

Lemma assistant_messages_app evs1 evs2 :
  assistant_messages (evs1 ++ evs2) = assistant_messages evs1 ++ assistant_messages evs2.
Proof. unfold assistant_messages. rewrite inserted_messages_app. apply filter_app. Qed.

Lemma failed_writes_app evs1 evs2 :
  failed_writes (evs1 ++ evs2) = failed_writes evs1 ++ failed_writes evs2.
Proof. apply omap_app. Qed.

Lemma content_deltas_app fs1 fs2 :
  content_deltas (fs1 ++ fs2) = content_deltas fs1 ++ content_deltas fs2.
Proof. apply omap_app. Qed.

Lemma done_frames_app fs1 fs2 : done_frames (fs1 ++ fs2) = done_frames fs1 ++ done_frames fs2.
Proof. apply omap_app. Qed.

Lemma error_frames_app fs1 fs2 : error_frames (fs1 ++ fs2) = error_frames fs1 ++ error_frames fs2.
Proof. apply omap_app. Qed.

Lemma chat_id_frames_app fs1 fs2 :
  chat_id_frames (fs1 ++ fs2) = chat_id_frames fs1 ++ chat_id_frames fs2.
Proof. apply omap_app. Qed.

Lemma assistant_messages_quiet q : quiet q → assistant_messages q = [].
Proof.
  intros Hq. unfold assistant_messages.
  destruct (quiet_projections q Hq) as (_ & _ & _ & -> & _). reflexivity.
Qed.

Lemma assistant_messages_content deltas : assistant_messages (content_events deltas) = [].
Proof.
  unfold assistant_messages.
  destruct (content_events_projections deltas) as (_ & _ & -> & _). reflexivity.
Qed.

Create Rewrite HintDb trace.
#[local] Hint Rewrite posts_app frames_app inserted_chats_app inserted_messages_app
  assistant_messages_app failed_writes_app content_deltas_app done_frames_app
  error_frames_app chat_id_frames_app content_events_frames assistant_messages_content
  chat_id_frames_content : trace.

Lemma assistant_messages_cons ev evs :
  assistant_messages (ev :: evs) = assistant_messages [ev] ++ assistant_messages evs.
Proof. apply (assistant_messages_app [ev] evs). Qed.

Lemma assistant_messages_other ev :
  match ev with EvInsertMessage _ => False | _ => True end → assistant_messages [ev] = [].
Proof. destruct ev; intros H; try contradiction; reflexivity. Qed.

(** [P (x :: rest)] into the value of [P [x]] followed by [P rest]. *)
Ltac split_cons P x rest :=
  let v := eval simpl in (P [x]) in
  lazymatch rest with
  | [] => progress change (P [x]) with v
  | _ => change (P (x :: rest)) with (v ++ P rest)
  end.

(** Rewrites the projections of a trace down to its pieces. *)
Ltac trace_step :=
  match goal with
  | Hq : quiet ?q |- context [posts ?q] =>
      rewrite (proj1 (quiet_projections q Hq))
  | Hq : quiet ?q |- context [frames ?q] =>
      rewrite (proj1 (proj2 (quiet_projections q Hq)))
  | Hq : quiet ?q |- context [inserted_chats ?q] =>
      rewrite (proj1 (proj2 (proj2 (quiet_projections q Hq))))
  | Hq : quiet ?q |- context [inserted_messages ?q] =>
      rewrite (proj1 (proj2 (proj2 (proj2 (quiet_projections q Hq)))))
  | Hq : quiet ?q |- context [failed_writes ?q] =>
      rewrite (proj2 (proj2 (proj2 (proj2 (quiet_projections q Hq)))))
  | Hq : quiet ?q |- context [assistant_messages ?q] =>
      rewrite (assistant_messages_quiet q Hq)
  | |- context [posts (content_events ?d)] =>
      rewrite (proj1 (content_events_projections d))
  | |- context [inserted_chats (content_events ?d)] =>
      rewrite (proj1 (proj2 (content_events_projections d)))
  | |- context [inserted_messages (content_events ?d)] =>
      rewrite (proj1 (proj2 (proj2 (content_events_projections d))))
  | |- context [failed_writes (content_events ?d)] =>
      rewrite (proj2 (proj2 (proj2 (content_events_projections d))))
  | |- context [content_deltas (FContent <$> ?d)] =>
      rewrite (proj1 (content_frames_deltas d))
  | |- context [done_frames (FContent <$> ?d)] =>
      rewrite (proj1 (proj2 (content_frames_deltas d)))
  | |- context [error_frames (FContent <$> ?d)] =>
      rewrite (proj2 (proj2 (content_frames_deltas d)))
  | |- context [posts (?ev :: ?rest)] => split_cons posts ev rest
  | |- context [frames (?ev :: ?rest)] => split_cons frames ev rest
  | |- context [inserted_chats (?ev :: ?rest)] => split_cons inserted_chats ev rest
  | |- context [inserted_messages (?ev :: ?rest)] => split_cons inserted_messages ev rest
  | |- context [assistant_messages (?ev :: ?rest)] =>
      lazymatch rest with
      | [] => rewrite (assistant_messages_other ev I)
      | _ => rewrite (assistant_messages_cons ev rest)
      end
  | |- context [failed_writes (?ev :: ?rest)] =>
      let v := eval vm_compute in (failed_writes [ev]) in
      lazymatch rest with
      | [] => progress change (failed_writes [ev]) with v
      | _ => change (failed_writes (ev :: rest)) with (v ++ failed_writes rest)
      end
  | |- context [content_deltas (?f :: ?rest)] => split_cons content_deltas f rest
  | |- context [done_frames (?f :: ?rest)] => split_cons done_frames f rest
  | |- context [error_frames (?f :: ?rest)] => split_cons error_frames f rest
  | |- context [chat_id_frames (?f :: ?rest)] => split_cons chat_id_frames f rest
  end.

Ltac trace_simpl :=
  repeat first
    [ progress autorewrite with trace
    | progress rewrite ?app_nil_r, ?app_nil_l
    | trace_step ].

(* ===================================================================== *)
(** ** The streaming turn *)
(* ===================================================================== *)

Section StreamingTurn.
Context (E : environment) (cfg : settings).

(** The part of [generate] under [try]: the request goes out, the loop
    runs, and the turn ends in one of three ways. *)
Lemma stream_phase_spec chat_id model message history t_arg n_arg net w r w' evs :
  try_except (stream_turn E cfg chat_id model message history t_arg n_arg net) stream_failed w
    = (r, w', evs) →
  ∃ url body r1 evs_r,
    body = build_request cfg true model message history t_arg n_arg
    ∧ relay (stream_chunks net).1 (stream_chunks net).2 "" w = (r1, w, evs_r)
    ∧ r = Ok tt
    ∧ match r1 with
      | Ok (Some full_response) =>
          ∃ ra evs_a,
            add_message E chat_id "assistant" (JStr full_response) w = (ra, w', evs_a)
            ∧ evs = EvPost url body :: evs_r ++ evs_a
                      ++ [EvYield match ra with
                                  | Ok message_id => FDone message_id
                                  | Raise e => FError (JStr (str_exn e))
                                  end]
      | Ok None => evs = EvPost url body :: evs_r ∧ w' = w
      | Raise e => evs = EvPost url body :: evs_r ++ [EvYield (FError (JStr (str_exn e)))] ∧ w' = w
      end.
Proof.
  unfold try_except, stream_turn, chat_stream, bind, emit, ret. simpl.
  destruct (relay (stream_chunks net).1 (stream_chunks net).2 "" w) as [[r1 w1] evs_r] eqn:Hrelay.
  pose proof (relay_spec _ _ _ _ _ _ _ Hrelay) as [-> _].
  intros H. do 2 eexists. exists r1, evs_r. split; [reflexivity|]. split; [reflexivity|].
  destruct r1 as [[full_response|]|e]; simpl in H.
  - destruct (add_message E chat_id "assistant" (JStr full_response) w) as [[ra wa] evs_a] eqn:Hadd.
    destruct ra as [message_id|e]; unfold yield, emit, stream_failed in H; simpl in H;
      simplify_eq; (split; [reflexivity|]); do 2 eexists; (split; [reflexivity|]);
      rewrite ?app_nil_r, <- ?app_assoc; reflexivity.
  - simplify_eq. rewrite !app_nil_r. auto.
  - unfold stream_failed, yield, emit in H. simpl in H. simplify_eq. auto.
Qed.

Lemma refreshed_new_chat chat_id (old : list chat_row) (row : chat_row) (cs' : list chat_row) :
  c_id row = chat_id →
  chat_id ∉ c_id <$> old →
  refreshed chat_id (old ++ [row]) cs' →
  ∃ row', cs' = old ++ [row'] ∧ c_id row' = chat_id
          ∧ c_title row' = c_title row ∧ c_model row' = c_model row.
Proof.
  intros Hid Hfresh [->|[now ->]]; [eauto|].
  rewrite fmap_app, touch_other by assumption. simpl.
  eexists. split; [reflexivity|]. unfold touch. destruct (decide _); auto.
Qed.

(** The first part of [generate] for a request that names a
    conversation: the user's message is stored in it. *)
Lemma open_turn_existing a id0 model message w r w1 evs1 :
  open_turn E (Some (String a id0)) model message w = (r, w1, evs1) →
  (∃ e, r = Raise e ∧ evs1 = [EvStorageError "add_message" e]
        ∧ messages w1 = messages w ∧ chats w1 = chats w)
  ∨ (∃ urow q,
       r = Ok (String a id0) ∧ evs1 = EvInsertMessage urow :: q ∧ quiet q
       ∧ urow = {| m_id := uuid4 E (tick w); m_chat_id := String a id0; m_role := "user";
                   m_content := JStr message; m_timestamp := datetime_now E (tick w) |}
       ∧ messages w1 = messages w ++ [urow]
       ∧ refreshed (String a id0) (chats w) (chats w1)
       ∧ tick w1 = S (S (tick w))).
Proof.
  unfold open_turn, bind. intros H.
  destruct (add_message E (String a id0) "user" (JStr message) w) as [[ra wa] evs_a] eqn:Hadd.
  apply add_message_spec in Hadd
    as [(e & -> & -> & ->)|(urow & q & -> & -> & Hq & Hrow & Hmsgs & Hchats & Htick & _)];
    simpl in H; simplify_eq.
  - left. eauto.
  - right. eexists _, q. rewrite app_nil_r. split_and!; try reflexivity; assumption.
Qed.

(** The first part of [generate] for a request that names no
    conversation: one is created, titled after the message, the user's
    message is stored in it, and its id is announced. *)
Lemma open_turn_new chat_id model message w r w1 evs1 :
  truthy chat_id = false →
  open_turn E chat_id model message w = (r, w1, evs1) →
  (∃ e, r = Raise e ∧ evs1 = [EvStorageError "create_chat" e]
        ∧ messages w1 = messages w ∧ chats w1 = chats w)
  ∨ (∃ crow e, r = Raise e ∧ evs1 = [EvInsertChat crow; EvStorageError "add_message" e]
               ∧ messages w1 = messages w ∧ chats w1 = chats w ++ [crow]
               ∧ c_title crow = title_of message)
  ∨ (∃ crow crow' urow q,
       r = Ok (c_id crow)
       ∧ evs1 = EvInsertChat crow :: EvInsertMessage urow :: q ++ [EvYield (FChatId (c_id crow))]
       ∧ quiet q
       ∧ (c_id crow ∉ chat_ids w)
       ∧ c_title crow = title_of message ∧ c_model crow = model
       ∧ urow = {| m_id := uuid4 E (S (tick w)); m_chat_id := c_id crow; m_role := "user";
                   m_content := JStr message; m_timestamp := datetime_now E (S (tick w)) |}
       ∧ messages w1 = messages w ++ [urow]
       ∧ chats w1 = chats w ++ [crow']
       ∧ c_id crow' = c_id crow ∧ c_title crow' = c_title crow ∧ c_model crow' = c_model crow
       ∧ tick w1 = S (S (S (tick w)))).
Proof.
  intros Hfalsy H.
  assert (open_turn E chat_id model message =
          (new_chat_id <- create_chat E (title_of message) model ;;
           add_message E new_chat_id "user" (JStr message) ;;
           yield (FChatId new_chat_id) ;;
           ret new_chat_id)) as Heq.
  { destruct chat_id as [[|]|]; try discriminate; reflexivity. }
  rewrite Heq in H. clear Heq. unfold bind in H.
  destruct (create_chat E (title_of message) model w) as [[rc wc] evs_c] eqn:Hcreate.
  apply create_chat_spec in Hcreate
      as [(e & -> & -> & ->)|(crow & -> & -> & -> & Hfresh & Htitle & Hmodel)].
  { simplify_eq. left. eauto. }
  match type of H with
  | context [add_message E ?id ?role ?content ?w0] =>
      destruct (add_message E id role content w0) as [[ra wa] evs_a] eqn:Hadd;
      apply add_message_spec in Hadd
        as [(e & -> & -> & ->)|(urow & q & -> & -> & Hq & Hrow & Hmsgs & Hchats & Htick & _)]
  end.
  { simpl in H. simplify_eq. right. left. eexists crow, e.
    split_and!; try reflexivity; assumption. }
  simpl in H. unfold yield, emit in H. simpl in H. simplify_eq. simpl in *.
  destruct (refreshed_new_chat (c_id crow) (chats w) crow (chats w1) eq_refl Hfresh Hchats)
    as (crow' & Hchats' & Hid' & Htitle' & Hmodel').
  right. right. eexists crow, crow', _, q.
  split_and!; try reflexivity; try assumption.
Qed.

(** Either way, the first part of [generate] sends nothing upstream,
    yields no content, done or error frame, and writes no assistant
    message; it raises exactly when a write fails. *)
Lemma open_turn_spec chat_id model message w r w1 evs1 :
  open_turn E chat_id model message w = (r, w1, evs1) →
  posts evs1 = [] ∧ assistant_messages evs1 = []
  ∧ content_deltas (frames evs1) = [] ∧ done_frames (frames evs1) = []
  ∧ error_frames (frames evs1) = []
  ∧ filter is_assistant (messages w1) = filter is_assistant (messages w)
  ∧ match r with
    | Raise e => failed_writes evs1 = [e]
    | Ok _ => failed_writes evs1 = []
    end.
Proof.
  intros H.
  assert (∀ urow : message_row, m_role urow = "user" →
            filter is_assistant (messages w ++ [urow]) = filter is_assistant (messages w))
    as Huser.
  { intros urow Hrole. rewrite filter_app, filter_cons_False, filter_nil, app_nil_r; [done|].
    unfold is_assistant. rewrite Hrole. discriminate. }
  destruct (truthy chat_id) eqn:Htruthy.
  - destruct chat_id as [[|a id0]|]; try discriminate.
    apply open_turn_existing in H
      as [(e & -> & -> & -> & _)|(urow & q & -> & -> & Hq & Hrow & -> & _)].
    + split_and!; reflexivity.
    + unfold assistant_messages. simpl. trace_simpl.
      rewrite Huser by (subst urow; reflexivity).
      subst urow. split_and!; reflexivity.
  - apply open_turn_new in H
      as [(e & -> & -> & -> & _)
         |[(crow & e & -> & -> & -> & _)
          |(crow & crow' & urow & q & -> & -> & Hq & _ & _ & _ & Hrow & -> & _)]];
      [split_and!; reflexivity | split_and!; reflexivity | | assumption].
    unfold assistant_messages. simpl. trace_simpl.
    rewrite Huser by (subst urow; reflexivity).
    subst urow. split_and!; reflexivity.
Qed.

End StreamingTurn.

Section StreamRelay.
Context (E : environment) (cfg : settings).

Lemma Forall_not_Exists {A} (P : A → Prop) (l : list A) :
  Forall (fun x => ¬ P x) l → Exists P l → False.
Proof.
  intros Hall Hex. induction Hex as [x l HP|x l _ IH].
  - apply Forall_cons in Hall as [Hx _]. exact (Hx HP).
  - apply Forall_cons in Hall as [_ Hl]. exact (IH Hl).
Qed.

(** C4. In a streaming turn that reaches the upstream server and in
    which some chunk of the upstream sequence carries an error, the
    caller gets exactly one error frame and no done frame, and no
    assistant message is written: the text forwarded before the error is
    not stored. *)
Theorem error_chunk_fails_turn
    (chat_id : option string) (model message : string) (history : list chat_message)
    (t_arg : option float) (n_arg : option Z) (net : stream_outcome)
    (w w' : world) (r : result unit) (evs : list event) :
  generate E cfg chat_id model message history t_arg n_arg net w = (r, w', evs) →
  posts evs ≠ [] →
  Exists carries_error (stream_chunks net).1 →
  (∃ error, error_frames (frames evs) = [error])
  ∧ done_frames (frames evs) = []
  ∧ assistant_messages evs = []
  ∧ filter is_assistant (messages w') = filter is_assistant (messages w).
Proof.
  unfold generate, bind. intros H Hposted Hexists.
  destruct (open_turn E chat_id model message w) as [[r0 w1] evs1] eqn:Hopen.
  apply open_turn_spec in Hopen as (Hp1 & Ha1 & Hc1 & Hd1 & He1 & Hm1 & Hr0).
  destruct r0 as [id|e]; [|simplify_eq; contradiction].
  destruct (try_except _ _ w1) as [[r2 w2] evs2] eqn:Hphase.
  apply stream_phase_spec in Hphase as (url & body & r1 & evs_r & _ & Hrelay & -> & Hend).
  apply relay_spec in Hrelay as (_ & deltas & Hr1).
  simplify_eq. rewrite <- Hm1.
  destruct r1 as [[full_response|]|e].
  - destruct Hr1 as (_ & _ & _ & Hnone). destruct (Forall_not_Exists _ _ Hnone Hexists).
  - destruct Hr1 as ((error & ->) & _). destruct Hend as (-> & ->).
    split_and!; [exists error|..]; trace_simpl; simpl; trace_simpl;
      rewrite ?He1, ?Hd1, ?Ha1; reflexivity.
  - subst evs_r. destruct Hend as (-> & ->).
    split_and!; [eexists|..]; trace_simpl; simpl; trace_simpl;
      rewrite ?He1, ?Hd1, ?Ha1; reflexivity.
Qed.

(** C1. In a streaming turn whose upstream sequence ends by itself, is
    made of chunks of the wire contract and holds no error chunk, and in
    which no database write fails: one assistant message is written, its
    content is the concatenation, in order, of the content deltas
    handed to the caller; exactly one done frame is yielded, it carries
    the id of that message and it is the last event of the run, after the
    write; and there is no error frame. *)
Theorem successful_stream_persists_forwarded_text
    (chat_id : option string) (model message : string) (history : list chat_message)
    (t_arg : option float) (n_arg : option Z) (net : stream_outcome)
    (w w' : world) (r : result unit) (evs : list event) :
  generate E cfg chat_id model message history t_arg n_arg net w = (r, w', evs) →
  (stream_chunks net).2 = None →
  Forall wire_chunk (stream_chunks net).1 →
  Forall (fun chunk => ¬ carries_error chunk) (stream_chunks net).1 →
  failed_writes evs = [] →
  ∃ row before q,
    evs = before ++ EvInsertMessage row :: q ++ [EvYield (FDone (m_id row))]
    ∧ quiet q
    ∧ assistant_messages evs = [row]
    ∧ (∃ old, messages w' = old ++ [row])
    ∧ m_content row = JStr (join (content_deltas (frames evs)))
    ∧ done_frames (frames evs) = [m_id row]
    ∧ error_frames (frames evs) = []
    ∧ r = Ok tt.
Proof.
  unfold generate, bind. intros H Hends Hwire Hnoerr Hwrites.
  destruct (open_turn E chat_id model message w) as [[r0 w1] evs1] eqn:Hopen.
  apply open_turn_spec in Hopen as (Hp1 & Ha1 & Hc1 & Hd1 & He1 & Hm1 & Hr0).
  destruct r0 as [id|e]; [|simplify_eq; congruence].
  destruct (try_except _ _ w1) as [[r2 w2] evs2] eqn:Hphase.
  apply stream_phase_spec in Hphase as (url & body & r1 & evs_r & _ & Hrelay & -> & Hend).
  rewrite Hends, (relay_wire _ _ _ Hwire Hnoerr) in Hrelay.
  set (deltas := omap delta_of (stream_chunks net).1) in *.
  simplify_eq. simpl in Hend. destruct Hend as (ra & evs_a & Hadd & ->).
  rewrite failed_writes_app in Hwrites. apply app_eq_nil in Hwrites as [_ Hwrites].
  apply add_message_spec in Hadd
    as [(e & -> & -> & ->)|(row & q & -> & -> & Hq & Hrow & Hmsgs & _)].
  { simpl in Hwrites. revert Hwrites. trace_simpl. discriminate. }
  exists row, (evs1 ++ EvPost url body :: content_events deltas), q.
  assert (is_assistant row) as Hrole by (subst row; reflexivity).
  split_and!.
  - rewrite <- !app_assoc. reflexivity.
  - assumption.
  - trace_simpl. rewrite Ha1. unfold assistant_messages. simpl.
    rewrite filter_cons_True by assumption. reflexivity.
  - eauto.
  - trace_simpl. rewrite Hc1. subst row. reflexivity.
  - trace_simpl. rewrite Hd1. reflexivity.
  - trace_simpl. rewrite He1. reflexivity.
  - reflexivity.
Qed.

(** X1. Every streaming turn that reaches the upstream server posts one
    request, whose body is the one built from the arguments of the turn
    (the generation parameters resolved as in C9), runs to its end, and
    hands the caller exactly one terminal frame: a done frame with the
    id of the one assistant message written, or an error frame with no
    assistant message written. *)
Theorem posted_stream_ends_in_one_terminal_frame
    (chat_id : option string) (model message : string) (history : list chat_message)
    (t_arg : option float) (n_arg : option Z) (net : stream_outcome)
    (w w' : world) (r : result unit) (evs : list event) :
  generate E cfg chat_id model message history t_arg n_arg net w = (r, w', evs) →
  posts evs ≠ [] →
  r = Ok tt
  ∧ posts evs = [build_request cfg true model message history t_arg n_arg]
  ∧ ((∃ row, done_frames (frames evs) = [m_id row] ∧ error_frames (frames evs) = []
             ∧ assistant_messages evs = [row])
     ∨ (∃ error, error_frames (frames evs) = [error] ∧ done_frames (frames evs) = []
                 ∧ assistant_messages evs = [])).
Proof.
  unfold generate, bind. intros H Hposted.
  destruct (open_turn E chat_id model message w) as [[r0 w1] evs1] eqn:Hopen.
  apply open_turn_spec in Hopen as (Hp1 & Ha1 & Hc1 & Hd1 & He1 & Hm1 & Hr0).
  destruct r0 as [id|e]; [|simplify_eq; contradiction].
  destruct (try_except _ _ w1) as [[r2 w2] evs2] eqn:Hphase.
  apply stream_phase_spec in Hphase as (url & body & r1 & evs_r & Hbody & Hrelay & -> & Hend).
  apply relay_spec in Hrelay as (_ & deltas & Hr1).
  injection H as <- <- <-. clear Hposted. split; [reflexivity|].
  destruct r1 as [[full_response|]|e].
  - destruct Hr1 as (-> & _ & _ & _). destruct Hend as (ra & evs_a & Hadd & ->).
    apply add_message_spec in Hadd
      as [(e & -> & -> & ->)|(row & q & -> & -> & Hq & Hrow & Hmsgs & _)].
    + split; [trace_simpl; simpl; trace_simpl; rewrite Hp1, Hbody; reflexivity|].
      right. eexists. split_and!; trace_simpl; simpl; trace_simpl;
        rewrite ?He1, ?Hd1, ?Ha1; reflexivity.
    + assert (is_assistant row) as Hrole by (subst row; reflexivity).
      split; [trace_simpl; simpl; trace_simpl; rewrite Hp1, Hbody; reflexivity|].
      left. exists row. split_and!; trace_simpl; simpl; trace_simpl;
        rewrite ?He1, ?Hd1, ?Ha1; try reflexivity.
      unfold assistant_messages. simpl. rewrite filter_cons_True by assumption. reflexivity.
  - destruct Hr1 as ((error & ->) & _). destruct Hend as (-> & ->).
    split; [trace_simpl; simpl; trace_simpl; rewrite Hp1, Hbody; reflexivity|].
    right. exists error. split_and!; trace_simpl; simpl; trace_simpl;
      rewrite ?He1, ?Hd1, ?Ha1; reflexivity.
  - subst evs_r. destruct Hend as (-> & ->).
    split; [trace_simpl; simpl; trace_simpl; rewrite Hp1, Hbody; reflexivity|].
    right. eexists. split_and!; trace_simpl; simpl; trace_simpl;
      rewrite ?He1, ?Hd1, ?Ha1; reflexivity.
Qed.

(** X2. A streaming turn stores the user's message before the request
    goes out, so a turn that fails at an error chunk leaves that message
    (and, without a conversation id, the new conversation) in storage:
    the user's message is the only message the turn writes. *)
Theorem failed_stream_keeps_user_message
    (chat_id : option string) (model message : string) (history : list chat_message)
    (t_arg : option float) (n_arg : option Z) (net : stream_outcome)
    (w w' : world) (r : result unit) (evs : list event) :
  generate E cfg chat_id model message history t_arg n_arg net w = (r, w', evs) →
  posts evs ≠ [] →
  Exists carries_error (stream_chunks net).1 →
  ∃ urow,
    inserted_messages evs = [urow]
    ∧ m_role urow = "user" ∧ m_content urow = JStr message
    ∧ messages w' = messages w ++ [urow]
    ∧ length (inserted_chats evs) = (if truthy chat_id then 0 else 1)%nat.
Proof.
  unfold generate, bind. intros H Hposted Hexists.
  destruct (open_turn E chat_id model message w) as [[r0 w1] evs1] eqn:Hopen.
  assert (∃ id urow, r0 = Ok id
            ∧ inserted_messages evs1 = [urow]
            ∧ m_role urow = "user" ∧ m_content urow = JStr message
            ∧ messages w1 = messages w ++ [urow]
            ∧ length (inserted_chats evs1) = (if truthy chat_id then 0 else 1)%nat)
    as (id & urow & -> & Hins & Hrole & Hcontent & Hmsgs & Hchats).
  { destruct (truthy chat_id) eqn:Htruthy.
    - destruct chat_id as [[|a id0]|]; try discriminate.
      apply open_turn_existing in Hopen
        as [(e & -> & -> & _)|(urow & q & -> & -> & Hq & Hrow & Hmsgs & _)].
      + simplify_eq; contradiction.
      + exists (String a id0), urow. subst urow. split_and!; trace_simpl; auto.
    - apply open_turn_new in Hopen
        as [(e & -> & -> & _)
           |[(crow & e & -> & -> & _)
            |(crow & crow' & urow & q & -> & -> & Hq & _ & _ & _ & Hrow & Hmsgs & _)]];
        [simplify_eq; contradiction | simplify_eq; contradiction | | assumption].
      exists (c_id crow), urow. subst urow. split_and!; trace_simpl; auto. }
  destruct (try_except _ _ w1) as [[r2 w2] evs2] eqn:Hphase.
  apply stream_phase_spec in Hphase as (url & body & r1 & evs_r & _ & Hrelay & -> & Hend).
  apply relay_spec in Hrelay as (_ & deltas & Hr1).
  injection H as <- <- <-. exists urow.
  destruct r1 as [[full_response|]|e].
  - destruct Hr1 as (_ & _ & _ & Hnone). destruct (Forall_not_Exists _ _ Hnone Hexists).
  - destruct Hr1 as ((error & ->) & _). destruct Hend as (-> & ->).
    split_and!; trace_simpl; rewrite ?Hins; auto.
  - subst evs_r. destruct Hend as (-> & ->).
    split_and!; trace_simpl; rewrite ?Hins; auto.
Qed.

End StreamRelay.

(* ===================================================================== *)
(** ** The blocking turn *)
(* ===================================================================== *)

Section BlockingTurn.
Context (E : environment) (cfg : settings).

Lemma load_history_spec chat_id w :
  ∃ history w1 q,
    load_history E chat_id w = (Ok history, w1, q)
    ∧ quiet q ∧ chats w1 = chats w ∧ messages w1 = messages w
    ∧ (truthy chat_id = false → w1 = w ∧ q = [] ∧ history = []).
Proof.
  unfold load_history.
  destruct chat_id as [[|a id]|];
    [exists [], w, []; split_and!; auto using quiet_nil | |
     exists [], w, []; split_and!; auto using quiet_nil].
  unfold bind, get_chat_messages, ret.
  destruct (sqlite_fault E (tick w)); do 3 eexists; (split; [reflexivity|]);
    simpl; split_and!; try reflexivity; try discriminate.
  - constructor; [split; discriminate | constructor].
  - constructor.
Qed.

(** The try block of [chat]: either every write succeeds and the reply
    carries the ids and the text of the response, or an exception is
    raised, by the write that fails or by the response having no text to
    read. Nothing is sent upstream. *)
Lemma store_turn_spec chat_id model message response w r w' evs :
  store_turn E chat_id model message response w = (r, w', evs) →
  (∃ e, r = Raise e ∧ posts evs = []
        ∧ (failed_writes evs = [e]
           ∨ failed_writes evs = []
             ∧ (response_content response = Raise e
                ∨ ∃ text, response_content response = Ok text
                          ∧ bind_content E text = TooLarge)))
  ∨ (∃ text id urow arow pre q1 q2 nu na,
       response_content response = Ok text
       ∧ r = Ok (ReplyOk id text (m_id arow))
       ∧ evs = pre ++ EvInsertMessage urow :: q1 ++ EvInsertMessage arow :: q2
       ∧ quiet q1 ∧ quiet q2
       ∧ urow = {| m_id := uuid4 E nu; m_chat_id := id; m_role := "user";
                   m_content := JStr message; m_timestamp := datetime_now E nu |}
       ∧ arow = {| m_id := uuid4 E na; m_chat_id := id; m_role := "assistant";
                   m_content := stored_content E text; m_timestamp := datetime_now E na |}
       ∧ (nu < na)%nat
       ∧ messages w' = messages w ++ [urow; arow]
       ∧ if truthy chat_id then chat_id = Some id ∧ pre = []
         else ∃ crow crow',
                pre = [EvInsertChat crow] ∧ c_id crow = id
                ∧ (id ∉ chat_ids w)
                ∧ c_title crow = title_of message ∧ c_model crow = model
                ∧ chats w' = chats w ++ [crow']
                ∧ c_id crow' = id ∧ c_title crow' = c_title crow
                ∧ c_model crow' = c_model crow).
Proof.
  intros H. unfold store_turn in H.
  destruct (truthy chat_id) eqn:Htruthy.
  - destruct chat_id as [[|a id]|]; try discriminate.
    unfold bind, lift, ret in H.
    destruct (add_message E (String a id) "user" (JStr message) w)
      as [[ru wu] evs_u] eqn:Hadd_u.
    apply add_message_spec in Hadd_u
      as [(e & -> & -> & ->)|(urow & q1 & -> & -> & Hq1 & Hurow & Hmsgs_u & Hchats_u & Htick_u & _)];
      [simplify_eq; left; eauto 6|].
    simpl in H.
    destruct (response_content response) as [text|e] eqn:Htext; simpl in H;
      [|unfold raise in H; simplify_eq; left; eexists; split_and!;
        [reflexivity | simpl; trace_simpl; reflexivity
        | right; split; [simpl; trace_simpl; reflexivity | left; reflexivity]]].
    destruct (add_message E (String a id) "assistant" text wu) as [[ra wa] evs_a] eqn:Hadd_a.
    apply add_message_cases in Hadd_a
      as [(e & -> & -> & [-> | [-> Hlarge]])
         |(arow & q2 & stored & Hbind & -> & -> & Hq2 & Harow & Hmsgs_a & Hchats_a & Htick_a & _)];
      simplify_eq.
    { left. eexists. split_and!; [reflexivity | | left]; simpl; trace_simpl; reflexivity. }
    { left. eexists. split_and!; [reflexivity | simpl; trace_simpl; reflexivity |].
      right. split; [simpl; trace_simpl; reflexivity | right; eauto]. }
    assert (stored_content E text = JStr stored) as Hstored
      by (unfold stored_content; rewrite Hbind; reflexivity).
    right.
    exists text, (String a id),
      {| m_id := uuid4 E (tick w); m_chat_id := String a id; m_role := "user";
         m_content := JStr message; m_timestamp := datetime_now E (tick w) |},
      {| m_id := uuid4 E (tick wu); m_chat_id := String a id; m_role := "assistant";
         m_content := JStr stored; m_timestamp := datetime_now E (tick wu) |},
      [], q1, q2, (tick w), (tick wu).
    rewrite Hstored. split_and!; try reflexivity; try assumption.
    + simpl. rewrite !app_nil_r. reflexivity.
    + lia.
    + rewrite Hmsgs_a, Hmsgs_u, <- app_assoc. reflexivity.
  - assert ((match chat_id with
             | Some (String _ _ as id) => ret id
             | _ => create_chat E (title_of message) model
             end) = create_chat E (title_of message) model) as Heq
      by (destruct chat_id as [[|]|]; try discriminate; reflexivity).
    rewrite Heq in H. clear Heq. unfold bind, lift, ret in H.
    destruct (create_chat E (title_of message) model w) as [[rc wc] evs_c] eqn:Hcreate.
    apply create_chat_spec in Hcreate
      as [(e & -> & -> & ->)|(crow & -> & -> & -> & Hfresh & Htitle & Hmodel)];
      [simplify_eq; left; eauto 6|].
    match type of H with
    | context [add_message E ?id ?role ?content ?w0] =>
        destruct (add_message E id role content w0) as [[ru wu] evs_u] eqn:Hadd_u;
        apply add_message_spec in Hadd_u
          as [(e & -> & -> & ->)
             |(urow & q1 & -> & -> & Hq1 & Hurow & Hmsgs_u & Hchats_u & Htick_u & _)]
    end; [simplify_eq; left; eexists; split_and!; [reflexivity | reflexivity | left; reflexivity]|].
    simpl in H.
    destruct (response_content response) as [text|e] eqn:Htext; simpl in H;
      [|unfold raise in H; simplify_eq; left; eexists; split_and!;
        [reflexivity | simpl; trace_simpl; reflexivity
        | right; split; [simpl; trace_simpl; reflexivity | left; reflexivity]]].
    destruct (add_message E (c_id crow) "assistant" text wu) as [[ra wa] evs_a] eqn:Hadd_a.
    apply add_message_cases in Hadd_a
      as [(e & -> & -> & [-> | [-> Hlarge]])
         |(arow & q2 & stored & Hbind & -> & -> & Hq2 & Harow & Hmsgs_a & Hchats_a & Htick_a & _)];
      simplify_eq.
    { left. eexists. split_and!; [reflexivity | | left]; simpl; trace_simpl; reflexivity. }
    { left. eexists. split_and!; [reflexivity | simpl; trace_simpl; reflexivity |].
      right. split; [simpl; trace_simpl; reflexivity | right; eauto]. }
    assert (stored_content E text = JStr stored) as Hstored
      by (unfold stored_content; rewrite Hbind; reflexivity).
    simpl in *.
    destruct (refreshed_new_chat (c_id crow) (chats w) crow (chats wu) eq_refl Hfresh Hchats_u)
      as (crow1 & Hchats1 & Hid1 & Htitle1 & Hmodel1).
    rewrite Hchats1 in Hchats_a.
    destruct (refreshed_new_chat (c_id crow) (chats w) crow1 (chats w') Hid1 Hfresh Hchats_a)
      as (crow2 & Hchats2 & Hid2 & Htitle2 & Hmodel2).
    right.
    exists text, (c_id crow),
      {| m_id := uuid4 E (S (tick w)); m_chat_id := c_id crow; m_role := "user";
         m_content := JStr message; m_timestamp := datetime_now E (S (tick w)) |},
      {| m_id := uuid4 E (tick wu); m_chat_id := c_id crow; m_role := "assistant";
         m_content := JStr stored; m_timestamp := datetime_now E (tick wu) |},
      [EvInsertChat crow], q1, q2, (S (tick w)), (tick wu).
    rewrite Hstored. split_and!; try reflexivity; try assumption.
    + simpl. rewrite !app_nil_r. reflexivity.
    + lia.
    + rewrite Hmsgs_a, Hmsgs_u, <- app_assoc. reflexivity.
    + exists crow, crow2. split_and!; try reflexivity; try assumption; congruence.
Qed.

(** C8. In a blocking turn whose upstream call succeeds (status 200, a
    decoded response without an error, with a text) and in which a
    database write then fails, the caller is answered with the warning,
    the generated text and the text of the storage error. *)
Theorem generated_text_survives_storage_failure
    (data : turn_request) (model message body_text : string)
    (response text : json) (w w' : world) (reply : result chat_reply) (evs : list event) :
  req_model data = Some model →
  req_message data = Some message →
  py_in "error" response = Ok false →
  response_content response = Ok text →
  server.chat E cfg data (HttpResponse 200 body_text (Ok response)) w = (reply, w', evs) →
  failed_writes evs ≠ [] →
  ∃ e, failed_writes evs = [e]
       ∧ reply = Ok (ReplyWarning "Antwort erhalten, aber Fehler beim Speichern"
                       text (str_exn e)).
Proof.
  intros Hmodel Hmessage Hnoerr Htext H Hfailed.
  unfold server.chat in H. rewrite Hmodel, Hmessage in H.
  unfold bind at 1 in H.
  destruct (load_history_spec (req_chat_id data) w) as (history & w1 & q & Hload & Hq & _).
  rewrite Hload in H.
  unfold bind, ollama_client.chat, emit, ret, lift in H. simpl in H.
  rewrite Hnoerr in H. simpl in H. unfold try_except in H.
  destruct (store_turn E (req_chat_id data) model message response w1)
    as [[rs ws] evs_s] eqn:Hstore.
  apply store_turn_spec in Hstore
    as [(e & -> & _ & [Hwrites|[Hnone Hwhy]])
       |(text' & id & urow & arow & pre & q1 & q2 & nu & na & _ & -> & -> & Hq1 & Hq2
         & _ & _ & _ & _ & Hpre)].
  - rewrite Htext in H. simpl in H. simplify_eq.
    exists e. split; [|reflexivity].
    trace_simpl. simpl. rewrite Hwrites. reflexivity.
  - rewrite Htext in H. simpl in H. simplify_eq. exfalso. apply Hfailed.
    trace_simpl. simpl. rewrite Hnone. reflexivity.
  - simplify_eq. exfalso. apply Hfailed.
    assert (failed_writes pre = []) as Hpre'.
    { destruct (truthy (req_chat_id data)).
      - destruct Hpre as [_ ->]. reflexivity.
      - destruct Hpre as (crow & crow' & -> & _). reflexivity. }
    trace_simpl. simpl. trace_simpl. rewrite Hpre'. simpl. trace_simpl. reflexivity.
Qed.

(** X3. A blocking turn writes only after the upstream answer: when the
    answer carries an error (the error dict of a failed request, or a
    decoded body that holds an error), the turn posts its one request
    and leaves both tables as they were (the conversation of a first
    message is not created, the user's message is not stored), and the
    reply is the 500 error, or the exception met on reading the error. *)
Theorem blocking_upstream_error_writes_nothing
    (data : turn_request) (model message : string) (net : http_outcome)
    (w w' : world) (reply : result chat_reply) (evs : list event) :
  req_model data = Some model →
  req_message data = Some message →
  carries_error (chat_result net) →
  server.chat E cfg data net w = (reply, w', evs) →
  chats w' = chats w ∧ messages w' = messages w
  ∧ inserted_chats evs = [] ∧ inserted_messages evs = []
  ∧ length (posts evs) = 1%nat
  ∧ ((∃ error, reply = Ok (Reply500 error)) ∨ (∃ e, reply = Raise e)).
Proof.
  intros Hmodel Hmessage Herror H.
  unfold server.chat in H. rewrite Hmodel, Hmessage in H.
  unfold bind at 1 in H.
  destruct (load_history_spec (req_chat_id data) w)
    as (history & w1 & q & Hload & Hq & Hchats & Hmsgs & _).
  rewrite Hload in H.
  unfold bind, ollama_client.chat, emit, ret, lift in H. simpl in H.
  unfold carries_error in Herror. rewrite Herror in H. simpl in H.
  destruct (py_getitem (chat_result net) "error") as [error|e]; simpl in H;
    injection H as <- <- <-; split_and!; trace_simpl; eauto.
Qed.

End BlockingTurn.

(* ===================================================================== *)
(** ** The first turn of a conversation *)
(* ===================================================================== *)

Lemma substring_all (s : string) (n : nat) : (String.length s ≤ n)%nat → substring 0 n s = s.
Proof.
  revert n. induction s as [|c s IH]; intros [|n] Hlen; try reflexivity.
  - simpl in Hlen. lia.
  - simpl in *. rewrite IH by lia. reflexivity.
Qed.

(** The title as the specification words it: the first 50 characters of
    the message, with an ellipsis appended if and only if the message is
    longer than 50 characters. *)
Lemma title_of_spec (message : string) :
  ((String.length message ≤ 50)%nat → title_of message = message)
  ∧ ((50 < String.length message)%nat → title_of message = substring 0 50 message +:+ "...").
Proof.
  unfold title_of. split; intros Hlen.
  - rewrite (proj2 (Nat.ltb_ge _ _)) by exact Hlen.
    rewrite substring_all by exact Hlen. apply append_nil_r.
  - rewrite (proj2 (Nat.ltb_lt _ _)) by exact Hlen. reflexivity.
Qed.

Section FirstTurn.
Context (E : environment) (cfg : settings).

Lemma order_two (urow arow : message_row) :
  m_timestamp urow ≤ m_timestamp arow → order_by_timestamp [urow; arow] = [urow; arow].
Proof.
  intros Hle. unfold order_by_timestamp. simpl.
  rewrite (proj2 (Z.leb_le _ _)) by exact Hle. reflexivity.
Qed.

Lemma no_messages_of_unknown_chat chat_id w :
  db_wf w → chat_id ∉ chat_ids w →
  filter (fun m => m_chat_id m = chat_id) (messages w) = [].
Proof.
  unfold db_wf. intros Hwf Hunknown.
  induction (messages w) as [|m ms IH]; [reflexivity|].
  rewrite filter_cons_False.
  - apply IH. intros m' Hm'. apply Hwf. right. exact Hm'.
  - intros <-. apply Hunknown, Hwf. left.
Qed.

Lemma first_turn_messages chat_id w w' urow arow :
  db_wf w → chat_id ∉ chat_ids w →
  messages w' = messages w ++ [urow; arow] →
  m_chat_id urow = chat_id → m_chat_id arow = chat_id →
  m_timestamp urow ≤ m_timestamp arow →
  select_messages chat_id w' = [urow; arow].
Proof.
  intros Hwf Hunknown Hmsgs Hu Ha Hle. unfold select_messages.
  rewrite Hmsgs, filter_app, no_messages_of_unknown_chat by assumption.
  rewrite filter_cons_True, filter_cons_True, filter_nil by assumption.
  apply order_two. exact Hle.
Qed.

(** A first turn that completes: exactly one conversation is created,
    titled from the message; the two messages are appended to the table,
    the user's first; and they are read back in that order when the
    timestamp of the assistant's message is not the earlier one. *)
Lemma completed_first_turn
    (mode : upstream) (data : turn_request) (message : string) (w w' : world)
    (evs : list event) (chat_id : string) (text : json) (message_id : string) :
  truthy (req_chat_id data) = false →
  req_message data = Some message →
  completes E cfg mode data w w' evs chat_id text message_id →
  ∃ crow crow' urow arow,
    inserted_chats evs = [crow]
    ∧ c_id crow = chat_id ∧ c_title crow = title_of message
    ∧ chats w' = chats w ++ [crow']
    ∧ c_id crow' = chat_id ∧ c_title crow' = c_title crow
    ∧ messages w' = messages w ++ [urow; arow]
    ∧ m_chat_id urow = chat_id ∧ m_chat_id arow = chat_id
    ∧ m_role urow = "user" ∧ m_content urow = JStr message
    ∧ m_role arow = "assistant" ∧ m_content arow = stored_content E text
    ∧ m_id arow = message_id
    ∧ (chat_id ∉ chat_ids w).
Proof.
  intros Hnoid Hmessage Hdone.
  destruct mode as [net|net]; simpl in Hdone.
  - (* blocking *)
    unfold server.chat in Hdone. rewrite Hmessage in Hdone.
    destruct (req_model data) as [model|]; [|discriminate].
    unfold bind at 1 in Hdone.
    destruct (load_history_spec E (req_chat_id data) w)
      as (history & w1 & q & Hload & _ & _ & _ & Hsame).
    destruct (Hsame Hnoid) as (-> & -> & ->). rewrite Hload in Hdone.
    unfold bind, ollama_client.chat, emit, ret, lift in Hdone. simpl in Hdone.
    destruct (py_in "error" (chat_result net)) as [[|]|e]; simpl in Hdone;
      [destruct (py_getitem _ _); simpl in Hdone; discriminate | | discriminate].
    unfold try_except in Hdone.
    destruct (store_turn E (req_chat_id data) model message (chat_result net) w)
      as [[rs ws] evs_s] eqn:Hstore.
    apply store_turn_spec in Hstore
      as [(e & -> & _)
         |(text' & id & urow & arow & pre & q1 & q2 & nu & na & Htext & -> & -> & Hq1 & Hq2
           & Hurow & Harow & Hlt & Hmsgs & Hpre)].
    { destruct (response_content (chat_result net)); simpl in Hdone; discriminate. }
    rewrite Hnoid in Hpre.
    destruct Hpre
      as (crow & crow' & -> & Hid & Hfresh & Htitle & Hmodel & Hchats & Hid' & Htitle' & _).
    simplify_eq.
    match type of Hmsgs with _ = _ ++ [?u; ?a] => exists crow, crow', u, a end.
    split_and!; try reflexivity; try assumption.
    simpl. trace_simpl. reflexivity.
  - (* streaming *)
    destruct Hdone as (Hrun & Hannounced & Hdone & ->).
    unfold stream_chat in Hrun. rewrite Hmessage in Hrun.
    destruct (req_model data) as [model|]; [|discriminate].
    unfold bind at 1 in Hrun.
    destruct (load_history_spec E (req_chat_id data) w)
      as (history & w0 & q & Hload & _ & _ & _ & Hsame).
    destruct (Hsame Hnoid) as (-> & -> & ->). rewrite Hload in Hrun.
    unfold bind at 1 in Hrun.
    destruct (generate E cfg _ model message [] _ _ net w) as [[rg wg] evs_g] eqn:Hgen.
    unfold generate, bind in Hgen.
    destruct (open_turn E (req_chat_id data) model message w) as [[r0 w1] evs1] eqn:Hopen.
    apply (open_turn_new E _ _ _ _ _ _ _ Hnoid) in Hopen
      as [(e & -> & -> & _)
         |[(crow & e & -> & -> & _)
          |(crow & crow1 & urow & q1 & -> & -> & Hq1 & Hfresh & Htitle & Hmodel & Hurow
            & Hmsgs1 & Hchats1 & Hid1 & Htitle1 & Hmodel1 & Htick1)]];
      [simplify_eq; discriminate | simplify_eq; discriminate |].
    destruct (try_except _ _ w1) as [[r2 w2] evs2] eqn:Hphase.
    apply stream_phase_spec in Hphase as (url & body & r1 & evs_r & _ & Hrelay & -> & Hend).
    apply relay_spec in Hrelay as (_ & deltas & Hr1).
    unfold ret in Hrun. simpl in Hrun. simplify_eq.
    rewrite !app_nil_r in *.
    destruct r1 as [[full_response|]|e].
    + destruct Hr1 as (-> & -> & _). destruct Hend as (ra & evs_a & Hadd & ->).
      apply add_message_spec in Hadd
        as [(e & -> & -> & ->)
           |(arow & q2 & -> & -> & Hq2 & Harow & Hmsgs2 & Hchats2 & Htick2 & _)].
      { revert Hdone. trace_simpl. discriminate. }
      rewrite Hchats1 in Hchats2.
      destruct (refreshed_new_chat (c_id crow) (chats w) crow1 (chats w') Hid1 Hfresh Hchats2)
        as (crow2 & Hchats' & Hid2 & Htitle2 & _).
      revert Hdone. trace_simpl. simpl. intros [= <-].
      revert Hannounced. trace_simpl. simpl. intros [= <-].
      match type of Hmsgs1 with _ = _ ++ [?u] => exists crow, crow2, u, arow end.
      subst arow.
      split_and!; try assumption; try reflexivity.
      * congruence.
      * rewrite Hmsgs2, Hmsgs1, <- app_assoc. reflexivity.
    + destruct Hr1 as ((error & ->) & _). destruct Hend as (-> & ->).
      revert Hdone. trace_simpl. discriminate.
    + subst evs_r. destruct Hend as (-> & ->).
      revert Hdone. trace_simpl. discriminate.
Qed.

Lemma order_two_back (urow arow : message_row) :
  m_timestamp arow < m_timestamp urow → order_by_timestamp [urow; arow] = [arow; urow].
Proof.
  intros Hlt. unfold order_by_timestamp. simpl.
  rewrite (proj2 (Z.leb_gt _ _)) by exact Hlt. reflexivity.
Qed.

Lemma add_message_chats chat_id role content w r w' evs :
  add_message E chat_id role content w = (r, w', evs) → inserted_chats evs = [].
Proof.
  intros H. apply add_message_cases in H
    as [(e & _ & _ & [-> | [-> _]])|(row & q & text & _ & _ & -> & Hq & _)];
    try reflexivity.
  simpl. trace_simpl. reflexivity.
Qed.

(** The conversations a first turn creates when it stores its messages:
    none when [create_chat] fails, one otherwise, titled from the
    message. *)
Lemma store_turn_chats chat_id model message response w r w' evs :
  truthy chat_id = false →
  store_turn E chat_id model message response w = (r, w', evs) →
  inserted_chats evs = []
  ∨ ∃ crow, inserted_chats evs = [crow] ∧ c_title crow = title_of message.
Proof.
  intros Hnoid H. unfold store_turn in H.
  assert ((match chat_id with
           | Some (String _ _ as id) => ret id
           | _ => create_chat E (title_of message) model
           end) = create_chat E (title_of message) model) as Heq
    by (destruct chat_id as [[|]|]; try discriminate; reflexivity).
  rewrite Heq in H. clear Heq. unfold bind at 1 in H.
  destruct (create_chat E (title_of message) model w) as [[rc wc] evs_c] eqn:Hcreate.
  apply create_chat_spec in Hcreate
    as [(e & -> & -> & ->)|(crow & -> & -> & -> & _ & Htitle & _)].
  { injection H as _ _ <-. left. reflexivity. }
  right. exists crow. split; [|exact Htitle].
  unfold bind at 1 in H.
  match type of H with
  | context [add_message E ?id ?role ?content ?w0] =>
      destruct (add_message E id role content w0) as [[ru wu] evs_u] eqn:Hadd_u
  end.
  pose proof (add_message_chats _ _ _ _ _ _ _ Hadd_u) as Hnone_u.
  destruct ru as [user_message_id|e];
    [|injection H as _ _ <-; trace_simpl; simpl; rewrite ?Hnone_u; reflexivity].
  unfold bind at 1 in H. unfold lift in H.
  destruct (response_content response) as [text|e]; unfold ret, raise in H;
    [|injection H as _ _ <-; trace_simpl; simpl; rewrite ?Hnone_u; reflexivity].
  unfold bind in H.
  destruct (add_message E (c_id crow) "assistant" text wu) as [[ra wa] evs_a] eqn:Hadd_a.
  pose proof (add_message_chats _ _ _ _ _ _ _ Hadd_a) as Hnone_a.
  destruct ra as [assistant_message_id|e]; injection H as _ _ <-;
    trace_simpl; simpl; rewrite ?Hnone_u, ?Hnone_a; reflexivity.
Qed.

(** The conversations of a first turn, whatever its outcome. *)
Lemma first_turn_chats (mode : upstream) (data : turn_request) (message : string) (w : world) :
  truthy (req_chat_id data) = false →
  req_message data = Some message →
  inserted_chats (turn_events E cfg mode data w) = []
  ∨ ∃ crow, inserted_chats (turn_events E cfg mode data w) = [crow]
            ∧ c_title crow = title_of message.
Proof.
  intros Hnoid Hmessage.
  destruct (load_history_spec E (req_chat_id data) w)
    as (history & w0 & q & Hload & _ & _ & _ & Hsame).
  destruct (Hsame Hnoid) as (-> & -> & ->).
  destruct mode as [net|net]; simpl.
  - destruct (server.chat E cfg data net w) as [[r w'] evs] eqn:H. simpl.
    unfold server.chat in H. rewrite Hmessage in H.
    destruct (req_model data) as [model|]; [|injection H as _ _ <-; left; reflexivity].
    unfold bind at 1 in H. rewrite Hload in H.
    unfold bind, ollama_client.chat, emit, ret, lift in H. simpl in H.
    destruct (py_in "error" (chat_result net)) as [[|]|e]; simpl in H.
    + destruct (py_getitem _ _); simpl in H; injection H as _ _ <-; left; reflexivity.
    + unfold try_except in H.
      destruct (store_turn E (req_chat_id data) model message (chat_result net) w)
        as [[rs ws] evs_s] eqn:Hstore.
      apply (store_turn_chats _ _ _ _ _ _ _ _ Hnoid) in Hstore.
      assert (evs = EvPost (api_url (ollama_client cfg) +:+ "/api/chat")
                      (build_request cfg false model message []
                         (req_temperature data) (req_max_tokens data)) :: evs_s) as ->.
      { destruct rs as [reply|e]; [injection H as _ _ <-; reflexivity|].
        destruct (response_content (chat_result net)); simpl in H;
          injection H as _ _ <-; rewrite ?app_nil_r; reflexivity. }
      trace_simpl. exact Hstore.
    + injection H as _ _ <-. left. reflexivity.
  - destruct (stream_chat E cfg data net w) as [[r w'] evs] eqn:H. simpl.
    unfold stream_chat in H. rewrite Hmessage in H.
    destruct (req_model data) as [model|]; [|injection H as _ _ <-; left; reflexivity].
    unfold bind at 1 in H. rewrite Hload in H. unfold bind at 1 in H.
    destruct (generate E cfg _ model message [] _ _ net w) as [[rg wg] evs_g] eqn:Hgen.
    assert (evs = evs_g) as ->.
    { destruct rg; unfold ret in H; simpl in H; injection H as _ _ <-;
        rewrite ?app_nil_r; reflexivity. }
    clear H. unfold generate, bind in Hgen.
    destruct (open_turn E (req_chat_id data) model message w) as [[r0 w1] evs1] eqn:Hopen.
    apply (open_turn_new E _ _ _ _ _ _ _ Hnoid) in Hopen
      as [(e & -> & -> & _)
         |[(crow & e & -> & -> & _ & _ & Htitle)
          |(crow & crow1 & urow & q1 & -> & -> & Hq1 & _ & Htitle & _)]].
    + injection Hgen as _ _ <-. left. reflexivity.
    + injection Hgen as _ _ <-. right. exists crow. split; [reflexivity | exact Htitle].
    + destruct (try_except _ _ w1) as [[r2 w2] evs2] eqn:Hphase.
      apply stream_phase_spec in Hphase as (url & body & r1 & evs_r & _ & Hrelay & -> & Hend).
      apply relay_spec in Hrelay as (_ & deltas & Hr1).
      injection Hgen as _ _ <-. right. exists crow. split; [|exact Htitle].
      destruct r1 as [[full_response|]|e].
      * destruct Hr1 as (-> & _). destruct Hend as (ra & evs_a & Hadd & ->).
        apply add_message_chats in Hadd.
        trace_simpl. simpl. trace_simpl. rewrite Hadd. reflexivity.
      * destruct Hr1 as ((error & ->) & _). destruct Hend as (-> & ->).
        trace_simpl. simpl. trace_simpl. reflexivity.
      * subst evs_r. destruct Hend as (-> & ->).
        trace_simpl. simpl. trace_simpl. reflexivity.
Qed.

(** C5, as the handlers do it. In every first turn, blocking or
    streaming, sent with no conversation id, at most one conversation
    is created, and one that is created has as its title the first 50
    characters of the message, with an ellipsis appended if and only if
    the message is longer. When the turn completes, exactly one is
    created, the table of conversations grows by that one, and the two
    messages of the conversation are appended, the user's first, then
    the assistant's, which has the id the caller was given and as its
    content the text, as the column stores it; read back from a
    database with referential integrity they come in the order of
    their timestamps: the user's message first when the clock reading
    of the assistant's write is not the earlier one, the assistant's
    first when it is. *)
Theorem first_turn_creates_conversation_with_both_messages
    (mode : upstream) (data : turn_request) (message : string) (w : world) :
  truthy (req_chat_id data) = false →
  req_message data = Some message →
  (inserted_chats (turn_events E cfg mode data w) = []
   ∨ ∃ crow, inserted_chats (turn_events E cfg mode data w) = [crow]
             ∧ c_title crow = title_of message)
  ∧ ((String.length message ≤ 50)%nat → title_of message = message)
  ∧ ((50 < String.length message)%nat
     → title_of message = substring 0 50 message +:+ "...")
  ∧ ∀ w' evs chat_id text message_id,
      completes E cfg mode data w w' evs chat_id text message_id →
      ∃ crow crow' urow arow,
        inserted_chats evs = [crow]
        ∧ c_id crow = chat_id ∧ c_title crow = title_of message
        ∧ chats w' = chats w ++ [crow']
        ∧ c_id crow' = chat_id ∧ c_title crow' = c_title crow
        ∧ messages w' = messages w ++ [urow; arow]
        ∧ m_role urow = "user" ∧ m_content urow = JStr message
        ∧ m_role arow = "assistant" ∧ m_content arow = stored_content E text
        ∧ m_id arow = message_id
        ∧ (db_wf w → m_timestamp urow ≤ m_timestamp arow →
           select_messages chat_id w' = [urow; arow])
        ∧ (db_wf w → m_timestamp arow < m_timestamp urow →
           select_messages chat_id w' = [arow; urow]).
Proof.
  intros Hnoid Hmessage.
  pose proof (title_of_spec message) as [Hshort Hlong].
  split_and!; [apply first_turn_chats; assumption | exact Hshort | exact Hlong |].
  intros w' evs chat_id text message_id Hdone.
  apply completed_first_turn with (message := message) in Hdone; [|assumption..].
  destruct Hdone as (crow & crow' & urow & arow & Hone & Hid & Htitle & Hchats & Hid' & Htitle'
                     & Hmsgs & Hu & Ha & Hurole & Hucontent & Harole & Hacontent & Haid
                     & Hfresh).
  exists crow, crow', urow, arow. split_and!; try assumption.
  - intros Hwf Hle. apply (first_turn_messages _ w); assumption.
  - intros Hwf Hlt. unfold select_messages.
    rewrite Hmsgs, filter_app, no_messages_of_unknown_chat by assumption.
    rewrite filter_cons_True, filter_cons_True, filter_nil by assumption.
    apply order_two_back. exact Hlt.
Qed.

End FirstTurn.

(* ===================================================================== *)
(** ** Deleting a conversation *)
(* ===================================================================== *)

Section Deletion.
Context (E : environment).

Lemma find_chat_filter (chat_id other : string) (cs : list chat_row) :
  find (fun c => bool_decide (c_id c = other)) (filter (fun c => c_id c ≠ chat_id) cs)
  = if decide (other = chat_id) then None else find (fun c => bool_decide (c_id c = other)) cs.
Proof.
  induction cs as [|c cs IH]; [destruct (decide _); reflexivity|].
  destruct (decide (c_id c = chat_id)) as [Heq|Hne].
  - rewrite filter_cons_False by auto. rewrite IH.
    destruct (decide (other = chat_id)) as [->|Hother]; [reflexivity|].
    simpl. rewrite bool_decide_eq_false_2 by congruence. reflexivity.
  - rewrite filter_cons_True by assumption. simpl. rewrite IH.
    destruct (decide (other = chat_id)) as [->|Hother];
      [rewrite bool_decide_eq_false_2 by assumption|]; reflexivity.
Qed.

Lemma filter_messages_filter (chat_id other : string) (ms : list message_row) :
  filter (fun m => m_chat_id m = other) (filter (fun m => m_chat_id m ≠ chat_id) ms)
  = if decide (other = chat_id) then [] else filter (fun m => m_chat_id m = other) ms.
Proof.
  induction ms as [|m ms IH]; [destruct (decide _); reflexivity|].
  destruct (decide (m_chat_id m = chat_id)) as [Heq|Hne].
  - rewrite filter_cons_False by auto. rewrite IH.
    destruct (decide (other = chat_id)) as [->|Hother]; [reflexivity|].
    rewrite (filter_cons_False _ m) by congruence. reflexivity.
  - rewrite filter_cons_True by assumption.
    destruct (decide (other = chat_id)) as [->|Hother].
    + rewrite filter_cons_False by assumption. exact IH.
    + destruct (decide (m_chat_id m = other)) as [Hm|Hm].
      * rewrite !filter_cons_True by assumption. f_equal. exact IH.
      * rewrite !filter_cons_False by assumption. exact IH.
Qed.

(** X5. A delete that the database carries out removes the conversation
    and, with it, all of its messages (ON DELETE CASCADE), and touches
    no other conversation: afterwards the id is not found, it has no
    messages, and every other id reads as before. *)
Theorem delete_chat_cascades (chat_id : string) (w : world) :
  sqlite_fault E (tick w) = None →
  db_wf w →
  ∃ w', delete_chat E chat_id w = (Ok true, w', [EvDeleteChat chat_id])
        ∧ select_chat chat_id w' = None
        ∧ select_messages chat_id w' = []
        ∧ ∀ other, other ≠ chat_id →
            select_chat other w' = select_chat other w
            ∧ select_messages other w' = select_messages other w.
Proof.
  intros Hfault Hwf. unfold delete_chat. rewrite Hfault. eexists. split; [reflexivity|].
  unfold select_chat, select_messages. simpl.
  assert (∀ other,
            filter (fun m => m_chat_id m = other)
              (if decide (chat_id ∈ chat_ids w)
               then filter (fun m => m_chat_id m ≠ chat_id) (messages w)
               else messages w)
            = if decide (other = chat_id) then []
              else filter (fun m => m_chat_id m = other) (messages w)) as Hmessages.
  { intros other. destruct (decide (chat_id ∈ chat_ids w)) as [Hin|Hout].
    - apply filter_messages_filter.
    - destruct (decide (other = chat_id)) as [->|_]; [|reflexivity].
      apply no_messages_of_unknown_chat; assumption. }
  split_and!.
  - rewrite find_chat_filter, decide_True by reflexivity. reflexivity.
  - rewrite Hmessages, decide_True by reflexivity. reflexivity.
  - intros other Hother. rewrite find_chat_filter, Hmessages, !decide_False by assumption.
    split; reflexivity.
Qed.

End Deletion.

(* ===================================================================== *)
(** ** The list of conversations *)
(* ===================================================================== *)

Section ChatListFacts.
Context (E : environment).

Lemma insert_by_updated_at_perm (r : chat_row) (l : list chat_row) :
  insert_by_updated_at r l ≡ₚ r :: l.
Proof.
  induction l as [|x l IH]; [reflexivity|]. simpl.
  destruct (c_updated_at x <=? c_updated_at r); [reflexivity|].
  rewrite IH. apply Permutation_swap.
Qed.

Lemma order_by_updated_at_desc_perm (l : list chat_row) :
  order_by_updated_at_desc l ≡ₚ l.
Proof.
  induction l as [|x l IH]; [reflexivity|].
  unfold order_by_updated_at_desc in *. simpl.
  rewrite insert_by_updated_at_perm, IH. reflexivity.
Qed.

Lemma insert_by_updated_at_sorted (r : chat_row) (l : list chat_row) :
  newest_first l → newest_first (insert_by_updated_at r l).
Proof.
  unfold newest_first. induction 1 as [|x l Hl IH Hx]; simpl.
  { repeat constructor. }
  destruct (c_updated_at x <=? c_updated_at r) eqn:Hle.
  - apply Z.leb_le in Hle. constructor; [constructor; assumption|].
    constructor; [exact Hle|].
    eapply Forall_impl; [exact Hx|]. simpl. intros y Hy. lia.
  - apply Z.leb_gt in Hle. constructor; [exact IH|].
    rewrite insert_by_updated_at_perm. constructor; [lia | exact Hx].
Qed.

Lemma order_by_updated_at_desc_sorted (l : list chat_row) :
  newest_first (order_by_updated_at_desc l).
Proof.
  induction l as [|x l IH]; [constructor|].
  apply insert_by_updated_at_sorted. exact IH.
Qed.

(** X8. The list of conversations holds every stored conversation
    exactly once, the most recently updated first, and leaves the tables
    as they are; when the database call fails, the answer is the empty
    list, as for a database without conversations. *)
Theorem conversations_listed_newest_first (w : world) :
  ∃ l, (get_all_chats E w).1.1 = Ok l
       ∧ newest_first l
       ∧ match sqlite_fault E (tick w) with
         | None => l ≡ₚ chats w
         | Some _ => l = []
         end
       ∧ chats (get_all_chats E w).1.2 = chats w
       ∧ messages (get_all_chats E w).1.2 = messages w.
Proof.
  unfold get_all_chats. destruct (sqlite_fault E (tick w)); eexists; simpl.
  - split_and!; try reflexivity. constructor.
  - split_and!; try reflexivity.
    + apply order_by_updated_at_desc_sorted.
    + apply order_by_updated_at_desc_perm.
Qed.

Lemma touched_chat (now : Z) (chat_id : string) (l : list chat_row) (c : chat_row) :
  c ∈ touch now chat_id <$> l →
  (∀ c0, c0 ∈ l → c_updated_at c0 < now) →
  c_id c = chat_id ∧ c_updated_at c = now ∨ c_id c ≠ chat_id ∧ c_updated_at c < now.
Proof.
  intros Hc Hold. apply list_elem_of_fmap in Hc as (c0 & -> & Hc0).
  unfold touch. destruct (decide (c_id c0 = chat_id)) as [Heq|Hne]; simpl.
  - left. split; [exact Heq | reflexivity].
  - right. split; [exact Hne | apply Hold; exact Hc0].
Qed.

(** X9. A conversation that has just got a message is the first of the
    list: after a successful [add_message] whose timestamp update went
    through, at a clock reading later than every stored [updated_at],
    the list of conversations starts with that conversation, stamped
    with that reading. *)
Theorem answered_conversation_is_listed_first
    (chat_id role : string) (content : json) (w w1 : world)
    (message_id : string) (evs : list event) :
  add_message E chat_id role content w = (Ok message_id, w1, evs) →
  sqlite_fault E (S (tick w)) = None →
  sqlite_fault E (tick w1) = None →
  (∀ c, c ∈ chats w → c_updated_at c < datetime_now E (S (tick w))) →
  ∃ c rest,
    (get_all_chats E w1).1.1 = Ok (c :: rest)
    ∧ c_id c = chat_id
    ∧ c_updated_at c = datetime_now E (S (tick w)).
Proof.
  intros Hadd Hupdate Hlist Hclock.
  assert (chats w1 = touch (datetime_now E (S (tick w))) chat_id <$> chats w
          ∧ chat_id ∈ chat_ids w) as [Hchats Hknown].
  { unfold add_message, bind, insert_message, fail_write in Hadd.
    destruct (sqlite_fault E (tick w)); [discriminate|].
    destruct (bind_content E content) as [stored|msg|]; [|discriminate|discriminate].
    destruct (decide (uuid4 E (tick w) ∈ message_ids w)); [discriminate|].
    destruct (decide (chat_id ∈ chat_ids w)) as [Hknown|]; [|discriminate].
    unfold update_chat_timestamp in Hadd. simpl in Hadd. rewrite Hupdate in Hadd.
    simpl in Hadd. unfold ret in Hadd. simplify_eq. split; [reflexivity | exact Hknown]. }
  unfold get_all_chats. rewrite Hlist. simpl.
  pose proof (order_by_updated_at_desc_perm (chats w1)) as Hperm.
  pose proof (order_by_updated_at_desc_sorted (chats w1)) as Hsorted.
  apply list_elem_of_fmap in Hknown as (c0 & Hid & Hc0).
  assert (touch (datetime_now E (S (tick w))) chat_id c0 ∈ order_by_updated_at_desc (chats w1))
    as Hin.
  { rewrite Hperm, Hchats. apply list_elem_of_fmap. eauto. }
  assert (c_id (touch (datetime_now E (S (tick w))) chat_id c0) = chat_id
          ∧ c_updated_at (touch (datetime_now E (S (tick w))) chat_id c0)
            = datetime_now E (S (tick w))) as [Htid Htnow].
  { unfold touch. rewrite decide_True by congruence. simpl. split; congruence. }
  destruct (order_by_updated_at_desc (chats w1)) as [|c rest] eqn:Hl.
  { apply elem_of_nil in Hin. contradiction. }
  exists c, rest. split; [reflexivity|].
  assert (c ∈ touch (datetime_now E (S (tick w))) chat_id <$> chats w) as Hc.
  { rewrite <- Hchats, <- Hperm. left. }
  apply touched_chat in Hc as [Hc|[Hne Hlt]]; [exact Hc | | exact Hclock].
  exfalso. apply elem_of_cons in Hin as [Heq|Hrest].
  - rewrite <- Heq in Hne. contradiction.
  - apply StronglySorted_inv in Hsorted as [_ Hall].
    rewrite Forall_forall in Hall. specialize (Hall _ Hrest). simpl in Hall. lia.
Qed.

End ChatListFacts.

(* ===================================================================== *)
(** ** Reading a conversation back, and sending it upstream *)
(* ===================================================================== *)

Section ReadBack.
Context (E : environment) (cfg : settings).

Lemma insert_by_timestamp_snoc (x r : message_row) (l : list message_row) :
  m_timestamp x ≤ m_timestamp r →
  insert_by_timestamp x (l ++ [r]) = insert_by_timestamp x l ++ [r].
Proof.
  intros Hle. induction l as [|y l IH]; simpl.
  - rewrite (proj2 (Z.leb_le _ _)) by exact Hle. reflexivity.
  - destruct (m_timestamp x <=? m_timestamp y); [reflexivity|]. rewrite IH. reflexivity.
Qed.

Lemma order_by_timestamp_snoc (l : list message_row) (r : message_row) :
  (∀ m, m ∈ l → m_timestamp m ≤ m_timestamp r) →
  order_by_timestamp (l ++ [r]) = order_by_timestamp l ++ [r].
Proof.
  unfold order_by_timestamp. induction l as [|x l IH]; intros Hle; [reflexivity|].
  simpl. rewrite IH by (intros m Hm; apply Hle; right; exact Hm).
  apply insert_by_timestamp_snoc. apply Hle. left.
Qed.

Lemma select_chat_known (chat_id : string) (w : world) :
  chat_id ∈ chat_ids w → ∃ c, select_chat chat_id w = Some c ∧ c_id c = chat_id.
Proof.
  unfold select_chat, chat_ids. induction (chats w) as [|c cs IH]; intros Hin.
  { apply elem_of_nil in Hin. contradiction. }
  simpl. destruct (decide (c_id c = chat_id)) as [Heq|Hne].
  - rewrite bool_decide_eq_true_2 by exact Heq. eauto.
  - rewrite bool_decide_eq_false_2 by exact Hne. apply IH.
    rewrite fmap_cons in Hin. apply elem_of_cons in Hin as [Heq|Hin]; [congruence | exact Hin].
Qed.

(** X10. A message that [add_message] has stored is read back: when the
    clock reading of the write is not earlier than the timestamps of the
    messages the conversation already has, reading the conversation by
    its id finds it and gives its earlier messages, in their order,
    followed by the new message with the id and the role of the write
    and with its content as the TEXT column stores it: a [str] as it
    is, an [int] as its decimal text, a [bool] as ["1"] or ["0"]. *)
Theorem added_message_is_read_back
    (chat_id role : string) (content : json) (w w1 : world)
    (message_id : string) (evs : list event) :
  add_message E chat_id role content w = (Ok message_id, w1, evs) →
  sqlite_fault E (tick w1) = None →
  (∀ m, m ∈ messages w → m_chat_id m = chat_id → m_timestamp m ≤ datetime_now E (tick w)) →
  ∃ c row text,
    (get_chat_by_id E chat_id w1).1.1
      = Ok (ChatFound c (select_messages chat_id w ++ [row]))
    ∧ c_id c = chat_id
    ∧ m_id row = message_id ∧ m_role row = role
    ∧ m_content row = JStr text
    ∧ bind_content E content = Bound text
    ∧ (∀ s, content = JStr s → text = s)
    ∧ (∀ n, content = JInt n → text = str_int n)
    ∧ (∀ b, content = JBool b → text = if b then "1" else "0").
Proof.
  intros Hadd Hread Hclock.
  apply add_message_cases in Hadd
    as [(e & Hraise & _)
       |(row & q & text & Hbind & Hid & _ & _ & Hrow & Hmsgs & Hchats & _ & Hknown & _)];
    [discriminate|].
  injection Hid as ->.
  assert (chat_ids w1 = chat_ids w) as Hids by (apply (refreshed_ids chat_id); exact Hchats).
  destruct (select_chat_known chat_id w1) as (c & Hc & Hcid); [rewrite Hids; exact Hknown|].
  exists c, row, text. unfold get_chat_by_id, bind, get_chat. rewrite Hread, Hc. simpl.
  split_and!; try (subst row; reflexivity); try assumption.
  - do 2 f_equal. unfold select_messages. rewrite Hmsgs, filter_app.
    rewrite (filter_cons_True _ row) by (subst row; reflexivity). rewrite filter_nil.
    apply order_by_timestamp_snoc. intros m Hm.
    apply list_elem_of_filter in Hm as [Hchat Hm].
    subst row. simpl. apply Hclock; assumption.
  - intros s ->. injection Hbind as <-. reflexivity.
  - intros n ->. simpl in Hbind. destruct (_ && _); [|discriminate].
    injection Hbind as <-. reflexivity.
  - intros b ->. injection Hbind as <-. reflexivity.
Qed.

Lemma load_history_known (a : Ascii.ascii) (id0 : string) (w : world) :
  ∃ q, load_history E (Some (String a id0)) w
       = (Ok (conversation_so_far E (String a id0) w), next_tick w, q)
       ∧ quiet q.
Proof.
  unfold load_history, conversation_so_far, bind, get_chat_messages, ret, as_history.
  destruct (sqlite_fault E (tick w)); eexists; (split; [reflexivity|]).
  - constructor; [split; discriminate | constructor].
  - constructor.
Qed.

(** X11. A follow-up turn sends the conversation so far upstream, once:
    with a conversation id in the request, the one request a blocking
    turn posts, and the one a streaming turn posts if it posts at all,
    has as its messages the stored messages of that conversation in the
    order of their timestamps, as read before the turn writes anything,
    followed by the new message; when that read fails, the request goes
    out with the new message alone. *)
Theorem follow_up_turn_sends_conversation_so_far
    (data : turn_request) (model message id : string) (w : world) :
  req_model data = Some model →
  req_message data = Some message →
  req_chat_id data = Some id →
  id ≠ EmptyString →
  let history := conversation_so_far E id w in
  (∀ net, posts (server.chat E cfg data net w).2
          = [build_request cfg false model message history
               (req_temperature data) (req_max_tokens data)])
  ∧ (∀ net, posts (stream_chat E cfg data net w).2 ≠ [] →
            posts (stream_chat E cfg data net w).2
            = [build_request cfg true model message history
                 (req_temperature data) (req_max_tokens data)])
  ∧ rb_messages (build_request cfg true model message history
                   (req_temperature data) (req_max_tokens data))
    = history ++ [ {| role := "user"; content := JStr message |} ].
Proof.
  intros Hmodel Hmessage Hid Hnonempty.
  destruct id as [|a id0]; [contradiction|]. intros history.
  destruct (load_history_known a id0 w) as (q & Hload & Hq). fold history in Hload.
  split_and!.
  - intros net. unfold server.chat. rewrite Hmodel, Hmessage, Hid.
    unfold bind at 1. rewrite Hload.
    unfold bind, ollama_client.chat, emit, ret, lift. simpl.
    destruct (py_in "error" (chat_result net)) as [[|]|e]; simpl.
    + destruct (py_getitem (chat_result net) "error"); simpl; trace_simpl; reflexivity.
    + unfold try_except.
      destruct (store_turn E (Some (String a id0)) model message (chat_result net) (next_tick w))
        as [[rs ws] evs_s] eqn:Hstore.
      apply store_turn_spec in Hstore
        as [(e & -> & Hposts & _)
           |(text & id & urow & arow & pre & q1 & q2 & nu & na & _ & -> & -> & Hq1 & Hq2
             & _ & _ & _ & _ & Hpre)].
      * destruct (response_content (chat_result net)); simpl; trace_simpl;
          rewrite Hposts; reflexivity.
      * simpl in Hpre. destruct Hpre as [_ ->]. simpl. trace_simpl. reflexivity.
    + trace_simpl. reflexivity.
  - intros net. destruct (stream_chat E cfg data net w) as [[r w'] evs] eqn:H. simpl.
    unfold stream_chat in H. rewrite Hmodel, Hmessage, Hid in H.
    unfold bind at 1 in H. rewrite Hload in H. unfold bind at 1 in H.
    destruct (generate E cfg (Some (String a id0)) model message history
                (req_temperature data) (req_max_tokens data) net (next_tick w))
      as [[rg wg] evs_g] eqn:Hgen.
    assert (posts evs_g ≠ [] →
            posts evs_g = [build_request cfg true model message history
                             (req_temperature data) (req_max_tokens data)]) as Hposts.
    { clear Hload. unfold generate, bind in Hgen.
      destruct (open_turn E (Some (String a id0)) model message (next_tick w))
        as [[r0 w1] evs1] eqn:Hopen.
      apply open_turn_spec in Hopen as (Hp1 & _).
      destruct r0 as [id|e]; [|simplify_eq; contradiction].
      destruct (try_except _ _ w1) as [[r2 w2] evs2] eqn:Hphase.
      apply stream_phase_spec in Hphase
        as (url & body & r1 & evs_r & Hbody & Hrelay & -> & Hend).
      apply relay_spec in Hrelay as (_ & deltas & Hr1).
      injection Hgen as <- <- <-. intros _.
      destruct r1 as [[full_response|]|e].
      - destruct Hr1 as (-> & _). destruct Hend as (ra & evs_a & Hadd & ->).
        apply add_message_spec in Hadd
          as [(e & -> & -> & ->)|(row & q' & -> & -> & Hq' & _)];
          trace_simpl; simpl; trace_simpl; rewrite Hp1, Hbody; reflexivity.
      - destruct Hr1 as ((error & ->) & _). destruct Hend as (-> & ->).
        trace_simpl; simpl; trace_simpl. rewrite Hp1, Hbody. reflexivity.
      - subst evs_r. destruct Hend as (-> & ->).
        trace_simpl; simpl; trace_simpl. rewrite Hp1, Hbody. reflexivity. }
    destruct rg; unfold ret in H; simpl in H; injection H as <- <- <-;
      trace_simpl; exact Hposts.
  - unfold build_request. destruct (resolve_options _ _ _ _). reflexivity.
Qed.

End ReadBack.

(* ===================================================================== *)
(** ** The servers table *)
(* ===================================================================== *)

Section ServerFacts.
Context (E : environment) (cfg : settings).

Lemma filter_fmap_length {A} (P : A → Prop) `{∀ x, Decision (P x)} (f : A → A) (l : list A) :
  (∀ x, P (f x) ↔ P x) → length (filter P (f <$> l)) = length (filter P l).
Proof.
  intros Hf. induction l as [|x l IH]; [reflexivity|]. rewrite fmap_cons.
  destruct (decide (P x)) as [Hx|Hx].
  - rewrite (filter_cons_True _ (f x)) by (apply Hf; exact Hx).
    rewrite (filter_cons_True _ x) by exact Hx. simpl. rewrite IH. reflexivity.
  - rewrite (filter_cons_False _ (f x)) by (rewrite Hf; exact Hx).
    rewrite (filter_cons_False _ x) by exact Hx. exact IH.
Qed.

Lemma filter_unset_default (l : list server_row) :
  filter is_default (unset_default <$> l) = [].
Proof.
  induction l as [|x l IH]; [reflexivity|]. rewrite fmap_cons.
  rewrite filter_cons_False; [exact IH|]. unfold is_default. simpl. auto.
Qed.

Lemma insert_server_spec (row : server_row) (table table' : list server_row) :
  insert_server row table = Ok table' → table' = table ++ [row] ∧ s_id row ∉ s_id <$> table.
Proof.
  unfold insert_server. destruct (decide _); [discriminate|].
  intros [= <-]. split; [reflexivity | assumption].
Qed.

(** What [save_server] does to the table. *)
Lemma save_server_spec name url as_default db r db' :
  save_server E name url as_default db = (r, db') →
  calls db' = S (calls db)
  ∧ match r with
    | Ok server_id =>
        ∃ row,
          rows db' = (if as_default then unset_default <$> rows db else rows db) ++ [row]
          ∧ row = {| s_id := server_id; s_name := name; s_url := url;
                     s_last_connected := datetime_now E (calls db);
                     s_is_default := if as_default then 1 else 0 |}
          ∧ server_id = uuid4 E (calls db)
          ∧ (server_id ∉ server_ids db)
    | Raise e => rows db' = rows db
    end.
Proof.
  unfold save_server. destruct (sqlite_fault E (calls db)).
  { intros [= <- <-]. split; reflexivity. }
  destruct (insert_server _ _) as [table'|e] eqn:Hins.
  - intros [= <- <-]. split; [reflexivity|].
    apply insert_server_spec in Hins as [-> Hfresh]. eexists. split_and!; try reflexivity.
    simpl in Hfresh. unfold server_ids.
    destruct as_default; [|exact Hfresh].
    rewrite <- list_fmap_compose in Hfresh. exact Hfresh.
  - intros [= <- <-]. split; reflexivity.
Qed.

Lemma defaults_after_call (db : registry) (c : registry_call) :
  (defaults db ≠ [] → defaults (after_call E cfg db c) ≠ [])
  ∧ (length (defaults db) ≤ 1 → length (defaults (after_call E cfg db c)) ≤ 1)%nat.
Proof.
  unfold defaults. destruct c as [|name url as_default|server_id| |]; simpl.
  - unfold init_db. destruct (sqlite_fault E (calls db)); [auto|].
    destruct (length (filter is_default (rows db)) =? 0)%nat eqn:Hcount; [|auto].
    apply Nat.eqb_eq in Hcount. apply length_zero_iff_nil in Hcount.
    destruct (insert_server _ _) as [table|e] eqn:Hins; [|auto].
    apply insert_server_spec in Hins as [-> _]. simpl.
    rewrite filter_app, Hcount. simpl.
    rewrite filter_cons_True by reflexivity. split; [discriminate | simpl; lia].
  - destruct (save_server E name url as_default db) as [r db'] eqn:Hsave.
    apply save_server_spec in Hsave as [_ Hrows]. simpl.
    destruct r as [server_id|e]; [|rewrite Hrows; auto].
    destruct Hrows as (row & -> & -> & _). rewrite filter_app.
    destruct as_default.
    + rewrite filter_unset_default, filter_cons_True by reflexivity.
      split; [discriminate | simpl; lia].
    + rewrite filter_cons_False by (unfold is_default; simpl; auto).
      rewrite filter_nil, app_nil_r. auto.
  - unfold update_server_connection. destruct (sqlite_fault E (calls db)); [auto|]. simpl.
    assert (length (filter is_default
                      (reconnect (datetime_now E (calls db)) server_id <$> rows db))
            = length (filter is_default (rows db))) as Hlen.
    { apply filter_fmap_length. intros s. unfold reconnect, is_default.
      destruct (decide _); reflexivity. }
    split.
    + intros Hne Hnil. apply Hne. apply length_zero_iff_nil.
      rewrite <- Hlen, Hnil. reflexivity.
    + rewrite Hlen. auto.
  - unfold get_default_server. destruct (sqlite_fault E (calls db)); auto.
  - unfold get_all_servers. destruct (sqlite_fault E (calls db)); auto.
Qed.

Lemma defaults_after_calls (cs : list registry_call) (db : registry) :
  (defaults db ≠ [] → defaults (after_calls E cfg db cs) ≠ [])
  ∧ (length (defaults db) ≤ 1 → length (defaults (after_calls E cfg db cs)) ≤ 1)%nat.
Proof.
  revert db. induction cs as [|c cs IH]; intros db; [auto|].
  unfold after_calls. simpl. fold (after_calls E cfg (after_call E cfg db c) cs).
  destruct (defaults_after_call db c) as [Hne Hle].
  destruct (IH (after_call E cfg db c)) as [Hne' Hle']. auto.
Qed.

Lemma find_filter_head {A} (f : A → bool) (l : list A) (x : A) (rest : list A) :
  filter f l = x :: rest → find f l = Some x.
Proof.
  induction l as [|y l IH]; [discriminate|]. simpl.
  destruct (f y) eqn:Hy.
  - rewrite filter_cons_True by (rewrite Hy; exact I). intros [= -> _]. reflexivity.
  - rewrite filter_cons_False by (rewrite Hy; exact id). exact IH.
Qed.

(** X12. Once [init_db] has succeeded, a default server exists for
    good: after any sequence of calls on the table (saving servers as
    default or not, updating connection times, initialising again,
    reading), the table holds a default row, exactly one if it held at
    most one before the initialisation, and the default-server route
    answers with a default row unless its own read fails. *)
Theorem default_server_is_never_lost
    (db0 db : registry) (cs : list registry_call) :
  init_db E cfg db0 = (Ok tt, db) →
  let db' := after_calls E cfg db cs in
  defaults db' ≠ []
  ∧ ((length (defaults db0) ≤ 1)%nat → length (defaults db') = 1%nat)
  ∧ (sqlite_fault E (calls db') = None →
     ∃ s, (routes.get_default_server_info E db').1 = routes.DefaultServer s
          ∧ s ∈ rows db' ∧ s_is_default s = 1).
Proof.
  intros Hinit db'.
  destruct (defaults_after_call db0 CallInitDb) as [_ Hle0].
  simpl in Hle0. rewrite Hinit in Hle0. simpl in Hle0.
  assert (defaults db ≠ []) as Hne.
  { unfold init_db in Hinit. destruct (sqlite_fault E (calls db0)); [discriminate|].
    destruct (length (filter is_default (rows db0)) =? 0)%nat eqn:Hcount.
    - destruct (insert_server _ _) as [table|e] eqn:Hins; [|discriminate].
      apply insert_server_spec in Hins as [-> _]. injection Hinit as <-.
      unfold defaults. simpl. rewrite filter_app, filter_cons_True by reflexivity.
      intros Hnil. apply app_eq_nil in Hnil as [_ Hnil]. discriminate.
    - injection Hinit as <-. unfold defaults. simpl. intros Hnil.
      rewrite Hnil in Hcount. discriminate. }
  destruct (defaults_after_calls cs db) as [Hne' Hle']. specialize (Hne' Hne).
  fold db' in Hne', Hle'. split_and!.
  - exact Hne'.
  - intros Hle. specialize (Hle' (Hle0 Hle)).
    destruct (defaults db') as [|s [|s' rest]]; [contradiction | reflexivity | simpl in Hle'; lia].
  - intros Hread. destruct (defaults db') as [|s rest] eqn:Hdefaults; [contradiction|].
    exists s. unfold routes.get_default_server_info, get_default_server. rewrite Hread.
    unfold defaults in Hdefaults. rewrite (find_filter_head _ _ _ _ Hdefaults).
    assert (s ∈ filter is_default (rows db')) as Hs by (rewrite Hdefaults; left).
    apply list_elem_of_filter in Hs as [Hdefault Hs].
    split_and!; [reflexivity | exact Hs |].
    unfold is_default in Hdefault. apply Is_true_true in Hdefault. apply Z.eqb_eq in Hdefault.
    exact Hdefault.
Qed.

(** X13. A server saved as the default is the default: after a
    successful [save_server] with the flag set, the new row, with the
    returned id, the name and the URL of the call, is the only default
    row, every earlier row is kept with its flag cleared, and
    [get_default_server] returns the new row unless its read fails.
    A [save_server] that raises leaves every row as it was, the flags
    included. *)
Theorem saved_default_server_is_the_default
    (name url : string) (db db' : registry) (r : result string) :
  save_server E name url true db = (r, db') →
  match r with
  | Ok server_id =>
      ∃ row,
        s_id row = server_id ∧ s_name row = name ∧ s_url row = url
        ∧ rows db' = (unset_default <$> rows db) ++ [row]
        ∧ defaults db' = [row]
        ∧ (sqlite_fault E (calls db') = None → (get_default_server E db').1 = Some row)
  | Raise e => rows db' = rows db
  end.
Proof.
  intros Hsave. apply save_server_spec in Hsave as [_ Hrows].
  destruct r as [server_id|e]; [|exact Hrows].
  destruct Hrows as (row & Hrows & Hrow & _).
  assert (defaults db' = [row]) as Hdefaults.
  { unfold defaults. rewrite Hrows, filter_app, filter_unset_default.
    rewrite filter_cons_True by (subst row; reflexivity). reflexivity. }
  exists row. split_and!; try (subst row; reflexivity); [exact Hrows | exact Hdefaults |].
  intros Hread. unfold get_default_server. rewrite Hread. simpl.
  exact (find_filter_head _ _ _ _ Hdefaults).
Qed.

Lemma insert_by_last_connected_perm (r : server_row) (l : list server_row) :
  insert_by_last_connected r l ≡ₚ r :: l.
Proof.
  induction l as [|x l IH]; [reflexivity|]. simpl.
  destruct (s_last_connected x <=? s_last_connected r); [reflexivity|].
  rewrite IH. apply Permutation_swap.
Qed.

Lemma order_by_last_connected_desc_perm (l : list server_row) :
  order_by_last_connected_desc l ≡ₚ l.
Proof.
  induction l as [|x l IH]; [reflexivity|].
  unfold order_by_last_connected_desc in *. simpl.
  rewrite insert_by_last_connected_perm, IH. reflexivity.
Qed.

Lemma insert_by_last_connected_sorted (r : server_row) (l : list server_row) :
  latest_connection_first l → latest_connection_first (insert_by_last_connected r l).
Proof.
  unfold latest_connection_first. induction 1 as [|x l Hl IH Hx]; simpl.
  { repeat constructor. }
  destruct (s_last_connected x <=? s_last_connected r) eqn:Hle.
  - apply Z.leb_le in Hle. constructor; [constructor; assumption|].
    constructor; [exact Hle|].
    eapply Forall_impl; [exact Hx|]. simpl. intros y Hy. lia.
  - apply Z.leb_gt in Hle. constructor; [exact IH|].
    rewrite insert_by_last_connected_perm. constructor; [lia | exact Hx].
Qed.

Lemma order_by_last_connected_desc_sorted (l : list server_row) :
  latest_connection_first (order_by_last_connected_desc l).
Proof.
  induction l as [|x l IH]; [constructor|].
  apply insert_by_last_connected_sorted. exact IH.
Qed.

(** X14. Updating the connection time of a server puts it at the head
    of the list of servers: after [update_server_connection] of a stored
    id, carried out at a clock reading later than every stored
    [last_connected], the list of servers holds every row once, the
    latest connection first, and starts with that server; an id that is
    not stored changes no row. *)
Theorem reconnected_server_is_listed_first (server_id : string) (db : registry) :
  sqlite_fault E (calls db) = None →
  sqlite_fault E (S (calls db)) = None →
  (∀ s, s ∈ rows db → s_last_connected s < datetime_now E (calls db)) →
  let db' := update_server_connection E server_id db in
  let listed := (routes.get_servers E db').1 in
  listed ≡ₚ rows db'
  ∧ latest_connection_first listed
  ∧ (server_id ∈ server_ids db →
     ∃ s rest, listed = s :: rest ∧ s_id s = server_id
               ∧ s_last_connected s = datetime_now E (calls db))
  ∧ (server_id ∉ server_ids db → rows db' = rows db).
Proof.
  intros Hupdate Hread Hclock db' listed.
  assert (rows db' = reconnect (datetime_now E (calls db)) server_id <$> rows db
          ∧ calls db' = S (calls db)) as [Hrows Hcalls].
  { unfold db', update_server_connection. rewrite Hupdate. split; reflexivity. }
  assert (listed = order_by_last_connected_desc (rows db')) as Hlisted.
  { unfold listed, routes.get_servers, get_all_servers. rewrite Hcalls, Hread. reflexivity. }
  pose proof (order_by_last_connected_desc_perm (rows db')) as Hperm.
  pose proof (order_by_last_connected_desc_sorted (rows db')) as Hsorted.
  rewrite <- Hlisted in Hperm, Hsorted.
  split_and!; [exact Hperm | exact Hsorted | |].
  - intros Hknown. apply list_elem_of_fmap in Hknown as (s0 & Hid & Hs0).
    set (now := datetime_now E (calls db)) in *.
    assert (s_id (reconnect now server_id s0) = server_id
            ∧ s_last_connected (reconnect now server_id s0) = now) as [Htid Htnow].
    { unfold reconnect. rewrite decide_True by congruence. simpl. split; congruence. }
    assert (reconnect now server_id s0 ∈ listed) as Hin.
    { rewrite Hperm, Hrows. apply list_elem_of_fmap. eauto. }
    destruct listed as [|s rest]; [apply elem_of_nil in Hin; contradiction|].
    exists s, rest. split; [reflexivity|].
    assert (s ∈ reconnect now server_id <$> rows db) as Hs.
    { rewrite <- Hrows, <- Hperm. left. }
    apply list_elem_of_fmap in Hs as (s1 & -> & Hs1).
    unfold reconnect at 1 2. destruct (decide (s_id s1 = server_id)) as [Heq|Hne];
      [split; [exact Heq | reflexivity]|].
    exfalso. apply elem_of_cons in Hin as [Heq|Hrest].
    + unfold reconnect in Heq at 2. rewrite decide_False in Heq by exact Hne.
      rewrite <- Heq in Hne. contradiction.
    + apply StronglySorted_inv in Hsorted as [_ Hall].
      rewrite Forall_forall in Hall. specialize (Hall _ Hrest). simpl in Hall.
      unfold reconnect in Hall at 2. rewrite decide_False in Hall by exact Hne.
      specialize (Hclock _ Hs1). lia.
  - intros Hunknown. rewrite Hrows. clear -Hunknown. unfold server_ids in Hunknown.
    induction (rows db) as [|s l IH]; [reflexivity|].
    rewrite fmap_cons, not_elem_of_cons in Hunknown. destruct Hunknown as [Hne Hl].
    rewrite fmap_cons, IH by exact Hl. f_equal.
    unfold reconnect. rewrite decide_False by congruence. reflexivity.
Qed.

End ServerFacts.

(* ===================================================================== *)
(** ** The routes of the servers and of the models *)
(* ===================================================================== *)

Section RouteFacts.
Context (E : environment) (cfg : settings).

(** The client made for a connection test has an empty cache: its
    listing is always asked of the server. *)
Lemma test_client_listing (url : string) (t : float) (net : http_outcome) :
  let result := (ollama_client.get_models (OllamaClient_init cfg (Some url)) false t net).1.1 in
  (∃ text, net = HttpResponse 200 text (Ok result)) ∨ carries_error result.
Proof.
  unfold ollama_client.get_models, cache_valid. simpl.
  destruct net as [e|status_code text body]; [right; apply carries_error_error_dict|].
  destruct (status_code =? 200) eqn:Hstatus; [|right; apply carries_error_error_dict].
  apply Z.eqb_eq in Hstatus as ->.
  destruct body as [d|e]; [left; eauto | right; apply carries_error_error_dict].
Qed.

(** What a connect request that is answered with success has done. *)
Lemma connected_spec data t net db server_id models db' :
  routes.connect_server E cfg data t net db = (routes.Connected server_id models, db') →
  ∃ name ip port text row,
    conn_name_ip_port data = Some (name, ip, port)
    ∧ net = HttpResponse 200 text (Ok models)
    ∧ rows db' = (if default false (routes.conn_is_default data)
                  then unset_default <$> rows db else rows db) ++ [row]
    ∧ row = {| s_id := server_id; s_name := name; s_url := routes.server_url ip port;
               s_last_connected := datetime_now E (calls db);
               s_is_default := if default false (routes.conn_is_default data) then 1 else 0 |}
    ∧ server_id = uuid4 E (calls db)
    ∧ (server_id ∉ server_ids db)
    ∧ calls db' = S (calls db).
Proof.
  unfold routes.connect_server, conn_name_ip_port.
  destruct (routes.conn_name data) as [name|]; [|discriminate].
  destruct (routes.conn_ip data) as [ip|]; [|discriminate].
  destruct (routes.conn_port data) as [port|]; [|discriminate].
  pose proof (test_client_listing (routes.server_url ip port) t net) as Hlisting.
  simpl in Hlisting.
  destruct (py_in "error" _) as [[|]|e] eqn:Herror.
  - destruct (py_getitem _ "error"); discriminate.
  - destruct (save_server E name (routes.server_url ip port)
                (default false (routes.conn_is_default data)) db) as [[id|e] db1] eqn:Hsave;
      [|discriminate].
    intros [= -> <- ->].
    apply save_server_spec in Hsave as (Hcalls & row & Hrows & Hrow & Hid & Hfresh).
    destruct Hlisting as [[text Hnet]|Hcarries];
      [|unfold carries_error in Hcarries; congruence].
    exists name, ip, port, text, row. split_and!; auto.
  - discriminate.
Qed.

(** X15. Connecting stores a server only when its model listing came
    back: a reply of success means the server answered 200 with the
    listing returned, and one row was appended with the returned id, the
    name of the request and the URL [http://ip:port] that was tested (as
    the only default if the request asked for it); every other reply,
    the 400 for a missing name, ip or port and the 500 for a failed
    listing or a failed write, leaves every row as it was. *)
Theorem connect_server_stores_only_listed_servers
    (data : routes.connect_request) (t : float) (net : http_outcome)
    (db db' : registry) (reply : routes.connect_reply) :
  routes.connect_server E cfg data t net db = (reply, db') →
  match reply with
  | routes.Connected server_id models =>
      ∃ name ip port text row,
        conn_name_ip_port data = Some (name, ip, port)
        ∧ net = HttpResponse 200 text (Ok models)
        ∧ rows db' = (if default false (routes.conn_is_default data)
                      then unset_default <$> rows db else rows db) ++ [row]
        ∧ s_id row = server_id ∧ s_name row = name
        ∧ s_url row = routes.server_url ip port
        ∧ (default false (routes.conn_is_default data) = true → defaults db' = [row])
  | _ => rows db' = rows db
  end.
Proof.
  intros H. destruct reply as [error|error|server_id models].
  - unfold routes.connect_server in H.
    destruct (routes.conn_name data), (routes.conn_ip data), (routes.conn_port data);
      try (injection H as _ <-; reflexivity).
    destruct (py_in "error" _) as [[|]|e]; [destruct (py_getitem _ "error")| |];
      try discriminate.
    destruct (save_server _ _ _ _ _) as [[id|e] db1]; discriminate.
  - unfold routes.connect_server in H.
    destruct (routes.conn_name data) as [name|], (routes.conn_ip data) as [ip|],
      (routes.conn_port data) as [port|]; try discriminate.
    destruct (py_in "error" _) as [[|]|e]; [destruct (py_getitem _ "error")| |];
      try (injection H as _ <-; reflexivity).
    destruct (save_server E name (routes.server_url ip port)
                (default false (routes.conn_is_default data)) db) as [[id|e] db1] eqn:Hsave;
      [discriminate|].
    injection H as _ <-. apply save_server_spec in Hsave as [_ Hrows]. exact Hrows.
  - apply connected_spec in H
      as (name & ip & port & text & row & Hdata & Hnet & Hrows & Hrow & _).
    exists name, ip, port, text, row.
    split_and!; try (subst row; reflexivity); try assumption.
    intros Hflag. unfold defaults. rewrite Hrows, Hflag, filter_app, filter_unset_default.
    rewrite filter_cons_True by (subst row; rewrite Hflag; reflexivity). reflexivity.
Qed.

(** X16. Connecting to a server again stores it again: two requests
    with the same name, ip and port that are both answered with success
    leave two more rows under the one URL, with different ids; a stored
    URL is not looked up before the write. *)
Theorem connecting_again_stores_the_server_again
    (data : routes.connect_request) (t1 t2 : float) (net1 net2 : http_outcome)
    (db db1 db2 : registry) (id1 id2 : string) (models1 models2 : json) :
  routes.connect_server E cfg data t1 net1 db = (routes.Connected id1 models1, db1) →
  routes.connect_server E cfg data t2 net2 db1 = (routes.Connected id2 models2, db2) →
  ∃ name ip port,
    conn_name_ip_port data = Some (name, ip, port)
    ∧ id1 ≠ id2
    ∧ length (stored_under (routes.server_url ip port) db2)
      = (2 + length (stored_under (routes.server_url ip port) db))%nat.
Proof.
  intros H1 H2.
  apply connected_spec in H1
    as (name & ip & port & text1 & row1 & Hdata & _ & Hrows1 & Hrow1 & _ & _ & _).
  apply connected_spec in H2
    as (name' & ip' & port' & text2 & row2 & Hdata' & _ & Hrows2 & Hrow2 & _ & Hfresh & _).
  rewrite Hdata in Hdata'. injection Hdata' as <- <- <-.
  exists name, ip, port. split; [exact Hdata|]. split.
  - intros ->. apply Hfresh. unfold server_ids. rewrite Hrows1, fmap_app.
    apply elem_of_app. right. subst row1. left.
  - assert (∀ l, length (filter (fun s => s_url s = routes.server_url ip port)
                           (if default false (routes.conn_is_default data)
                            then unset_default <$> l else l))
                 = length (filter (fun s => s_url s = routes.server_url ip port) l)) as Hflag.
    { intros l. destruct (default false (routes.conn_is_default data)); [|reflexivity].
      apply filter_fmap_length. intros s. reflexivity. }
    unfold stored_under. rewrite Hrows2, filter_app, length_app, Hflag.
    rewrite Hrows1, filter_app, length_app, Hflag.
    rewrite !filter_cons_True by (subst; reflexivity). simpl. lia.
Qed.

(** X17. An error in the body of a 200 answer sticks: when the models
    route asks the server and gets 200 with a JSON object that has an
    [error] key, it answers 500 with that error and keeps the object as
    the snapshot, so that every call without [force_refresh] inside the
    lifetime of the cache answers the same 500 whatever the server would
    say by then. *)
Theorem error_body_is_cached_and_served_again
    (arg : option string) (self : OllamaClient) (t1 : float) (text : string)
    (kv : gmap string json) (error : json) :
  routes.force_refresh_arg arg = true ∨ cache_valid self t1 = false →
  kv !! "error" = Some error →
  let first := routes.get_models arg self t1 (HttpResponse 200 text (Ok (JObj kv))) in
  first.1 = Ok (routes.Models500 error)
  ∧ ∀ t2 net2, cache_valid first.2 t2 = true →
      routes.get_models None first.2 t2 net2 = (Ok (routes.Models500 error), first.2).
Proof.
  intros Hlive Herror first.
  assert (py_in "error" (JObj kv) = Ok true) as Hin.
  { simpl. rewrite bool_decide_eq_true_2 by (rewrite Herror; eauto). reflexivity. }
  assert (first = (Ok (routes.Models500 error),
                   set_data (set_timestamp self t1) (JObj kv))) as Hfirst.
  { unfold first, routes.get_models, ollama_client.get_models.
    assert (negb (routes.force_refresh_arg arg) && cache_valid self t1 = false) as ->.
    { destruct Hlive as [-> | ->]; [reflexivity | apply andb_false_r]. }
    cbn [Z.eqb Pos.eqb fst snd]. rewrite Hin. simpl. rewrite Herror. reflexivity. }
  rewrite Hfirst. split; [reflexivity|].
  intros t2 net2 Hvalid. simpl in Hvalid |- *.
  unfold routes.get_models, ollama_client.get_models.
  change (routes.force_refresh_arg None) with false. simpl negb.
  rewrite Hvalid. cbn [andb fst snd data models_cache set_data]. rewrite Hin.
  simpl. rewrite Herror. reflexivity.
Qed.

End RouteFacts.

(* ===================================================================== *)
(** ** The failures of the client *)
(* ===================================================================== *)

Section ClientFailures.
Context (cfg : settings).

Lemma stream_lines_leaving (lines : list wire_line) (broken : option exn) :
  Forall parses_or_malformed lines → (stream_lines lines broken).2 = broken.
Proof. intros Hlines. rewrite stream_lines_chunks by exact Hlines. reflexivity. Qed.

(** X18. The streaming client turns the failures of the transport into
    one closing error chunk and does not raise: a status other than 200
    gives that one chunk and the body is not read; a request exception,
    at the opening or in the middle of the body, gives the chunks of the
    lines read before it, then that one chunk, and the generator ends
    normally. *)
Theorem stream_transport_failure_is_one_closing_error_chunk (net : stream_outcome) :
  (∀ status_code lines broken,
      net = StreamResponse status_code lines broken → status_code ≠ 200 →
      ∃ bad, stream_chunks net = ([bad], None) ∧ carries_error bad)
  ∧ (∀ e, transport_breaks net e → Forall parses_or_malformed (body_lines net) →
      ∃ bad, stream_chunks net = (omap chunk_of_line (body_lines net) ++ [bad], None)
             ∧ bad = error_dict ("Verbindungsfehler bei Stream-Anfrage: " +:+ str_exn e)
             ∧ carries_error bad).
Proof.
  split.
  - intros status_code lines broken -> Hstatus. unfold stream_chunks.
    rewrite (proj2 (Z.eqb_neq _ _) Hstatus). simpl.
    eexists. split; [reflexivity | apply carries_error_error_dict].
  - intros e [Hcls Hnet] Hlines. eexists. split; [|split; [reflexivity|]];
      [|apply carries_error_error_dict].
    destruct net as [e'|status_code lines broken]; simpl in *.
    + subst e'. unfold stream_chunks, catch_request_exception. rewrite Hcls. reflexivity.
    + destruct Hnet as [-> ->]. unfold stream_chunks. simpl.
      rewrite stream_lines_chunks by exact Hlines.
      unfold catch_request_exception. rewrite Hcls. reflexivity.
Qed.

(** X19. The blocking calls of the client answer a failure with an
    error dict and never raise: when the request of [chat], [generate]
    or [embed] raises, is answered with a status other than 200 or with
    a body that does not decode, the result has the [error] key that the
    callers test for, and [_check_connection] is true exactly for a 200
    answer; a decoded body of a 200 answer is returned as it is.
    [generate] resolves its generation parameters as [chat] does. *)
Theorem blocking_calls_answer_failure_with_error_dict
    (self : OllamaClient) (model text : string)
    (t_arg : option float) (n_arg : option Z) (net : http_outcome) :
  let generated := ollama_calls.generate cfg self model text t_arg n_arg net in
  let embedded := ollama_calls.embed self model text net in
  (request_failed net →
     carries_error (chat_result net) ∧ carries_error generated.2 ∧ carries_error embedded.2)
  ∧ (∀ body_text v, net = HttpResponse 200 body_text (Ok v) →
       chat_result net = v ∧ generated.2 = v ∧ embedded.2 = v)
  ∧ (ollama_calls._check_connection net = true
     ↔ ∃ body_text body, net = HttpResponse 200 body_text body)
  ∧ (ollama_calls.gb_temperature generated.1.2, ollama_calls.gb_num_predict generated.1.2)
    = resolve_options cfg model t_arg n_arg.
Proof.
  intros generated embedded.
  assert (generated.2 = ollama_calls.call_result "Fehler bei der Generierungsanfrage: "
                          "Verbindungsfehler bei Generierungsanfrage: " net
          ∧ (ollama_calls.gb_temperature generated.1.2, ollama_calls.gb_num_predict generated.1.2)
            = resolve_options cfg model t_arg n_arg) as [Hgenerated Hoptions].
  { unfold generated, ollama_calls.generate.
    destruct (resolve_options cfg model t_arg n_arg). split; reflexivity. }
  rewrite Hgenerated. unfold embedded, ollama_calls.embed. simpl.
  split_and!.
  - intros Hfailed. unfold chat_result, ollama_calls.call_result.
    destruct net as [e|status_code body_text body];
      [split_and!; apply carries_error_error_dict|].
    destruct (status_code =? 200) eqn:Hstatus;
      [|split_and!; apply carries_error_error_dict].
    apply Z.eqb_eq in Hstatus as ->.
    destruct body as [v|e]; [contradiction | split_and!; apply carries_error_error_dict].
  - intros body_text v ->. split_and!; reflexivity.
  - unfold ollama_calls._check_connection. destruct net as [e|status_code body_text body].
    + split; [discriminate | intros (? & ? & [=])].
    + rewrite Z.eqb_eq. split; [intros ->; eauto | intros (? & ? & [= -> _ _]); reflexivity].
  - exact Hoptions.
Qed.

End ClientFailures.

(* ===================================================================== *)
(** ** The connection data of the QR codes *)
(* ===================================================================== *)

Section QrFacts.
Context (cfg : qr_handler.qr_settings) (limit : nat).
Context (png_base64 : json → qr_handler.error_level → Z → Z → result string).

Lemma literal_digits_uint (u : Decimal.uint) (after_digit : bool) :
  after_digit = true ∨ u ≠ Decimal.Nil →
  qr_handler.literal_digits after_digit (NilEmpty.string_of_uint u)
  = Some (String.length (NilEmpty.string_of_uint u)).
Proof.
  revert after_digit. induction u as [|u IH|u IH|u IH|u IH|u IH|u IH|u IH|u IH|u IH|u IH];
    intros after_digit Hstart;
    [destruct Hstart as [->|Hnil]; [reflexivity | contradiction]|..];
    simpl; rewrite IH by (left; reflexivity); reflexivity.
Qed.

Lemma literal_digits_str_uint (u : Decimal.uint) :
  qr_handler.literal_digits false (NilZero.string_of_uint u)
  = Some (String.length (NilZero.string_of_uint u)).
Proof.
  destruct u; [reflexivity|..]; apply literal_digits_uint; right; discriminate.
Qed.

Lemma str_uint_starts_with_digit (u : Decimal.uint) :
  ∃ c s, NilZero.string_of_uint u = String c s
         ∧ qr_handler.is_space c = false
         ∧ qr_handler.is_char 43 c = false ∧ qr_handler.is_char 45 c = false.
Proof. destruct u; simpl; do 2 eexists; split_and!; reflexivity. Qed.

(** [int] takes every text that [str] makes of an [int]. *)
Lemma int_of_str_int (n : Z) (port_text : string) :
  qr_handler.py_str_int limit n = Ok port_text →
  qr_handler.py_int limit (JStr port_text) = qr_handler.IntOk.
Proof.
  unfold qr_handler.py_str_int.
  destruct (qr_handler.exceeds limit (String.length (str_int (Z.abs n)))) eqn:Hfits;
    [discriminate|].
  intros [= <-].
  assert (qr_handler.int_literal limit (str_int n) = true) as Hliteral.
  { unfold qr_handler.int_literal.
    destruct n as [|p|p]; unfold str_int in *; simpl in Hfits |- *.
    - rewrite Hfits. reflexivity.
    - destruct (str_uint_starts_with_digit (Pos.to_uint p))
        as (c & s & Hs & Hspace & Hplus & Hminus).
      pose proof (literal_digits_str_uint (Pos.to_uint p)) as Hdigits. rewrite Hs in *.
      cbn [qr_handler.skip_space]. rewrite Hspace, Hplus, Hminus. cbn [orb].
      rewrite Hdigits, Hfits. reflexivity.
    - rewrite literal_digits_str_uint, Hfits. reflexivity. }
  simpl. rewrite Hliteral. reflexivity.
Qed.

Lemma connection_data_fields (type name ip port : string) :
  ∃ kv, qr_handler.connection_data type name ip port = JObj kv
        ∧ kv !! "type" = Some (JStr type) ∧ kv !! "name" = Some (JStr name)
        ∧ kv !! "ip" = Some (JStr ip) ∧ kv !! "port" = Some (JStr port).
Proof. eexists. split; [reflexivity|]. split_and!; reflexivity. Qed.

Lemma connection_data_verifies (type name ip port : string) :
  type = "ollama_server" ∨ type = "ollama_backend" →
  qr_handler.py_int limit (JStr port) = qr_handler.IntOk →
  qr_handler.verify_qr_data limit (qr_handler.connection_data type name ip port) = Ok true.
Proof.
  intros Htype Hport.
  destruct (connection_data_fields type name ip port) as (kv & -> & Ht & _ & Hi & Hp).
  unfold qr_handler.verify_qr_data. simpl. rewrite Ht, Hi, Hp. simpl.
  destruct Htype as [-> | ->]; simpl; simpl in Hport; rewrite Hport; reflexivity.
Qed.

(** X20. The connection data of a generated QR code is valid: whatever
    [generate_server_qr] and [generate_backend_qr] return passes
    [verify_qr_data], for every name and ip. The ip is the one asked
    for, the local ip when none or an empty one was given; the name of
    a server code is the one given, an empty one included, that of a
    backend code is replaced by the default when it is empty. *)
Theorem generated_connection_data_is_valid (server_name custom_ip : option string) :
  (∀ qr data,
      qr_handler.generate_server_qr cfg limit png_base64 server_name custom_ip = Ok (qr, data) →
      qr_handler.verify_qr_data limit data = Ok true
      ∧ py_getitem data "ip"
        = Ok (JStr (qr_handler.or_else custom_ip (qr_handler.LOCAL_IP cfg)))
      ∧ py_getitem data "name"
        = Ok (JStr (default ("Ollama-Server (" +:+ qr_handler.LOCAL_IP cfg +:+ ")")
                      server_name)))
  ∧ (∀ qr data,
      qr_handler.generate_backend_qr cfg limit png_base64 server_name custom_ip = Ok (qr, data) →
      qr_handler.verify_qr_data limit data = Ok true
      ∧ py_getitem data "ip"
        = Ok (JStr (qr_handler.or_else custom_ip (qr_handler.LOCAL_IP cfg)))
      ∧ py_getitem data "name"
        = Ok (JStr (qr_handler.or_else server_name
                      ("Ollama-Backend (" +:+ qr_handler.LOCAL_IP cfg +:+ ")")))).
Proof.
  split; intros qr data.
  - unfold qr_handler.generate_server_qr, qr_handler.create_connection_data,
      qr_handler.generate_qr_code. simpl.
    destruct (qr_handler.py_str_int limit (qr_handler.OLLAMA_API_PORT cfg))
      as [port_text|e] eqn:Hport; [|discriminate].
    destruct (png_base64 _ _ _ _); [|discriminate]. intros [= _ <-].
    split_and!; [|reflexivity..].
    apply connection_data_verifies; [left; reflexivity|].
    exact (int_of_str_int _ _ Hport).
  - unfold qr_handler.generate_backend_qr, qr_handler.generate_qr_code.
    destruct (qr_handler.py_str_int limit (qr_handler.SERVER_PORT cfg))
      as [port_text|e] eqn:Hport; [|discriminate].
    destruct (png_base64 _ _ _ _); [|discriminate]. intros [= _ <-].
    split_and!; [|reflexivity..].
    apply connection_data_verifies; [right; reflexivity|].
    exact (int_of_str_int _ _ Hport).
Qed.

(** X21. What [verify_qr_data] takes of a JSON object: it answers True
    exactly when the object has the keys [type], [ip] and [port], the
    type is one of the two known strings and [int] takes the port; an
    object that lacks one of the three keys is answered False; and the
    call raises only when [int] raises on the port with something other
    than [ValueError], as for a port that is null, a list or an
    infinite number. *)
Theorem verify_qr_data_on_objects (kv : gmap string json) :
  (qr_handler.verify_qr_data limit (JObj kv) = Ok true ↔
     ∃ t port,
       kv !! "type" = Some (JStr t) ∧ (t = "ollama_server" ∨ t = "ollama_backend")
       ∧ is_Some (kv !! "ip")
       ∧ kv !! "port" = Some port ∧ qr_handler.py_int limit port = qr_handler.IntOk)
  ∧ (kv !! "type" = None ∨ kv !! "ip" = None ∨ kv !! "port" = None →
     qr_handler.verify_qr_data limit (JObj kv) = Ok false)
  ∧ (∀ e, qr_handler.verify_qr_data limit (JObj kv) = Raise e →
          ∃ port, kv !! "port" = Some port
                  ∧ qr_handler.py_int limit port = qr_handler.IntRaises e)
  ∧ qr_handler.verify_qr_data limit
      (JObj (<[ "port" := JNull ]> (<[ "type" := JStr "ollama_server" ]> (<[ "ip" := JNull ]> kv))))
    = Raise (Exn TypeError
               "int() argument must be a string, a bytes-like object or a real number, not 'NoneType'").
Proof.
  assert (∀ kv' : gmap string json,
            qr_handler.verify_qr_data limit (JObj kv')
            = match kv' !! "type", kv' !! "ip", kv' !! "port" with
              | Some t, Some _, Some port =>
                  if qr_handler.known_type t then
                    match qr_handler.py_int limit port with
                    | qr_handler.IntOk => Ok true
                    | qr_handler.IntValueError => Ok false
                    | qr_handler.IntRaises e => Raise e
                    end
                  else Ok false
              | _, _, _ => Ok false
              end) as Hverify.
  { intros kv'. unfold qr_handler.verify_qr_data, qr_handler.all_in, py_in, py_getitem.
    destruct (kv' !! "type"), (kv' !! "ip"), (kv' !! "port"); reflexivity. }
  split_and!.
  - rewrite Hverify.
    destruct (kv !! "type") as [t|]; [|split; [discriminate | intros (? & ? & [=] & _)]].
    destruct (kv !! "ip") as [ip|];
      [|split; [discriminate | intros (? & ? & _ & _ & [? [=]] & _)]].
    destruct (kv !! "port") as [port|];
      [|split; [discriminate | intros (? & ? & _ & _ & _ & [=] & _)]].
    destruct (qr_handler.known_type t) eqn:Hknown.
    + destruct t as [| | | |s| |]; try discriminate. simpl in Hknown.
      apply orb_true_iff in Hknown. rewrite !String.eqb_eq in Hknown.
      destruct (qr_handler.py_int limit port) eqn:Hint.
      * split; [intros _; exists s, port; split_and!; eauto | reflexivity].
      * split; [discriminate | intros (? & ? & _ & _ & _ & [= <-] & Hok); congruence].
      * split; [discriminate | intros (? & ? & _ & _ & _ & [= <-] & Hok); congruence].
    + split; [discriminate|]. intros (s & ? & [= ->] & Hs & _). simpl in Hknown.
      apply orb_false_iff in Hknown as [H1 H2]. rewrite String.eqb_neq in H1, H2.
      destruct Hs; contradiction.
  - intros Hmissing. rewrite Hverify.
    destruct (kv !! "type"), (kv !! "ip"), (kv !! "port"); try reflexivity.
    destruct Hmissing as [[=]|[[=]|[=]]].
  - intros e. rewrite Hverify.
    destruct (kv !! "type") as [t|], (kv !! "ip"), (kv !! "port") as [port|];
      try discriminate.
    destruct (qr_handler.known_type t); [|discriminate].
    destruct (qr_handler.py_int limit port) eqn:Hint; try discriminate.
    intros [= ->]. eauto.
  - rewrite Hverify. rewrite lookup_insert_eq.
    rewrite lookup_insert_ne, lookup_insert_eq by discriminate.
    rewrite !lookup_insert_ne, lookup_insert_eq by discriminate. reflexivity.
Qed.

End QrFacts.

(* ===================================================================== *)
(** ** A streaming turn that does not reach the server *)
(* ===================================================================== *)

Section AbortedStream.
Context (E : environment) (cfg : settings).

(** X22. The writes that open a streaming turn are outside its [try]:
    when the conversation or the user's message cannot be stored, the
    generator raises the storage error before any frame is handed over
    and before any request is posted, so the caller gets no error
    frame; no message is stored, and a conversation created just
    before the failing write of the message stays, without that
    message. A turn posts no request only in this way. *)
Theorem failed_opening_write_aborts_the_stream
    (chat_id : option string) (model message : string) (history : list chat_message)
    (t_arg : option float) (n_arg : option Z) (net : stream_outcome)
    (w w' : world) (r : result unit) (evs : list event) :
  generate E cfg chat_id model message history t_arg n_arg net w = (r, w', evs) →
  posts evs = [] →
  ∃ e, r = Raise e
       ∧ failed_writes evs = [e]
       ∧ frames evs = []
       ∧ inserted_messages evs = []
       ∧ messages w' = messages w
       ∧ (chats w' = chats w ∧ inserted_chats evs = []
          ∨ ∃ crow, truthy chat_id = false
                    ∧ chats w' = chats w ++ [crow] ∧ inserted_chats evs = [crow]).
Proof.
  unfold generate, bind. intros H Hposts.
  destruct (open_turn E chat_id model message w) as [[r0 w1] evs1] eqn:Hopen.
  destruct r0 as [id|e].
  { destruct (try_except _ _ w1) as [[r2 w2] evs2] eqn:Hphase.
    apply stream_phase_spec in Hphase as (url & body & r1 & evs_r & _ & _ & _ & Hend).
    injection H as <- <- <-. exfalso. revert Hposts.
    destruct r1 as [[full_response|]|e0];
      [destruct Hend as (ra & evs_a & _ & ->) | destruct Hend as [-> _]
       | destruct Hend as [-> _]];
      trace_simpl; intros Hnil; apply app_eq_nil in Hnil as [_ Hnil]; discriminate. }
  injection H as <- <- <-. clear Hposts. exists e. split; [reflexivity|].
  destruct (truthy chat_id) eqn:Htruthy.
  - destruct chat_id as [[|a id0]|]; try discriminate.
    apply open_turn_existing in Hopen
      as [(e' & [= ->] & -> & Hmsgs & Hchats)|(urow & q & [=] & _)].
    split_and!; try reflexivity; try assumption. left. split; [assumption | reflexivity].
  - apply open_turn_new in Hopen
      as [(e' & [= ->] & -> & Hmsgs & Hchats)
         |[(crow & e' & [= ->] & -> & Hmsgs & Hchats & _)
          |(crow & crow' & urow & q & [=] & _)]]; [| |assumption].
    + split_and!; try reflexivity; try assumption. left. split; [assumption | reflexivity].
    + split_and!; try reflexivity; try assumption.
      right. exists crow. split_and!; try reflexivity; assumption.
Qed.

End AbortedStream.

(* ===================================================================== *)
(** ** The theorems at work on concrete runs *)
(* ===================================================================== *)

Section Witnesses.

Lemma db_wf_w0 : db_wf w0.
Proof. intros m Hm. apply not_elem_of_nil in Hm. contradiction. Qed.

Lemma clock_E0 n m : (n ≤ m)%nat → datetime_now E0 n ≤ datetime_now E0 m.
Proof. simpl. lia. Qed.

(** The example scenario of the specification: ["Hello"], answered
    ["Hi"], [" there"]. *)
Lemma successful_stream_witness :
  let run := generate E0 default_settings None "llama3" "Hello" [] None None hi_there w0 in
  ∃ row before q,
    run.2 = before ++ EvInsertMessage row :: q ++ [EvYield (FDone (m_id row))]
    ∧ quiet q
    ∧ assistant_messages run.2 = [row]
    ∧ (∃ old, messages run.1.2 = old ++ [row])
    ∧ m_content row = JStr (join (content_deltas (frames run.2)))
    ∧ done_frames (frames run.2) = [m_id row]
    ∧ error_frames (frames run.2) = []
    ∧ run.1.1 = Ok tt.
Proof.
  intros run.
  apply (successful_stream_persists_forwarded_text E0 default_settings
           None "llama3" "Hello" [] None None hi_there w0 run.1.2 run.1.1 run.2).
  - reflexivity.
  - reflexivity.
  - repeat (constructor; [vm_compute; exact I|]). constructor.
  - repeat (constructor; [intros H; vm_compute in H; discriminate|]). constructor.
  - reflexivity.
Defined.

Lemma error_chunk_witness :
  let run := generate E0 default_settings None "llama3" "Hello" [] None None broken_stream w0 in
  (∃ error, error_frames (frames run.2) = [error])
  ∧ done_frames (frames run.2) = []
  ∧ assistant_messages run.2 = []
  ∧ filter is_assistant (messages run.1.2) = filter is_assistant (messages w0).
Proof.
  intros run.
  apply (error_chunk_fails_turn E0 default_settings
           None "llama3" "Hello" [] None None broken_stream w0 run.1.2 run.1.1 run.2).
  - reflexivity.
  - vm_compute. discriminate.
  - constructor 2. constructor 1. reflexivity.
Defined.

(** C5 as stated fails in two ways. A blocking first turn whose upstream
    call is answered 503 creates no conversation. And a first turn that
    completes while the clock is set back between its two writes is read
    back with the assistant's message before the user's. *)
Lemma first_turn_without_conversation_or_out_of_order :
  (truthy (req_chat_id hello) = false
   ∧ inserted_chats (server.chat E0 default_settings hello unavailable w0).2 = []
   ∧ chats (server.chat E0 default_settings hello unavailable w0).1.2 = chats w0)
  ∧ (let run := server.chat E_back default_settings hello hi_there_blocking w0 in
     completes E_back default_settings (Blocking hi_there_blocking) hello w0
       run.1.2 run.2 "uuid-0" (JStr "Hi there") "uuid-3"
     ∧ m_role <$> select_messages "uuid-0" run.1.2 = ["assistant"; "user"]).
Proof. split; [split_and! | split]; reflexivity. Qed.

Lemma first_turn_witness :
  let blocking := server.chat E0 default_settings hello hi_there_blocking w0 in
  let streaming := stream_chat E0 default_settings hello hi_there w0 in
  (∃ crow crow' urow arow,
     inserted_chats blocking.2 = [crow]
     ∧ c_id crow = "uuid-0" ∧ c_title crow = title_of "Hello"
     ∧ chats blocking.1.2 = chats w0 ++ [crow']
     ∧ c_id crow' = "uuid-0" ∧ c_title crow' = c_title crow
     ∧ messages blocking.1.2 = messages w0 ++ [urow; arow]
     ∧ m_role urow = "user" ∧ m_content urow = JStr "Hello"
     ∧ m_role arow = "assistant" ∧ m_content arow = stored_content E0 (JStr "Hi there")
     ∧ m_id arow = "uuid-3"
     ∧ (db_wf w0 → m_timestamp urow ≤ m_timestamp arow →
        select_messages "uuid-0" blocking.1.2 = [urow; arow])
     ∧ (db_wf w0 → m_timestamp arow < m_timestamp urow →
        select_messages "uuid-0" blocking.1.2 = [arow; urow]))
  ∧ (∃ crow crow' urow arow,
       inserted_chats streaming.2 = [crow]
       ∧ c_id crow = "uuid-0" ∧ c_title crow = title_of "Hello"
       ∧ chats streaming.1.2 = chats w0 ++ [crow']
       ∧ c_id crow' = "uuid-0" ∧ c_title crow' = c_title crow
       ∧ messages streaming.1.2 = messages w0 ++ [urow; arow]
       ∧ m_role urow = "user" ∧ m_content urow = JStr "Hello"
       ∧ m_role arow = "assistant" ∧ m_content arow = stored_content E0 (JStr "Hi there")
       ∧ m_id arow = "uuid-3"
       ∧ (db_wf w0 → m_timestamp urow ≤ m_timestamp arow →
          select_messages "uuid-0" streaming.1.2 = [urow; arow])
       ∧ (db_wf w0 → m_timestamp arow < m_timestamp urow →
          select_messages "uuid-0" streaming.1.2 = [arow; urow])).
Proof.
  intros blocking streaming. split.
  - apply (first_turn_creates_conversation_with_both_messages E0 default_settings
             (Blocking hi_there_blocking) hello "Hello" w0 eq_refl eq_refl).
    reflexivity.
  - apply (first_turn_creates_conversation_with_both_messages E0 default_settings
             (Streaming hi_there) hello "Hello" w0 eq_refl eq_refl).
    split_and!; reflexivity.
Defined.

(** An empty cache filled at time 1000 and read again at time 1100. *)
Lemma cached_models_witness :
  let self := OllamaClient_init default_settings None in
  let first := get_models self false 1000 (HttpResponse 200 "" (Ok snapshot)) in
  let second := get_models first.1.2 false 1100 (HttpRaises (Exn RequestException "down")) in
  second.1.1 = first.1.1 ∧ second.1.2 = first.1.2 ∧ second.2 = FromCache
  ∧ (live_calls first.2 + live_calls second.2 ≤ 1)%nat.
Proof.
  intros self first second.
  apply (cached_models_idempotent self first.1.2 second.1.2 1000 1100
           (HttpResponse 200 "" (Ok snapshot)) (HttpRaises (Exn RequestException "down"))
           first.1.1 second.1.1 first.2 second.2).
  - reflexivity.
  - reflexivity.
  - discriminate.
  - reflexivity.
Defined.

(** A filled cache, expired at time 2000, and a server that answers 503. *)
Lemma failed_refresh_witness :
  let self := set_data (set_timestamp (OllamaClient_init default_settings None) 1000) snapshot in
  ∃ r, get_models self false 2000 (HttpResponse 503 "" (Raise (Exn JSONDecodeError "")))
       = (r, self, RefreshFailed) ∧ is_error_result r.
Proof.
  intros self.
  apply (failed_refresh_keeps_cache self false 2000).
  - right. reflexivity.
  - simpl. lia.
Defined.

(** The database fails when the user's message is written. *)
Lemma storage_failure_witness :
  let run := server.chat (E_fault 1) default_settings hello hi_there_blocking w0 in
  ∃ e, failed_writes run.2 = [e]
       ∧ run.1.1 = Ok (ReplyWarning "Antwort erhalten, aber Fehler beim Speichern"
                          (JStr "Hi there") (str_exn e)).
Proof.
  intros run.
  apply (generated_text_survives_storage_failure (E_fault 1) default_settings
           hello "llama3" "Hello" "" (content_chunk "Hi there") (JStr "Hi there")
           w0 run.1.2 run.1.1 run.2).
  - reflexivity.
  - reflexivity.
  - reflexivity.
  - reflexivity.
  - reflexivity.
  - vm_compute. discriminate.
Defined.

Lemma db_wf_w_hello : db_wf w_hello.
Proof.
  intros m Hm. unfold w_hello in Hm. simpl in Hm.
  repeat (apply elem_of_cons in Hm as [->|Hm]); [left | left |].
  apply elem_of_nil in Hm. contradiction.
Qed.

(** The database fails when the assistant's message is written. *)
Lemma terminal_frame_witness :
  let run := generate (E_fault 3) default_settings None "llama3" "Hello" [] None None hi_there w0 in
  run.1.1 = Ok tt
  ∧ posts run.2 = [build_request default_settings true "llama3" "Hello" [] None None]
  ∧ ((∃ row, done_frames (frames run.2) = [m_id row] ∧ error_frames (frames run.2) = []
             ∧ assistant_messages run.2 = [row])
     ∨ (∃ error, error_frames (frames run.2) = [error] ∧ done_frames (frames run.2) = []
                 ∧ assistant_messages run.2 = [])).
Proof.
  intros run.
  apply (posted_stream_ends_in_one_terminal_frame (E_fault 3) default_settings
           None "llama3" "Hello" [] None None hi_there w0 run.1.2 run.1.1 run.2).
  - reflexivity.
  - vm_compute. discriminate.
Defined.

Lemma user_message_witness :
  let run := generate E0 default_settings None "llama3" "Hello" [] None None broken_stream w0 in
  ∃ urow,
    inserted_messages run.2 = [urow]
    ∧ m_role urow = "user" ∧ m_content urow = JStr "Hello"
    ∧ messages run.1.2 = messages w0 ++ [urow]
    ∧ length (inserted_chats run.2) = 1%nat.
Proof.
  intros run.
  apply (failed_stream_keeps_user_message E0 default_settings
           None "llama3" "Hello" [] None None broken_stream w0 run.1.2 run.1.1 run.2).
  - reflexivity.
  - vm_compute. discriminate.
  - constructor 2. constructor 1. reflexivity.
Defined.

Lemma upstream_error_witness :
  let run := server.chat E0 default_settings hello unavailable w0 in
  chats run.1.2 = chats w0 ∧ messages run.1.2 = messages w0
  ∧ inserted_chats run.2 = [] ∧ inserted_messages run.2 = []
  ∧ length (posts run.2) = 1%nat
  ∧ ((∃ error, run.1.1 = Ok (Reply500 error)) ∨ (∃ e, run.1.1 = Raise e)).
Proof.
  intros run.
  apply (blocking_upstream_error_writes_nothing E0 default_settings
           hello "llama3" "Hello" unavailable w0 run.1.2 run.1.1 run.2).
  - reflexivity.
  - reflexivity.
  - reflexivity.
  - reflexivity.
Defined.

Lemma referential_integrity_witness :
  (∀ title model, db_wf (create_chat E0 title model w_hello).1.2)
  ∧ (∀ chat_id role content, db_wf (add_message E0 chat_id role content w_hello).1.2)
  ∧ (∀ chat_id, db_wf (delete_chat E0 chat_id w_hello).1.2).
Proof. apply (writes_keep_referential_integrity E0 w_hello). exact db_wf_w_hello. Defined.

Lemma delete_cascade_witness :
  ∃ w', delete_chat E0 "uuid-0" w_hello = (Ok true, w', [EvDeleteChat "uuid-0"])
        ∧ select_chat "uuid-0" w' = None
        ∧ select_messages "uuid-0" w' = []
        ∧ ∀ other, other ≠ "uuid-0" →
            select_chat other w' = select_chat other w_hello
            ∧ select_messages other w' = select_messages other w_hello.
Proof.
  apply (delete_chat_cascades E0 "uuid-0" w_hello).
  - reflexivity.
  - exact db_wf_w_hello.
Defined.

(** A filled cache, expired at time 2000, and an answer that is no JSON. *)
Lemma undecodable_refresh_witness :
  let self := set_data (set_timestamp (OllamaClient_init default_settings None) 1000) snapshot in
  ∃ r, get_models self false 2000 not_json = (r, set_timestamp self 2000, RefreshFailed)
       ∧ is_error_result r.
Proof.
  intros self.
  apply (undecodable_refresh_moves_timestamp self false 2000).
  right. reflexivity.
Defined.

(** One more message in the conversation of [w_hello]. *)
Lemma listed_first_witness :
  ∃ c rest,
    (get_all_chats E0 (add_message E0 "uuid-0" "user" (JStr "And you?") w_hello).1.2).1.1
      = Ok (c :: rest)
    ∧ c_id c = "uuid-0"
    ∧ c_updated_at c = datetime_now E0 (S (tick w_hello)).
Proof.
  apply (answered_conversation_is_listed_first E0 "uuid-0" "user" (JStr "And you?") w_hello
           (add_message E0 "uuid-0" "user" (JStr "And you?") w_hello).1.2 "uuid-5"
           (add_message E0 "uuid-0" "user" (JStr "And you?") w_hello).2).
  - reflexivity.
  - reflexivity.
  - reflexivity.
  - intros c Hc. unfold w_hello in Hc. simpl in Hc.
    apply elem_of_cons in Hc as [->|Hc]; [simpl; lia|].
    apply elem_of_nil in Hc. contradiction.
Defined.

Lemma read_back_witness :
  let w1 := (add_message E0 "uuid-0" "user" (JInt 42) w_hello).1.2 in
  ∃ c row text,
    (get_chat_by_id E0 "uuid-0" w1).1.1
      = Ok (ChatFound c (select_messages "uuid-0" w_hello ++ [row]))
    ∧ c_id c = "uuid-0"
    ∧ m_id row = "uuid-5" ∧ m_role row = "user"
    ∧ m_content row = JStr text
    ∧ bind_content E0 (JInt 42) = Bound text
    ∧ (∀ s, JInt 42 = JStr s → text = s)
    ∧ (∀ n, JInt 42 = JInt n → text = str_int n)
    ∧ (∀ b, JInt 42 = JBool b → text = if b then "1" else "0").
Proof.
  intros w1.
  apply (added_message_is_read_back E0 "uuid-0" "user" (JInt 42) w_hello w1 "uuid-5"
           (add_message E0 "uuid-0" "user" (JInt 42) w_hello).2).
  - reflexivity.
  - reflexivity.
  - intros m Hm _. unfold w_hello in Hm. simpl in Hm.
    repeat (apply elem_of_cons in Hm as [->|Hm]; [simpl; lia|]).
    apply elem_of_nil in Hm. contradiction.
Defined.

Lemma follow_up_witness :
  let history := conversation_so_far E0 "uuid-0" w_hello in
  (∀ net, posts (server.chat E0 default_settings hello_again net w_hello).2
          = [build_request default_settings false "llama3" "And you?" history None None])
  ∧ (∀ net, posts (stream_chat E0 default_settings hello_again net w_hello).2 ≠ [] →
            posts (stream_chat E0 default_settings hello_again net w_hello).2
            = [build_request default_settings true "llama3" "And you?" history None None])
  ∧ rb_messages (build_request default_settings true "llama3" "And you?" history None None)
    = history ++ [ {| role := "user"; content := JStr "And you?" |} ].
Proof.
  apply (follow_up_turn_sends_conversation_so_far E0 default_settings hello_again
           "llama3" "And you?" "uuid-0" w_hello).
  - reflexivity.
  - reflexivity.
  - reflexivity.
  - discriminate.
Defined.

(** The table is initialised, a server is saved as the default, another
    is saved without the flag, and a connection time is updated. *)
Lemma default_server_witness :
  let db' := after_calls E0 default_settings db_local
               [CallSaveServer "LAN" "http://192.168.0.5:11434" true;
                CallSaveServer "Lab" "http://10.0.0.7:11434" false;
                CallUpdateServerConnection "uuid-0"] in
  defaults db' ≠ []
  ∧ ((length (defaults db_empty) ≤ 1)%nat → length (defaults db') = 1%nat)
  ∧ (sqlite_fault E0 (calls db') = None →
     ∃ s, (routes.get_default_server_info E0 db').1 = routes.DefaultServer s
          ∧ s ∈ rows db' ∧ s_is_default s = 1).
Proof.
  apply (default_server_is_never_lost E0 default_settings db_empty db_local). reflexivity.
Defined.

Lemma saved_default_witness :
  let saved := save_server E0 "LAN" "http://192.168.0.5:11434" true db_local in
  ∃ row,
    s_id row = "uuid-1" ∧ s_name row = "LAN" ∧ s_url row = "http://192.168.0.5:11434"
    ∧ rows saved.2 = (unset_default <$> rows db_local) ++ [row]
    ∧ defaults saved.2 = [row]
    ∧ (sqlite_fault E0 (calls saved.2) = None → (get_default_server E0 saved.2).1 = Some row).
Proof.
  intros saved.
  apply (saved_default_server_is_the_default E0 "LAN" "http://192.168.0.5:11434"
           db_local saved.2 (Ok "uuid-1")).
  reflexivity.
Defined.

Lemma reconnected_server_witness :
  let db' := update_server_connection E0 "uuid-0" db_local in
  let listed := (routes.get_servers E0 db').1 in
  listed ≡ₚ rows db'
  ∧ latest_connection_first listed
  ∧ ("uuid-0" ∈ server_ids db_local →
     ∃ s rest, listed = s :: rest ∧ s_id s = "uuid-0"
               ∧ s_last_connected s = datetime_now E0 (calls db_local))
  ∧ ("uuid-0" ∉ server_ids db_local → rows db' = rows db_local).
Proof.
  apply (reconnected_server_is_listed_first E0 "uuid-0" db_local).
  - reflexivity.
  - reflexivity.
  - intros s Hs. unfold db_local in Hs. simpl in Hs.
    apply elem_of_cons in Hs as [->|Hs]; [simpl; lia|].
    apply elem_of_nil in Hs. contradiction.
Defined.

Lemma connect_witness :
  let run := routes.connect_server E0 default_settings connect_lan 1000 listing db_local in
  ∃ name ip port text row,
    conn_name_ip_port connect_lan = Some (name, ip, port)
    ∧ listing = HttpResponse 200 text (Ok snapshot)
    ∧ rows run.2 = (if default false (routes.conn_is_default connect_lan)
                    then unset_default <$> rows db_local else rows db_local) ++ [row]
    ∧ s_id row = "uuid-1" ∧ s_name row = name
    ∧ s_url row = routes.server_url ip port
    ∧ (default false (routes.conn_is_default connect_lan) = true → defaults run.2 = [row]).
Proof.
  intros run.
  apply (connect_server_stores_only_listed_servers E0 default_settings connect_lan 1000
           listing db_local run.2 (routes.Connected "uuid-1" snapshot)).
  reflexivity.
Defined.

Lemma connect_again_witness :
  let first := routes.connect_server E0 default_settings connect_lan 1000 listing db_local in
  let second := routes.connect_server E0 default_settings connect_lan 1060 listing first.2 in
  ∃ name ip port,
    conn_name_ip_port connect_lan = Some (name, ip, port)
    ∧ "uuid-1" ≠ "uuid-2"
    ∧ length (stored_under (routes.server_url ip port) second.2)
      = (2 + length (stored_under (routes.server_url ip port) db_local))%nat.
Proof.
  intros first second.
  apply (connecting_again_stores_the_server_again E0 default_settings connect_lan
           1000 1060 listing listing db_local first.2 second.2
           "uuid-1" "uuid-2" snapshot snapshot).
  - reflexivity.
  - reflexivity.
Defined.

(** An empty cache, and a server whose 200 answer holds an error. *)
Lemma cached_error_witness :
  let self := OllamaClient_init default_settings None in
  let kv : gmap string json := {[ "error" := JStr "model store unavailable" ]} in
  let first := routes.get_models None self 1000 (HttpResponse 200 "{...}" (Ok (JObj kv))) in
  first.1 = Ok (routes.Models500 (JStr "model store unavailable"))
  ∧ ∀ t2 net2, cache_valid first.2 t2 = true →
      routes.get_models None first.2 t2 net2
      = (Ok (routes.Models500 (JStr "model store unavailable")), first.2).
Proof.
  intros self kv.
  apply (error_body_is_cached_and_served_again None self 1000 "{...}" kv
           (JStr "model store unavailable")).
  - right. reflexivity.
  - reflexivity.
Defined.

(** A server code and a backend code asked for with an empty name and
    no ip. *)
Lemma generated_qr_witness :
  let server := qr_handler.generate_server_qr qr_defaults 4300 png_stub (Some "") None in
  let backend := qr_handler.generate_backend_qr qr_defaults 4300 png_stub (Some "") None in
  (∃ qr data,
     server = Ok (qr, data)
     ∧ qr_handler.verify_qr_data 4300 data = Ok true
     ∧ py_getitem data "ip" = Ok (JStr "192.168.0.2")
     ∧ py_getitem data "name" = Ok (JStr ""))
  ∧ (∃ qr data,
       backend = Ok (qr, data)
       ∧ qr_handler.verify_qr_data 4300 data = Ok true
       ∧ py_getitem data "ip" = Ok (JStr "192.168.0.2")
       ∧ py_getitem data "name" = Ok (JStr "Ollama-Backend (192.168.0.2)")).
Proof.
  intros server backend.
  destruct (generated_connection_data_is_valid qr_defaults 4300 png_stub (Some "") None)
    as [Hserver Hbackend].
  split; do 2 eexists; (split; [reflexivity|]).
  - eapply Hserver. reflexivity.
  - eapply Hbackend. reflexivity.
Defined.

(** The database fails when the user's message of a first turn is
    written. *)
Lemma aborted_stream_witness :
  let run := generate (E_fault 1) default_settings None "llama3" "Hello" [] None None hi_there w0 in
  ∃ e, run.1.1 = Raise e
       ∧ failed_writes run.2 = [e]
       ∧ frames run.2 = []
       ∧ inserted_messages run.2 = []
       ∧ messages run.1.2 = messages w0
       ∧ (chats run.1.2 = chats w0 ∧ inserted_chats run.2 = []
          ∨ ∃ crow, truthy None = false
                    ∧ chats run.1.2 = chats w0 ++ [crow] ∧ inserted_chats run.2 = [crow]).
Proof.
  intros run.
  apply (failed_opening_write_aborts_the_stream (E_fault 1) default_settings
           None "llama3" "Hello" [] None None hi_there w0 run.1.2 run.1.1 run.2).
  - reflexivity.
  - reflexivity.
Defined.

(** C7 does not hold of the code. A refresh answered 200 with a body
    that is no JSON fails, with an error dict, after the timestamp of
    the cache has been overwritten: the snapshot of time 1000, expired
    at time 2000, is kept and stamped 2000, and a call at time 2100
    serves it from the cache as if it had been fetched at 2000. *)
Theorem failed_refresh_restamps_expired_snapshot :
  let self := set_data (set_timestamp (OllamaClient_init default_settings None) 1000) snapshot in
  let failed := get_models self false 2000 not_json in
  cache_valid self 2000 = false
  ∧ is_error_result failed.1.1
  ∧ failed.2 = RefreshFailed
  ∧ data (models_cache failed.1.2) = data (models_cache self)
  ∧ PrimFloat.eqb (timestamp (models_cache self)) 1000 = true
  ∧ PrimFloat.eqb (timestamp (models_cache failed.1.2)) 2000 = true
  ∧ failed.1.2 ≠ self
  ∧ get_models failed.1.2 false 2100 (HttpRaises (Exn RequestException "down"))
    = (snapshot, failed.1.2, FromCache).
Proof.
  intros self failed. split_and!; try reflexivity.
  - eexists. reflexivity.
  - intros Hsame.
    apply (f_equal (fun c => PrimFloat.eqb (timestamp (models_cache c)) 1000)) in Hsame.
    vm_compute in Hsame. discriminate.
Qed.

End Witnesses.
